(** * A shallow embedding of [tile_layout.py] (qt-tile-layout)

    The layout keeps a grid [tile_map] of references to [Tile] objects.
    Several cells may hold a reference to the same [Tile]; the tile
    objects are mutated in place ([updateSize], [addWidget]).  We
    therefore model a store of tile objects ([tiles], indexed by
    reference) next to the grid of references, and thread the whole
    layout through a small state-and-exception monad.

    Calls into Qt affect the rendering only and have no effect on the
    bookkeeping modelled here.  Two things are kept of them, since they
    can raise: the reads of [tile_map] they are given as arguments, and
    the conversion of the Python integers they are given to C [int]s
    ([QGridLayout.addWidget], [setRowMinimumHeight], [setRowStretch] and
    their column counterparts).  Pixel sizes and spacings are not part
    of the model. *)

From Stdlib Require Import ZArith Lia Bool.
From stdpp Require Import base tactics numbers option list.

Local Open Scope Z_scope.

(** ** Python results and exceptions *)

(** [InvalidRef] has no Python counterpart: a Python reference always
    denotes a live object.  It is the result of dereferencing a reference
    outside the store, which no well-formed layout does. *)
Inductive exn : Set :=
| AssertionError
| IndexError
| ValueError
| OverflowError
| InvalidRef.

Global Instance exn_eq_dec : EqDecision exn.
Proof. solve_decision. Defined.

Definition Res (A : Type) : Type := (exn + A)%type.

Definition res_bind {A B : Type} (m : Res A) (k : A -> Res B) : Res B :=
  match m with
  | inl e => inl e
  | inr a => k a
  end.

Notation "'let?' x := m 'in' k" := (res_bind m (fun x => k))
  (at level 10, x pattern, m at level 100, k at level 200).

Fixpoint res_mapM {A B : Type} (f : A -> Res B) (l : list A) : Res (list B) :=
  match l with
  | [] => inr []
  | x :: l' => let? y := f x in let? ys := res_mapM f l' in inr (y :: ys)
  end.

(** ** Python lists indexed by integers *)

(** [l[i]]: a negative index counts from the end, anything outside
    [-len, len) raises [IndexError]. *)
Definition py_index {A : Type} (l : list A) (i : Z) : option nat :=
  let n := Z.of_nat (length l) in
  if decide (0 <= i < n) then Some (Z.to_nat i)
  else if decide (- n <= i < 0) then Some (Z.to_nat (n + i))
  else None.

Definition py_getitem {A : Type} (l : list A) (i : Z) : Res A :=
  match py_index l i with
  | Some k => match l !! k with Some x => inr x | None => inl IndexError end
  | None => inl IndexError
  end.

Definition py_setitem {A : Type} (l : list A) (i : Z) (x : A) : Res (list A) :=
  match py_index l i with
  | Some k => inr (<[k := x]> l)
  | None => inl IndexError
  end.

(** [range(n)] *)
Definition py_range (n : Z) : list Z := seqZ 0 n.

(** [[(from_row + row, from_column + column)
      for row in range(row_span) for column in range(column_span)]] *)
Definition rect_cells (from_row from_column row_span column_span : Z) : list (Z * Z) :=
  row ← py_range row_span;
  column ← py_range column_span;
  [(from_row + row, from_column + column)].

(** [x in l] and [l.index(x)] *)
Definition py_in {A : Type} `{EqDecision A} (x : A) (l : list A) : bool :=
  bool_decide (x ∈ l).

Fixpoint py_list_index {A : Type} `{EqDecision A} (x : A) (l : list A) : Res nat :=
  match l with
  | [] => inl ValueError
  | y :: l' => if decide (x = y) then inr 0%nat
             else let? i := py_list_index x l' in inr (S i)
  end.

(** [l.pop(i)] for an index obtained from [l.index] *)
Definition py_pop {A : Type} (i : nat) (l : list A) : list A := delete i l.

(** ** Tiles *)

(** Items and tile objects are known by their identity only. *)
Abbreviation Widget := nat (only parsing).
Abbreviation TileRef := nat (only parsing).

(** Modelled from the spec: the class [Tile] of [tile.py], which is not
    among the source files.  The spec (section 3) gives a tile an origin,
    a span, an occupancy flag and an optional item; [tile_layout.py]
    reaches them through the getters below, and mutates them through
    [updateSize] and [addWidget]. *)
Record Tile : Set := mkTile {
  getFromRow : Z;
  getFromColumn : Z;
  getRowSpan : Z;
  getColumnSpan : Z;
  isFilled : bool;
  tile_widget : option Widget
}.

Global Instance Tile_eq_dec : EqDecision Tile.
Proof. solve_decision. Defined.

(** Modelled from the spec: the constructor of [Tile]; a new tile is
    unfilled and holds no item. *)
Definition Tile_new (from_row from_column row_span column_span : Z) : Tile :=
  mkTile from_row from_column row_span column_span false None.

(** Modelled from the spec: [Tile.updateSize] with the four grid
    arguments given. *)
Definition Tile_updateSize (from_row from_column row_span column_span : Z) (t : Tile) : Tile :=
  mkTile from_row from_column row_span column_span (isFilled t) (tile_widget t).

(** Modelled from the spec: [Tile.addWidget] marks the tile filled and
    stores the item. *)
Definition Tile_addWidget (w : Widget) (t : Tile) : Tile :=
  mkTile (getFromRow t) (getFromColumn t) (getRowSpan t) (getColumnSpan t) true (Some w).

(** ** The layout *)

(** A [tileResized] emission. *)
Definition Event : Set := (Widget * (Z * Z * Z * Z))%type.

Record TileLayout : Set := mkLayout {
  row_number : Z;
  column_number : Z;
  tiles : list Tile;                 (* the tile objects, by reference *)
  tile_map : list (list TileRef);
  couple_widget : list Widget;       (* widget_tile_couple['widget'] *)
  couple_tile : list TileRef;        (* widget_tile_couple['tile'] *)
  tileResized : list Event           (* emissions, oldest first *)
}.

Definition set_tiles (h : list Tile) (s : TileLayout) : TileLayout :=
  mkLayout (row_number s) (column_number s) h (tile_map s)
           (couple_widget s) (couple_tile s) (tileResized s).

Definition set_tile_map (m : list (list TileRef)) (s : TileLayout) : TileLayout :=
  mkLayout (row_number s) (column_number s) (tiles s) m
           (couple_widget s) (couple_tile s) (tileResized s).

Definition set_couple (ws : list Widget) (ts : list TileRef) (s : TileLayout) : TileLayout :=
  mkLayout (row_number s) (column_number s) (tiles s) (tile_map s)
           ws ts (tileResized s).

Definition set_tileResized (es : list Event) (s : TileLayout) : TileLayout :=
  mkLayout (row_number s) (column_number s) (tiles s) (tile_map s)
           (couple_widget s) (couple_tile s) es.

(** ** State and exceptions *)

Definition M (A : Type) : Type := TileLayout -> TileLayout * Res A.

Definition ret {A : Type} (a : A) : M A := fun s => (s, inr a).

Definition raise {A : Type} (e : exn) : M A := fun s => (s, inl e).

Definition bind {A B : Type} (m : M A) (k : A -> M B) : M B :=
  fun s =>
    match m s with
    | (s', inr a) => k a s'
    | (s', inl e) => (s', inl e)
    end.

Notation "'let*' x := m 'in' k" := (bind m (fun x => k))
  (at level 10, x pattern, m at level 100, k at level 200).

Definition read {A : Type} (f : TileLayout -> Res A) : M A := fun s => (s, f s).

Definition modify (f : TileLayout -> TileLayout) : M unit := fun s => (f s, inr tt).

Definition py_assert (b : bool) : M unit :=
  if b then ret tt else raise AssertionError.

Fixpoint for_each {A : Type} (l : list A) (body : A -> M unit) : M unit :=
  match l with
  | [] => ret tt
  | x :: l' => let* _ := body x in for_each l' body
  end.

(** ** Integers handed to Qt *)

(** The binding converts a Python integer given for a C [int]
    parameter and raises [OverflowError] when it does not fit. *)
Notation "'INT_MIN'" := (-2147483648) (only parsing).
Notation "'INT_MAX'" := (2147483647) (only parsing).

Definition c_int (z : Z) : Prop := INT_MIN <= z <= INT_MAX.

Global Instance c_int_dec z : Decision (c_int z).
Proof. unfold c_int. apply _. Defined.

(** A call into Qt with the integer arguments [args]: only their
    conversion is kept. *)
Definition qt_call (args : list Z) : M unit :=
  if bool_decide (Forall c_int args) then ret tt else raise OverflowError.

(** ** Reading the grid *)

(** [self.tile_map[row][column]] *)
Definition tile_at (s : TileLayout) (row column : Z) : Res TileRef :=
  let? r := py_getitem (tile_map s) row in py_getitem r column.

Definition deref (s : TileLayout) (tile : TileRef) : Res Tile :=
  match tiles s !! tile with
  | Some t => inr t
  | None => inl InvalidRef
  end.

(** [self.tile_map[row][column].isFilled()] *)
Definition filled_at (s : TileLayout) (row column : Z) : Res bool :=
  let? tile := tile_at s row column in let? t := deref s tile in inr (isFilled t).

(** [self.tile_map[row][column] = tile] *)
Definition set_cell (row column : Z) (tile : TileRef) : M unit :=
  fun s =>
    match py_index (tile_map s) row with
    | None => (s, inl IndexError)
    | Some i =>
        match tile_map s !! i with
        | None => (s, inl IndexError)
        | Some r =>
            match py_setitem r column tile with
            | inl e => (s, inl e)
            | inr r' => (set_tile_map (<[i := r']> (tile_map s)) s, inr tt)
            end
        end
    end.

(** Mutation of a tile object through a reference. *)
Definition update_tile (tile : TileRef) (f : Tile -> Tile) : M unit :=
  fun s =>
    match tiles s !! tile with
    | Some t => (set_tiles (<[tile := f t]> (tiles s)) s, inr tt)
    | None => (s, inl InvalidRef)
    end.

(** ** The methods of [TileLayout] *)

(** [isAreaEmpty]: the list handed to [all] is built in full. *)
Definition isAreaEmpty (s : TileLayout) (from_row from_column row_span column_span : Z) : Res bool :=
  if (from_row + row_span >? row_number s) || (from_column + column_span >? column_number s)
     || (from_row <? 0) || (from_column <? 0)
  then inr false
  else
    let? flags :=
      res_mapM (fun '(row, column) => let? b := filled_at s row column in inr (negb b))
               (rect_cells from_row from_column row_span column_span) in
    inr (forallb (fun b : bool => b) flags).

(** [__createTile]: the new [Tile] object, then
    [super().addWidget(tile, from_row, from_column, row_span, column_span)]. *)
Definition __createTile (from_row from_column row_span column_span : Z)
    (update_tile_map : bool) : M TileRef :=
  fun s =>
    let tile := length (tiles s) in
    let s1 := set_tiles (tiles s ++ [Tile_new from_row from_column row_span column_span]) s in
    (let* _ := qt_call [from_row; from_column; row_span; column_span] in
     let* _ :=
       (if update_tile_map
        then for_each (rect_cells from_row from_column row_span column_span)
                      (fun '(row, column) => set_cell row column tile)
        else ret tt) in
     ret tile) s1.

(** [__createTileMap], run by the constructor on an empty [tile_map]. *)
Definition append_row : M unit :=
  modify (fun s => set_tile_map (tile_map s ++ [[]]) s).

(** [self.tile_map[-1].append(tile)] *)
Definition append_to_last_row (tile : TileRef) : M unit :=
  fun s =>
    match py_index (tile_map s) (-1) with
    | None => (s, inl IndexError)
    | Some i =>
        match tile_map s !! i with
        | None => (s, inl IndexError)
        | Some r => (set_tile_map (<[i := r ++ [tile]]> (tile_map s)) s, inr tt)
        end
    end.

Definition __createTileMap : M unit :=
  fun s =>
    for_each (py_range (row_number s)) (fun i_row =>
      let* _ := append_row in
      for_each (py_range (column_number s)) (fun i_column =>
        let* tile := __createTile i_row i_column 1 1 false in
        append_to_last_row tile)) s.

(** [__setGridMinimalSize]: [setRowMinimumHeight(i, ...)] for each
    row, [setRowStretch(self.row_number, 1)], and the same for the
    columns. *)
Definition __setGridMinimalSize : M unit :=
  fun s =>
    (let* _ := for_each (py_range (row_number s)) (fun i => qt_call [i]) in
     let* _ := qt_call [row_number s; 1] in
     let* _ := for_each (py_range (column_number s)) (fun i => qt_call [i]) in
     qt_call [column_number s; 1]) s.

(** [__init__]: the fields, then [__setGridMinimalSize] and
    [__createTileMap]. *)
Definition __init__ (row_number column_number : Z) : TileLayout * Res unit :=
  (let* _ := __setGridMinimalSize in __createTileMap)
    (mkLayout row_number column_number [] [] [] [] []).

(** [__mergeTiles]: the loop over the cells, then
    [super().addWidget(tile, from_row, from_column, row_span, column_span)]
    and [tile.updateSize]. *)
Definition __mergeTiles (tile : TileRef) (from_row from_column row_span column_span : Z)
    (tiles_to_merge : list (Z * Z)) : M unit :=
  let* _ :=
    for_each tiles_to_merge (fun '(row, column) =>
      let* _ := read (fun s => tile_at s row column) in
      set_cell row column tile) in
  let* _ := qt_call [from_row; from_column; row_span; column_span] in
  update_tile tile (Tile_updateSize from_row from_column row_span column_span).

(** [__splitTiles]: the loop over the cells, then
    [super().addWidget(tile, from_row, from_column, row_span, column_span)]
    and [tile.updateSize]. *)
Definition __splitTiles (tile : TileRef) (from_row from_column row_span column_span : Z)
    (tiles_to_split : list (Z * Z)) : M unit :=
  let* _ :=
    for_each tiles_to_split (fun '(row, column) =>
      let* _ := __createTile row column 1 1 true in ret tt) in
  let* _ := qt_call [from_row; from_column; row_span; column_span] in
  update_tile tile (Tile_updateSize from_row from_column row_span column_span).

(** [hardSplitTiles]; it ends with
    [super().addWidget(tile, from_row, from_column)]. *)
Definition hardSplitTiles (from_row from_column : Z) (tiles_to_split : list (Z * Z)) : M TileRef :=
  let* _ := py_assert (py_in (from_row, from_column) tiles_to_split) in
  let* _ :=
    for_each tiles_to_split (fun '(row, column) =>
      let* _ := read (fun s => tile_at s row column) in
      let* _ := __createTile row column 1 1 true in ret tt) in
  let* tile := read (fun s => tile_at s from_row from_column) in
  let* _ := qt_call [from_row; from_column] in
  ret tile.

(** [changeTilesColor]: only the reads of the grid are kept. *)
Definition changeTilesColor : M unit :=
  fun s =>
    for_each (py_range (row_number s)) (fun row =>
      for_each (py_range (column_number s)) (fun column =>
        let* _ := read (fun s => filled_at s row column) in ret tt)) s.

(** [addWidget] *)
Definition addWidget (widget : Widget) (from_row from_column row_span column_span : Z) : M unit :=
  let* _ := (fun s => py_assert (negb (py_in widget (couple_widget s))) s) in
  let* ok := read (fun s => isAreaEmpty s from_row from_column row_span column_span) in
  let* _ := py_assert ok in
  let* tile := read (fun s => tile_at s from_row from_column) in
  let* _ :=
    modify (fun s => set_couple (couple_widget s ++ [widget]) (couple_tile s ++ [tile]) s) in
  let* _ :=
    (if (row_span >? 1) || (column_span >? 1)
     then __mergeTiles tile from_row from_column row_span column_span
                       (tail (rect_cells from_row from_column row_span column_span))
     else ret tt) in
  update_tile tile (Tile_addWidget widget).

(** [removeWidget] *)
Definition removeWidget (widget : Widget) : M unit :=
  let* _ := (fun s => py_assert (py_in widget (couple_widget s)) s) in
  let* index := read (fun s => py_list_index widget (couple_widget s)) in
  let* tile := read (fun s => py_getitem (couple_tile s) (Z.of_nat index)) in
  let* t := read (fun s => deref s tile) in
  let from_row := getFromRow t in
  let from_column := getFromColumn t in
  let row_span := getRowSpan t in
  let column_span := getColumnSpan t in
  let tiles_to_split := rect_cells from_row from_column row_span column_span in
  let* _ := hardSplitTiles from_row from_column tiles_to_split in
  let* _ :=
    modify (fun s => set_couple (py_pop index (couple_widget s))
                                (py_pop index (couple_tile s)) s) in
  changeTilesColor.

(** [__getTilesToSplit] *)
Definition __getTilesToSplit (s : TileLayout) (direction : Z * Z) (from_row from_column tile_number : Z)
    : Res (Z * list (Z * Z)) :=
  let? tile := tile_at s from_row from_column in
  let? t := deref s tile in
  let row_span := getRowSpan t in
  let column_span := getColumnSpan t in
  let '(dir_x, dir_y) := direction in
  let tile_number :=
    if - tile_number * (dir_x + dir_y)
       <? column_span * Z.b2z (negb (dir_x =? 0)) + row_span * Z.b2z (negb (dir_y =? 0))
    then tile_number
    else (1 - column_span) * dir_x + (1 - row_span) * dir_y in
  let tiles_to_merge :=
    row ← py_range (- tile_number * dir_y + row_span * Z.b2z (negb (dir_x =? 0)));
    column ← py_range (- tile_number * dir_x + column_span * Z.b2z (negb (dir_y =? 0)));
    [(from_row + row + (row_span - 2 * row - 1) * Z.b2z (dir_y =? 1),
      from_column + column + (column_span - 2 * column - 1) * Z.b2z (dir_x =? 1))] in
  inr (tile_number, tiles_to_merge).

(** The inner loop of [__getTilesToMerge]: [true] when a filled tile is
    met (the early [return]). *)
Fixpoint strip_blocked (s : TileLayout) (strip : list (Z * Z)) : Res bool :=
  match strip with
  | [] => inr false
  | (row, column) :: rest =>
      let? b := filled_at s row column in
      if b then inr true else strip_blocked s rest
  end.

(** The outer loop of [__getTilesToMerge] over the strips still to
    check, with [tile_number_available] and [tiles_to_merge] so far. *)
Fixpoint scan_strips (s : TileLayout) (step : Z) (strips : list (list (Z * Z)))
    (tile_number_available : Z) (tiles_to_merge : list (list (Z * Z)))
    : Res (Z * list (Z * Z)) :=
  match strips with
  | [] => inr (tile_number_available, concat tiles_to_merge)
  | tiles_to_check :: rest =>
      let? b := strip_blocked s tiles_to_check in
      if b then inr (tile_number_available, concat tiles_to_merge)
      else scan_strips s step rest (tile_number_available + step)
                       (tiles_to_merge ++ [tiles_to_check])
  end.

(** [__getTilesToMerge] *)
Definition __getTilesToMerge (s : TileLayout) (direction : Z * Z) (from_row from_column tile_number : Z)
    : Res (Z * list (Z * Z)) :=
  let? tile := tile_at s from_row from_column in
  let? t := deref s tile in
  let row_span := getRowSpan t in
  let column_span := getColumnSpan t in
  let '(dir_x, dir_y) := direction in
  let tile_number :=
    if dir_x + dir_y =? -1
    then Z.max tile_number
               (- from_column * Z.b2z (negb (dir_x =? 0)) - from_row * Z.b2z (negb (dir_y =? 0)))
    else Z.min tile_number
               ((column_number s - from_column - column_span) * Z.b2z (negb (dir_x =? 0))
                + (row_number s - from_row - row_span) * Z.b2z (negb (dir_y =? 0))) in
  if negb (dir_x =? 0)
  then
    scan_strips s dir_x
      ((fun column =>
          let column_delta := (column_span + column) * Z.b2z (dir_x =? 1)
                              + (- column - 1) * Z.b2z (dir_x =? -1) in
          (fun row => (from_row + row, from_column + column_delta)) <$> py_range row_span)
       <$> py_range (tile_number * dir_x))
      0 []
  else
    scan_strips s dir_y
      ((fun row =>
          let row_delta := (row_span + row) * Z.b2z (dir_y =? 1)
                           + (- row - 1) * Z.b2z (dir_y =? -1) in
          (fun column => (from_row + row_delta, from_column + column)) <$> py_range column_span)
       <$> py_range (tile_number * dir_y))
      0 [].

(** [resizeTile] *)
Definition resizeTile (direction : Z * Z) (from_row from_column tile_number : Z) : M unit :=
  let* tile := read (fun s => tile_at s from_row from_column) in
  let* t := read (fun s => deref s tile) in
  let row_span := getRowSpan t in
  let column_span := getColumnSpan t in
  let '(dir_x, dir_y) := direction in
  let increase := tile_number * (dir_x + dir_y) >? 0 in
  let* r :=
    read (fun s =>
      if increase
      then __getTilesToMerge s direction from_row from_column tile_number
      else __getTilesToSplit s direction from_row from_column tile_number) in
  let '(tile_number, tiles_to_merge) := r in
  let column_span := column_span + tile_number * dir_x in
  let from_column := from_column + tile_number * Z.b2z (dir_x =? -1) in
  let row_span := row_span + tile_number * dir_y in
  let from_row := from_row + tile_number * Z.b2z (dir_y =? -1) in
  match tiles_to_merge with
  | [] => ret tt
  | _ :: _ =>
      let* _ :=
        (if increase
         then __mergeTiles tile from_row from_column row_span column_span tiles_to_merge
         else __splitTiles tile from_row from_column row_span column_span tiles_to_merge) in
      let* index := read (fun s => py_list_index tile (couple_tile s)) in
      let* widget := read (fun s => py_getitem (couple_widget s) (Z.of_nat index)) in
      modify (fun s => set_tileResized
                (tileResized s ++ [(widget, (from_row, from_column, row_span, column_span))]) s)
  end.

(** ** Running the embedding on small grids *)

Definition fresh (R C : Z) : TileLayout := fst (__init__ R C).

Definition run {A : Type} (m : M A) (s : TileLayout) : TileLayout := fst (m s).

Definition result {A : Type} (m : M A) (s : TileLayout) : Res A := snd (m s).

(** * Well-formed layouts *)

Definition in_grid (s : TileLayout) (r c : Z) : Prop :=
  0 <= r < row_number s /\ 0 <= c < column_number s.

Definition cell (s : TileLayout) (r c : Z) : option TileRef :=
  if decide (0 <= r /\ 0 <= c)
  then row ← tile_map s !! Z.to_nat r; row !! Z.to_nat c
  else None.

(** The grid has [row_number] rows of [column_number] references, and
    every reference denotes a tile object.  The dimensions fit a C
    [int]: the constructor hands them to Qt before it builds the
    grid. *)
Definition wf (s : TileLayout) : Prop :=
  Z.of_nat (length (tile_map s)) = row_number s
  /\ Forall (fun row =>
       Z.of_nat (length row) = column_number s
       /\ Forall (fun tile : TileRef => (tile < length (tiles s))%nat) row) (tile_map s)
  /\ row_number s <= INT_MAX /\ column_number s <= INT_MAX.

Global Instance wf_dec s : Decision (wf s).
Proof. unfold wf. apply _. Defined.

(** The cells of a rectangle are all owned by unfilled tiles. *)
Definition area_unfilled (s : TileLayout) (from_row from_column row_span column_span : Z) : Prop :=
  forall r c,
    from_row <= r < from_row + row_span -> from_column <= c < from_column + column_span ->
    exists tile t, cell s r c = Some tile /\ tiles s !! tile = Some t /\ isFilled t = false.

(** What the grid operations leave alone: the dimensions, the registry
    and the emitted signals. *)
Definition frame (s s' : TileLayout) : Prop :=
  row_number s' = row_number s /\ column_number s' = column_number s
  /\ couple_widget s' = couple_widget s /\ couple_tile s' = couple_tile s
  /\ tileResized s' = tileResized s.

(** One iteration of a splitting loop: the cell gets a new unit tile. *)
Definition unit_split_step (body : Z * Z -> M unit) : Prop :=
  forall s r c,
    wf s -> in_grid s r c ->
    exists s',
      body (r, c) s = (s', inr tt)
      /\ wf s' /\ tiles s' = tiles s ++ [Tile_new r c 1 1] /\ frame s s'
      /\ (forall r' c', cell s' r' c'
                        = if decide (r' = r /\ c' = c) then Some (length (tiles s))
                          else cell s r' c').

(** The cells of a tile's rectangle. *)
Definition covers (t : Tile) (r c : Z) : Prop :=
  getFromRow t <= r < getFromRow t + getRowSpan t
  /\ getFromColumn t <= c < getFromColumn t + getColumnSpan t.

Global Instance covers_dec t r c : Decision (covers t r c).
Proof. unfold covers. apply _. Defined.

(** The rectangle of a tile lies in the grid and has spans of at least
    one (spec, section 3). *)
Definition tile_in_grid (s : TileLayout) (t : Tile) : Prop :=
  0 <= getFromRow t /\ 1 <= getRowSpan t
  /\ getFromRow t + getRowSpan t <= row_number s
  /\ 0 <= getFromColumn t /\ 1 <= getColumnSpan t
  /\ getFromColumn t + getColumnSpan t <= column_number s.

Global Instance tile_in_grid_dec s t : Decision (tile_in_grid s t).
Proof. unfold tile_in_grid. apply _. Defined.

(** The registry binds [widget] to [tile]: the tile stands in
    [widget_tile_couple['tile']] at the index of the first occurrence
    of the widget. *)
Definition bound_at (s : TileLayout) (widget : Widget) (index : nat) (tile : TileRef) : Prop :=
  py_list_index widget (couple_widget s) = inr index
  /\ couple_tile s !! index = Some tile.

Global Instance bound_at_dec s widget index tile : Decision (bound_at s widget index tile).
Proof. unfold bound_at. apply _. Defined.

(** The four directions [(dir_x, dir_y)] a resize request can carry;
    rows grow southwards, columns eastwards. *)
Definition east : Z * Z := (1, 0).
Definition west : Z * Z := (-1, 0).
Definition south : Z * Z := (0, 1).
Definition north : Z * Z := (0, -1).

Definition is_direction (direction : Z * Z) : Prop :=
  direction = east \/ direction = west \/ direction = south \/ direction = north.

Global Instance is_direction_dec direction : Decision (is_direction direction).
Proof. unfold is_direction. apply _. Defined.

(** The span of a tile along the axis of a direction. *)
Definition axis_span (direction : Z * Z) (t : Tile) : Z :=
  if fst direction =? 0 then getRowSpan t else getColumnSpan t.

(** The geometry [resizeTile] hands to [updateSize] once [granted]
    units are granted. *)
Definition resized (direction : Z * Z) (from_row from_column granted : Z) (t : Tile) : Tile :=
  Tile_updateSize
    (from_row + granted * Z.b2z (snd direction =? -1))
    (from_column + granted * Z.b2z (fst direction =? -1))
    (getRowSpan t + granted * snd direction)
    (getColumnSpan t + granted * fst direction) t.

(** A tile anchored at a cell: the cell holds the tile and is its
    upper-left corner. *)
Definition anchored_at (s : TileLayout) (from_row from_column : Z) (tile : TileRef) (t : Tile) : Prop :=
  cell s from_row from_column = Some tile /\ tiles s !! tile = Some t
  /\ getFromRow t = from_row /\ getFromColumn t = from_column.

Global Instance anchored_at_dec s from_row from_column tile t :
  Decision (anchored_at s from_row from_column tile t).
Proof. unfold anchored_at. apply _. Defined.

(** The two scans of [resizeTile]: growth when the request has the sign
    of the direction, shrinking otherwise. *)
Definition resize_scan (s : TileLayout) (direction : Z * Z) (from_row from_column tile_number : Z)
    : Res (Z * list (Z * Z)) :=
  if tile_number * (fst direction + snd direction) >? 0
  then __getTilesToMerge s direction from_row from_column tile_number
  else __getTilesToSplit s direction from_row from_column tile_number.

(** The unit tiles a split creates, in creation order. *)
Definition unit_tiles (cells : list (Z * Z)) : list Tile :=
  (fun '(r, c) => Tile_new r c 1 1) <$> cells.

(** The signal [resizeTile] emits for the tile [t] after the resize. *)
Definition resize_event (widget : Widget) (t : Tile) : Event :=
  (widget, (getFromRow t, getFromColumn t, getRowSpan t, getColumnSpan t)).

(** The reading of "shrinking with direction north sheds the tile's
    southern-most strips": the cells [__getTilesToSplit] lists for the
    direction north lie in the last rows of the tile, as many rows as
    units are granted. *)
Definition north_sheds_southern_rows (s : TileLayout) (from_row from_column tile_number : Z) : Prop :=
  forall tile t granted cells,
    anchored_at s from_row from_column tile t ->
    __getTilesToSplit s north from_row from_column tile_number = inr (granted, cells) ->
    forall r c, (r, c) ∈ cells ->
      from_row + getRowSpan t - Z.abs granted <= r < from_row + getRowSpan t.

(** ** Growth, in the words of the specification *)

(** The [i]-th strip beyond the far edge of the tile with spans taken
    from [t] and origin [(from_row, from_column)]: as wide as the tile,
    one step further per [i]. *)
Definition growth_strip (direction : Z * Z) (from_row from_column : Z) (t : Tile) (i : Z)
    : list (Z * Z) :=
  if decide (direction = east) then
    (fun j => (from_row + j, from_column + getColumnSpan t + i)) <$> seqZ 0 (getRowSpan t)
  else if decide (direction = west) then
    (fun j => (from_row + j, from_column - 1 - i)) <$> seqZ 0 (getRowSpan t)
  else if decide (direction = south) then
    (fun j => (from_row + getRowSpan t + i, from_column + j)) <$> seqZ 0 (getColumnSpan t)
  else
    (fun j => (from_row - 1 - i, from_column + j)) <$> seqZ 0 (getColumnSpan t).

(** The room between the far edge and the grid boundary. *)
Definition boundary_room (s : TileLayout) (direction : Z * Z) (from_row from_column : Z) (t : Tile) : Z :=
  if decide (direction = east) then column_number s - from_column - getColumnSpan t
  else if decide (direction = west) then from_column
  else if decide (direction = south) then row_number s - from_row - getRowSpan t
  else from_row.

(** A cell owned by an unfilled tile. *)
Definition unfilled_at (s : TileLayout) (r c : Z) : bool :=
  match cell s r c with
  | Some tile => match tiles s !! tile with
                 | Some t => negb (isFilled t)
                 | None => false
                 end
  | None => false
  end.

(** A fully free strip. *)
Definition strip_free (s : TileLayout) (strip : list (Z * Z)) : bool :=
  forallb (fun '(r, c) => unfilled_at s r c) strip.

(** The number of consecutive fully free strips at the head of a list
    of strips. *)
Fixpoint leading_free (s : TileLayout) (strips : list (list (Z * Z))) : nat :=
  match strips with
  | [] => 0
  | strip :: rest => if strip_free s strip then S (leading_free s rest) else 0
  end.

(** The number of consecutive fully free strips beyond the far edge,
    among the first [n]. *)
Definition free_strips (s : TileLayout) (direction : Z * Z) (from_row from_column : Z)
    (t : Tile) (n : Z) : Z :=
  Z.of_nat (leading_free s (growth_strip direction from_row from_column t <$> seqZ 0 n)).

(** The rectangle with the spans of [t] at [(from_row, from_column)]
    lies in the grid. *)
Definition rect_in_grid (s : TileLayout) (from_row from_column : Z) (t : Tile) : Prop :=
  0 <= from_row /\ 1 <= getRowSpan t /\ from_row + getRowSpan t <= row_number s
  /\ 0 <= from_column /\ 1 <= getColumnSpan t
  /\ from_column + getColumnSpan t <= column_number s.

Global Instance rect_in_grid_dec s from_row from_column t :
  Decision (rect_in_grid s from_row from_column t).
Proof. unfold rect_in_grid. apply _. Defined.

(** The reading of "a resize request addressed to an unfilled tile
    completes without error". *)
Definition resize_unfilled_completes (s : TileLayout) (direction : Z * Z)
    (from_row from_column tile_number : Z) : Prop :=
  forall tile t,
    anchored_at s from_row from_column tile t -> isFilled t = false ->
    exists s', resizeTile direction from_row from_column tile_number s = (s', inr tt).

(** ** The partition of the grid *)

(** Every cell of the grid references a tile whose rectangle covers the
    cell. *)
Definition cells_covered (s : TileLayout) : Prop :=
  forall r c, in_grid s r c ->
    exists tile t, cell s r c = Some tile /\ tiles s !! tile = Some t /\ covers t r c.

(** The rectangles of two distinct referenced tiles share no cell. *)
Definition tiles_disjoint (s : TileLayout) : Prop :=
  forall r1 c1 r2 c2 tile1 tile2 t1 t2,
    cell s r1 c1 = Some tile1 -> cell s r2 c2 = Some tile2 -> tile1 <> tile2 ->
    tiles s !! tile1 = Some t1 -> tiles s !! tile2 = Some t2 ->
    forall r c, covers t1 r c -> ~ covers t2 r c.

(** The rectangle of every referenced tile lies in the grid, so that
    the referenced rectangles cover the grid and nothing else. *)
Definition tiles_in_grid (s : TileLayout) : Prop :=
  forall r0 c0 tile t,
    cell s r0 c0 = Some tile -> tiles s !! tile = Some t ->
    forall r c, covers t r c -> in_grid s r c.

Definition partition (s : TileLayout) : Prop :=
  cells_covered s /\ tiles_disjoint s /\ tiles_in_grid s.

(** ** The invariant of the layout *)

(** Every referenced tile covers the cells that reference it and is
    referenced by every cell it covers; an unfilled tile is the unit
    tile of its cell. *)
Definition grid_inv (s : TileLayout) : Prop :=
  forall r c tile,
    cell s r c = Some tile ->
    exists t,
      tiles s !! tile = Some t /\ covers t r c
      /\ (forall r' c', covers t r' c' -> cell s r' c' = Some tile)
      /\ (isFilled t = false -> t = Tile_new r c 1 1).

(** The registry lists have the same length and no duplicates, and
    every registered tile is filled and referenced by the grid. *)
Definition registry_inv (s : TileLayout) : Prop :=
  length (couple_widget s) = length (couple_tile s)
  /\ NoDup (couple_widget s) /\ NoDup (couple_tile s)
  /\ (forall tile, tile ∈ couple_tile s ->
        exists t r c, tiles s !! tile = Some t /\ isFilled t = true
                      /\ cell s r c = Some tile).

Definition Inv (s : TileLayout) : Prop := wf s /\ grid_inv s /\ registry_inv s.

(** ** Operations and their preconditions *)

Inductive Op : Set :=
| OpAdd (widget : Widget) (from_row from_column row_span column_span : Z)
| OpRemove (widget : Widget)
| OpResize (direction : Z * Z) (from_row from_column tile_number : Z)
| OpHardSplit (from_row from_column : Z) (tiles_to_split : list (Z * Z)).

Definition exec (op : Op) : M unit :=
  match op with
  | OpAdd widget from_row from_column row_span column_span =>
      addWidget widget from_row from_column row_span column_span
  | OpRemove widget => removeWidget widget
  | OpResize direction from_row from_column tile_number =>
      resizeTile direction from_row from_column tile_number
  | OpHardSplit from_row from_column tiles_to_split =>
      let* _ := hardSplitTiles from_row from_column tiles_to_split in ret tt
  end.

(** The tile at a cell is bound in the registry and has the cell as
    its origin. *)
Definition bound_anchor (s : TileLayout) (from_row from_column : Z) : Prop :=
  match cell s from_row from_column with
  | Some tile =>
      tile ∈ couple_tile s
      /\ match tiles s !! tile with
         | Some t => getFromRow t = from_row /\ getFromColumn t = from_column
         | None => False
         end
  | None => False
  end.

(** An operation within its domain: a placement of an unbound item
    over an empty rectangle with spans of at least one, the removal of
    a bound item, a resize in one of the four directions addressed to
    the origin of a bound tile, a hard split of cells owned by unfilled
    tiles. *)
Definition valid_op (s : TileLayout) (op : Op) : Prop :=
  match op with
  | OpAdd widget from_row from_column row_span column_span =>
      (widget ∉ couple_widget s)
      /\ isAreaEmpty s from_row from_column row_span column_span = inr true
      /\ 1 <= row_span /\ 1 <= column_span
  | OpRemove widget => widget ∈ couple_widget s
  | OpResize direction from_row from_column tile_number =>
      is_direction direction /\ bound_anchor s from_row from_column
  | OpHardSplit from_row from_column tiles_to_split =>
      (from_row, from_column) ∈ tiles_to_split
      /\ Forall (fun '(r, c) => unfilled_at s r c = true) tiles_to_split
  end.

(** The operations the code accepts: those that return without
    raising. *)
Definition accepted (s : TileLayout) (op : Op) : Prop :=
  result (exec op) s = inr tt.

(** The layouts reached from a fresh grid, one the constructor has
    returned, by operations satisfying [ok]. *)
Inductive reachable (ok : TileLayout -> Op -> Prop) (R C : Z) : TileLayout -> Prop :=
| reachable_fresh : snd (__init__ R C) = inr tt -> reachable ok R C (fresh R C)
| reachable_step s op :
    reachable ok R C s -> ok s op -> reachable ok R C (run (exec op) s).

(** While the constructor fills the grid: every reference placed so
    far denotes the unit tile of its cell. *)
Definition init_inv (s : TileLayout) : Prop :=
  forall i j row tile,
    tile_map s !! i = Some row -> row !! j = Some tile ->
    tiles s !! tile = Some (Tile_new (Z.of_nat i) (Z.of_nat j) 1 1).

Global Instance bound_anchor_dec s from_row from_column :
  Decision (bound_anchor s from_row from_column).
Proof.
  unfold bound_anchor. destruct (cell s from_row from_column) as [tile|]; [|apply _].
  destruct (tiles s !! tile); apply _.
Defined.

Global Instance valid_op_dec s op : Decision (valid_op s op).
Proof.
  destruct op as [widget from_row from_column row_span column_span| |
                  direction from_row from_column tile_number|
                  from_row from_column tiles_to_split]; simpl; apply _.
Defined.

(** The tile object that owns a cell. *)
Definition owner (s : TileLayout) (r c : Z) : option Tile :=
  tile ← cell s r c; tiles s !! tile.

(** ** The getters and [flattenList] *)

(** [rowCount] *)
Definition rowCount (s : TileLayout) : Z := row_number s.

(** [columnCount] *)
Definition columnCount (s : TileLayout) : Z := column_number s.

(** [widgetList] *)
Definition widgetList (s : TileLayout) : list Widget := couple_widget s.

(** [flattenList] *)
Definition flattenList {A : Type} (to_flatten : list (list A)) : list A :=
  a_list ← to_flatten; item ← a_list; [item].

(** ** Rectangles, shapes and the registry *)

(** The cells of the rectangle with a given origin and spans. *)
Definition in_rect (from_row from_column row_span column_span r c : Z) : Prop :=
  from_row <= r < from_row + row_span /\ from_column <= c < from_column + column_span.

Global Instance in_rect_dec from_row from_column row_span column_span r c :
  Decision (in_rect from_row from_column row_span column_span r c).
Proof. unfold in_rect. apply _. Defined.

(** The shape of the grid: the lengths of its rows. *)
Definition shape (s : TileLayout) : list nat := length <$> tile_map s.

(** The pairs [self.tile_map[row][column]] can address in a grid of
    [row_number] rows of [column_number] cells: a negative index
    counts from the end. *)
Definition addressable (s : TileLayout) (row column : Z) : Prop :=
  - row_number s <= row < row_number s /\ - column_number s <= column < column_number s.

Global Instance addressable_dec s row column : Decision (addressable s row column).
Proof. unfold addressable. apply _. Defined.

(** The two lists of the registry are aligned: the tile at an index
    is filled and holds the item at the same index. *)
Definition registry_linked (s : TileLayout) : Prop :=
  forall index widget tile,
    couple_widget s !! index = Some widget -> couple_tile s !! index = Some tile ->
    exists t, tiles s !! tile = Some t /\ isFilled t = true /\ tile_widget t = Some widget.

(** Every filled tile the grid references is registered. *)
Definition filled_bound (s : TileLayout) : Prop :=
  forall r c tile t,
    cell s r c = Some tile -> tiles s !! tile = Some t -> isFilled t = true ->
    tile ∈ couple_tile s.

(** ** What no method changes *)

(** The dimensions and the shape of the grid are the same, no tile
    object was dropped and no signal was taken back. *)
Definition stable (s s' : TileLayout) : Prop :=
  row_number s' = row_number s /\ column_number s' = column_number s
  /\ shape s' = shape s
  /\ (length (tiles s) <= length (tiles s'))%nat
  /\ tileResized s `prefix_of` tileResized s'.

(** A computation all of whose outcomes, returns and raises alike, are
    [stable]. *)
Definition preserves {A : Type} (m : M A) : Prop :=
  forall s s' r, m s = (s', r) -> stable s s'.

(** A computation that leaves an observation [f] of the layout as it
    was, whether it returns or raises. *)
Definition keeps {A B : Type} (f : TileLayout -> B) (m : M A) : Prop :=
  forall s s' r, m s = (s', r) -> f s' = f s.

(** The registry: both lists of [widget_tile_couple]. *)
Definition registry (s : TileLayout) : list Widget * list TileRef :=
  (couple_widget s, couple_tile s).

(** The index of a list of length [n] that the Python index [i]
    denotes: a negative index counts from the end. *)
Definition py_wrap (n i : Z) : Z := if decide (i < 0) then n + i else i.

(** A computation that emits at most one signal, and only as it
    returns: it leaves the signals as they were, or returns having
    appended one. *)
Definition emits_at_most_once (m : M unit) : Prop :=
  forall s s' r, m s = (s', r) ->
    tileResized s' = tileResized s
    \/ (r = inr tt /\ exists e, tileResized s' = tileResized s ++ [e]).
(** * Properties *)

Section PyLists.
Context {A : Type}.
Implicit Types (l : list A) (i : Z).

Lemma py_index_nonneg l i :
  0 <= i < Z.of_nat (length l) -> py_index l i = Some (Z.to_nat i).
Proof. intros H. unfold py_index. by rewrite decide_True. Qed.

Lemma py_index_None l i :
  py_index l i = None <-> i < - Z.of_nat (length l) \/ Z.of_nat (length l) <= i.
Proof. unfold py_index. repeat case_decide; split; intros; try done; lia. Qed.

Lemma py_getitem_nonneg l i x :
  0 <= i -> l !! Z.to_nat i = Some x -> py_getitem l i = inr x.
Proof.
  intros Hi Hx. unfold py_getitem.
  rewrite py_index_nonneg; [by rewrite Hx|].
  apply lookup_lt_Some in Hx. lia.
Qed.

Lemma py_getitem_inr_nonneg l i x :
  0 <= i -> py_getitem l i = inr x -> l !! Z.to_nat i = Some x.
Proof.
  intros Hi. unfold py_getitem, py_index.
  case_decide; [|case_decide; [lia|done]].
  destruct (l !! Z.to_nat i); [|done]. by intros [= ->].
Qed.
Lemma py_getitem_inl l i e : py_getitem l i = inl e -> e = IndexError.
Proof.
  unfold py_getitem. destruct (py_index l i) as [n|]; [|congruence].
  destruct (l !! n); congruence.
Qed.

End PyLists.

Lemma tile_at_inl s row column e : tile_at s row column = inl e -> e = IndexError.
Proof.
  unfold tile_at. destruct (py_getitem (tile_map s) row) as [e'|x] eqn:Hrow; simpl.
  - intros [= <-]. by eapply py_getitem_inl.
  - apply py_getitem_inl.
Qed.

Lemma wf_rows s : wf s -> Z.of_nat (length (tile_map s)) = row_number s.
Proof. by intros [? _]. Qed.

Lemma wf_cols s row :
  wf s -> row ∈ tile_map s -> Z.of_nat (length row) = column_number s.
Proof.
  intros (_ & H & _) Hin. rewrite Forall_forall in H. by destruct (H row Hin).
Qed.

Lemma wf_refs s row tile :
  wf s -> row ∈ tile_map s -> tile ∈ row -> (tile < length (tiles s))%nat.
Proof.
  intros (_ & H & _) Hin Ht. rewrite Forall_forall in H. destruct (H row Hin) as [_ H'].
  rewrite Forall_forall in H'. by apply H'.
Qed.

Lemma wf_c_int s : wf s -> row_number s <= INT_MAX /\ column_number s <= INT_MAX.
Proof. by intros (_ & _ & ? & ?). Qed.

Ltac solve_c_int := rewrite ?Forall_cons, ?Forall_nil; unfold c_int in *; lia.

Lemma in_grid_c_int s r c : wf s -> in_grid s r c -> c_int r /\ c_int c.
Proof. intros [? ?]%wf_c_int [? ?]. unfold c_int. lia. Qed.

Lemma qt_call_ok args s : Forall c_int args -> qt_call args s = (s, inr tt).
Proof. intros H. unfold qt_call. by rewrite bool_decide_eq_true_2. Qed.

Lemma qt_call_cell s s' r c :
  wf s -> in_grid s r c -> qt_call [r; c; 1; 1] s' = (s', inr tt).
Proof.
  intros Hwf Hg. destruct (in_grid_c_int s r c Hwf Hg). apply qt_call_ok.
  solve_c_int.
Qed.

Lemma qt_call_overflow args s : ~ Forall c_int args -> qt_call args s = (s, inl OverflowError).
Proof. intros H. unfold qt_call. by rewrite bool_decide_eq_false_2. Qed.

Lemma cell_Some_in_grid s r c tile :
  wf s -> cell s r c = Some tile -> in_grid s r c /\ (tile < length (tiles s))%nat.
Proof.
  intros Hwf. unfold cell. case_decide as Hrc; [|done].
  destruct (tile_map s !! Z.to_nat r) as [row|] eqn:Hrow; simpl; [|done].
  intros Hc.
  pose proof (lookup_lt_Some _ _ _ Hrow) as Hlr.
  pose proof (lookup_lt_Some _ _ _ Hc) as Hlc.
  assert (row ∈ tile_map s) as Hin by (eapply list_elem_of_lookup_2; eauto).
  pose proof (wf_rows s Hwf). pose proof (wf_cols s row Hwf Hin).
  split; [unfold in_grid; lia|].
  eapply (wf_refs s row); [done..|]. eapply list_elem_of_lookup_2; eauto.
Qed.

Lemma in_grid_cell s r c :
  wf s -> in_grid s r c -> exists tile, cell s r c = Some tile.
Proof.
  intros Hwf [Hr Hc]. unfold cell. rewrite decide_True by lia.
  pose proof (wf_rows s Hwf).
  destruct (lookup_lt_is_Some_2 (tile_map s) (Z.to_nat r)) as [row Hrow]; [lia|].
  rewrite Hrow. simpl.
  assert (row ∈ tile_map s) as Hin by (eapply list_elem_of_lookup_2; eauto).
  pose proof (wf_cols s row Hwf Hin).
  destruct (lookup_lt_is_Some_2 row (Z.to_nat c)) as [tile Htile]; [lia|].
  eauto.
Qed.

Lemma tile_at_cell s r c tile :
  cell s r c = Some tile -> tile_at s r c = inr tile.
Proof.
  unfold cell, tile_at. case_decide as Hrc; [|done].
  destruct (tile_map s !! Z.to_nat r) as [row|] eqn:Hrow; simpl; [|done].
  intros Hc. rewrite (py_getitem_nonneg _ _ row) by (done || lia). simpl.
  apply py_getitem_nonneg; [lia|done].
Qed.

Lemma tile_at_inr_cell s r c tile :
  0 <= r -> 0 <= c -> tile_at s r c = inr tile -> cell s r c = Some tile.
Proof.
  intros Hr Hc. unfold cell, tile_at. rewrite decide_True by lia.
  destruct (py_getitem (tile_map s) r) as [e|row] eqn:Hrow; simpl; [done|].
  apply py_getitem_inr_nonneg in Hrow; [|done]. rewrite Hrow. simpl.
  intros H. by apply py_getitem_inr_nonneg in H.
Qed.

Lemma elem_of_py_range n i : i ∈ py_range n <-> 0 <= i < n.
Proof. unfold py_range. rewrite elem_of_seqZ. lia. Qed.

Lemma elem_of_rect_cells from_row from_column row_span column_span r c :
  (r, c) ∈ rect_cells from_row from_column row_span column_span
  <-> from_row <= r < from_row + row_span /\ from_column <= c < from_column + column_span.
Proof.
  unfold rect_cells. rewrite list_elem_of_bind. split.
  - intros (row & Hin & Hrow). apply list_elem_of_bind in Hin as (column & Hin & Hcol).
    apply list_elem_of_singleton in Hin as [= -> ->].
    apply elem_of_py_range in Hrow, Hcol. lia.
  - intros [Hr Hc]. exists (r - from_row). split; [|apply elem_of_py_range; lia].
    apply list_elem_of_bind. exists (c - from_column).
    split; [|apply elem_of_py_range; lia].
    apply list_elem_of_singleton. f_equal; lia.
Qed.

Lemma rect_cells_empty from_row from_column row_span column_span :
  row_span <= 0 \/ column_span <= 0 ->
  rect_cells from_row from_column row_span column_span = [].
Proof.
  intros H. destruct (rect_cells _ _ _ _) as [|[r c] l] eqn:E; [done|].
  assert ((r, c) ∈ rect_cells from_row from_column row_span column_span) as Hin
    by (rewrite E; left).
  apply elem_of_rect_cells in Hin. lia.
Qed.

Lemma rect_cells_unit r c : rect_cells r c 1 1 = [(r, c)].
Proof. unfold rect_cells. simpl. by rewrite !Z.add_0_r. Qed.

Lemma filled_at_cell s r c tile t :
  cell s r c = Some tile -> tiles s !! tile = Some t ->
  filled_at s r c = inr (isFilled t).
Proof.
  intros Hc Ht. unfold filled_at. rewrite (tile_at_cell _ _ _ _ Hc). simpl.
  unfold deref. by rewrite Ht.
Qed.

Lemma filled_at_in_grid s r c :
  wf s -> in_grid s r c ->
  exists tile t, cell s r c = Some tile /\ tiles s !! tile = Some t
                 /\ filled_at s r c = inr (isFilled t).
Proof.
  intros Hwf Hg. destruct (in_grid_cell s r c Hwf Hg) as [tile Hc].
  destruct (cell_Some_in_grid s r c tile Hwf Hc) as [_ Hlt].
  destruct (lookup_lt_is_Some_2 (tiles s) tile Hlt) as [t Ht].
  exists tile, t. split_and!; [done..|]. by eapply filled_at_cell.
Qed.

Lemma res_mapM_all {A : Type} (f : A -> Res bool) (l : list A) :
  (forall x, x ∈ l -> exists b, f x = inr b) ->
  exists flags, res_mapM f l = inr flags
    /\ (forallb (fun b : bool => b) flags = true <-> forall x, x ∈ l -> f x = inr true).
Proof.
  induction l as [|x l IH]; intros Hall.
  - exists []. split; [done|]. split; [|done]. intros _ x Hx. by apply elem_of_nil in Hx.
  - destruct (Hall x) as [b Hb]; [left|].
    destruct IH as (flags & Hflags & Hiff); [intros y Hy; apply Hall; by right|].
    exists (b :: flags). simpl. rewrite Hb. simpl. rewrite Hflags. simpl.
    split; [done|]. rewrite andb_true_iff, Hiff. split.
    + intros [-> Hl] y Hy. apply elem_of_cons in Hy as [->|Hy]; auto.
    + intros Hl. split.
      * specialize (Hl x (list_elem_of_here _ _)). congruence.
      * intros y Hy. apply Hl. by right.
Qed.

(** [isAreaEmpty] answers [False] for a rectangle that leaves the grid
    or has a negative origin, and otherwise tells whether every cell of
    the rectangle is owned by an unfilled tile. *)
Lemma isAreaEmpty_cases s from_row from_column row_span column_span :
  wf s ->
  (from_row + row_span > row_number s \/ from_column + column_span > column_number s
   \/ from_row < 0 \/ from_column < 0 ->
   isAreaEmpty s from_row from_column row_span column_span = inr false)
  /\ (~ (from_row + row_span > row_number s \/ from_column + column_span > column_number s
         \/ from_row < 0 \/ from_column < 0) ->
      exists b, isAreaEmpty s from_row from_column row_span column_span = inr b
        /\ (b = true <-> area_unfilled s from_row from_column row_span column_span)).
Proof.
  intros Hwf. unfold isAreaEmpty. split.
  - intros Hout.
    destruct (_ || _) eqn:E; [done|].
    repeat (apply orb_false_iff in E as [E ?]). lia.
  - intros Hin.
    destruct (_ || _) eqn:E.
    { repeat (apply orb_true_iff in E as [E|E]); lia. }
    clear E.
    set (f := fun '(row, column) => let? b := filled_at s row column in inr (negb b)).
    destruct (res_mapM_all f (rect_cells from_row from_column row_span column_span))
      as (flags & -> & Hiff).
    { intros [r c] Hrc. apply elem_of_rect_cells in Hrc.
      destruct (filled_at_in_grid s r c Hwf) as (tile & t & _ & _ & Hf);
        [unfold in_grid; lia|].
      simpl. rewrite Hf. simpl. eauto. }
    simpl. eexists. split; [done|]. rewrite Hiff. split.
    + intros Hall r c Hr Hc.
      destruct (filled_at_in_grid s r c Hwf) as (tile & t & Hcell & Ht & Hf);
        [unfold in_grid; lia|].
      exists tile, t. split_and!; [done..|].
      specialize (Hall (r, c)). simpl in Hall. rewrite Hf in Hall. simpl in Hall.
      destruct (isFilled t); [|done].
      by discriminate Hall; [apply elem_of_rect_cells].
    + intros Hall [r c] Hrc. apply elem_of_rect_cells in Hrc as [Hr Hc].
      destruct (Hall r c Hr Hc) as (tile & t & Hcell & Ht & Hf).
      simpl. rewrite (filled_at_cell _ _ _ _ _ Hcell Ht), Hf. done.
Qed.

(** A rectangle with a zero span that starts at a non-negative origin
    and does not leave the grid is reported empty, whatever the grid
    holds: no cell is inspected. *)
Lemma isAreaEmpty_zero_span s from_row from_column row_span column_span :
  row_span = 0 \/ column_span = 0 ->
  0 <= from_row -> 0 <= from_column ->
  from_row + row_span <= row_number s ->
  from_column + column_span <= column_number s ->
  isAreaEmpty s from_row from_column row_span column_span = inr true.
Proof.
  intros Hz Hr Hc Hrs Hcs. unfold isAreaEmpty.
  destruct (_ || _) eqn:E.
  { repeat (apply orb_true_iff in E as [E|E]); lia. }
  rewrite rect_cells_empty by lia. done.
Qed.

(** ** Writing the grid *)

Lemma frame_refl s : frame s s.
Proof. by unfold frame. Qed.

Lemma frame_trans s1 s2 s3 : frame s1 s2 -> frame s2 s3 -> frame s1 s3.
Proof. unfold frame. intros (?&?&?&?&?) (?&?&?&?&?). split_and!; congruence. Qed.

Lemma in_grid_frame s s' r c : frame s s' -> in_grid s r c <-> in_grid s' r c.
Proof. intros (Hr & Hc & _). unfold in_grid. by rewrite Hr, Hc. Qed.

Lemma wf_mono_tiles s h :
  wf s -> (length (tiles s) <= length h)%nat -> wf (set_tiles h s).
Proof.
  intros (Hr & Hc & Hfit) Hle. split; [done|]. split; [|done]. simpl.
  eapply Forall_impl; [exact Hc|]. intros row [? Hrow]. split; [done|].
  eapply Forall_impl; [exact Hrow|]. simpl. lia.
Qed.

Lemma set_cell_in_grid s r c tile :
  wf s -> in_grid s r c ->
  exists s', set_cell r c tile s = (s', inr tt)
    /\ tiles s' = tiles s /\ frame s s'
    /\ (forall r' c', cell s' r' c' = if decide (r' = r /\ c' = c) then Some tile else cell s r' c')
    /\ ((tile < length (tiles s))%nat -> wf s').
Proof.
  intros Hwf [Hr Hc]. pose proof (wf_rows s Hwf) as Hrows.
  destruct (lookup_lt_is_Some_2 (tile_map s) (Z.to_nat r)) as [row Hrow]; [lia|].
  assert (row ∈ tile_map s) as Hin by (eapply list_elem_of_lookup_2; eauto).
  pose proof (wf_cols s row Hwf Hin) as Hcols.
  unfold set_cell. rewrite py_index_nonneg by lia. rewrite Hrow.
  unfold py_setitem. rewrite py_index_nonneg by lia.
  eexists. split; [done|]. split; [done|]. split; [by unfold frame|]. split.
  - intros r' c'. unfold cell. simpl.
    destruct (decide (r' = r /\ c' = c)) as [[-> ->]|Hrc'].
    + rewrite decide_True by lia.
      rewrite list_lookup_insert_eq by lia. simpl.
      apply list_lookup_insert_eq. lia.
    + destruct (decide (0 <= r' /\ 0 <= c')) as [Hnn|Hnn]; [|done].
      destruct (decide (r' = r)) as [->|Hne].
      * rewrite list_lookup_insert_eq by lia. rewrite Hrow. simpl.
        apply list_lookup_insert_ne. lia.
      * rewrite list_lookup_insert_ne by lia. done.
  - intros Hlt. destruct Hwf as (_ & Hall & Hfit). split; [|split; [|done]]; simpl.
    + by rewrite length_insert.
    + apply Forall_insert; [done|]. rewrite length_insert. split; [done|].
      apply Forall_insert; [|done].
      rewrite Forall_forall in Hall. by destruct (Hall row Hin).
Qed.

(** The loop of [__mergeTiles]. *)
Lemma merge_loop_spec tile cells s :
  wf s -> (tile < length (tiles s))%nat ->
  (forall r c, (r, c) ∈ cells -> in_grid s r c) ->
  exists s',
    for_each cells (fun '(row, column) =>
      let* _ := read (fun s => tile_at s row column) in set_cell row column tile) s
    = (s', inr tt)
    /\ wf s' /\ tiles s' = tiles s /\ frame s s'
    /\ (forall r c, cell s' r c = if decide ((r, c) ∈ cells) then Some tile else cell s r c).
Proof.
  revert s. induction cells as [|[r c] cells IH]; intros s Hwf Hlt Hin.
  - exists s. split_and!; [done..|apply frame_refl|].
    intros r c. rewrite decide_False; [done|]. apply not_elem_of_nil.
  - assert (in_grid s r c) as Hg by (apply Hin; left).
    destruct (in_grid_cell s r c Hwf Hg) as [old Hold].
    destruct (set_cell_in_grid s r c tile Hwf Hg) as (s1 & Hset & Ht1 & Hf1 & Hc1 & Hwf1).
    specialize (Hwf1 Hlt).
    destruct (IH s1) as (s' & Hrun & Hwf' & Ht' & Hf' & Hc'); [done|congruence|..].
    { intros r' c' H'. apply (in_grid_frame s s1); [done|]. apply Hin. by right. }
    exists s'. simpl. unfold bind at 1. unfold bind at 1. unfold read.
    rewrite (tile_at_cell _ _ _ _ Hold). rewrite Hset.
    split; [done|]. split; [done|]. split; [congruence|].
    split; [by eapply frame_trans|].
    intros r' c'. rewrite Hc', Hc1.
    destruct (decide ((r', c') ∈ cells)) as [Hi|Hni].
    + rewrite decide_True; [done|by right].
    + case_decide as Heq.
      * destruct Heq as [-> ->]. rewrite decide_True; [done|left].
      * rewrite decide_False; [done|].
        intros [[= -> ->]|?]%elem_of_cons; [lia|done].
Qed.

Lemma update_tile_spec tile f s t :
  tiles s !! tile = Some t ->
  update_tile tile f s = (set_tiles (<[tile := f t]> (tiles s)) s, inr tt).
Proof. intros H. unfold update_tile. by rewrite H. Qed.

Lemma cell_set_tiles h s r c : cell (set_tiles h s) r c = cell s r c.
Proof. done. Qed.

Lemma wf_update_tile s tile t : wf s -> wf (set_tiles (<[tile := t]> (tiles s)) s).
Proof. intros Hwf. apply wf_mono_tiles; [done|]. by rewrite length_insert. Qed.

Lemma bind_inr {A B : Type} (m : M A) (k : A -> M B) s s' a :
  m s = (s', inr a) -> bind m k s = k a s'.
Proof. intros H. unfold bind. by rewrite H. Qed.

Lemma bind_inl {A B : Type} (m : M A) (k : A -> M B) s s' e :
  m s = (s', inl e) -> bind m k s = (s', inl e).
Proof. intros H. unfold bind. by rewrite H. Qed.

Lemma mergeTiles_spec tile t from_row from_column row_span column_span cells s :
  wf s -> tiles s !! tile = Some t ->
  (forall r c, (r, c) ∈ cells -> in_grid s r c) ->
  Forall c_int [from_row; from_column; row_span; column_span] ->
  exists s',
    __mergeTiles tile from_row from_column row_span column_span cells s = (s', inr tt)
    /\ wf s'
    /\ tiles s' = <[tile := Tile_updateSize from_row from_column row_span column_span t]> (tiles s)
    /\ frame s s'
    /\ (forall r c, cell s' r c = if decide ((r, c) ∈ cells) then Some tile else cell s r c).
Proof.
  intros Hwf Ht Hin Hfit.
  destruct (merge_loop_spec tile cells s Hwf) as (s1 & Hrun & Hwf1 & Ht1 & Hf1 & Hc1);
    [by eapply lookup_lt_Some|done|].
  unfold __mergeTiles. rewrite (bind_inr _ _ _ _ _ Hrun).
  rewrite (bind_inr _ _ _ _ _ (qt_call_ok _ s1 Hfit)).
  rewrite (update_tile_spec _ _ _ t) by congruence.
  eexists. split; [done|]. split; [by apply wf_update_tile|].
  split; [simpl; congruence|]. split; [exact Hf1|]. exact Hc1.
Qed.

Lemma elem_of_tail {A : Type} (x : A) (l : list A) : x ∈ tail l -> x ∈ l.
Proof. destruct l; simpl; [done|]. by right. Qed.

Lemma rect_cells_cons from_row from_column row_span column_span :
  0 < row_span -> 0 < column_span ->
  exists rest, rect_cells from_row from_column row_span column_span
               = (from_row, from_column) :: rest.
Proof.
  intros Hr Hc. unfold rect_cells, py_range.
  rewrite (seqZ_cons 0 row_span) by lia. rewrite bind_cons.
  rewrite (seqZ_cons 0 column_span) by lia. rewrite bind_cons.
  simpl. rewrite !Z.add_0_r. eauto.
Qed.

Lemma isAreaEmpty_true_bounds s from_row from_column row_span column_span :
  isAreaEmpty s from_row from_column row_span column_span = inr true ->
  0 <= from_row /\ 0 <= from_column
  /\ from_row + row_span <= row_number s /\ from_column + column_span <= column_number s.
Proof.
  unfold isAreaEmpty. destruct (_ || _) eqn:E; [done|]. intros _.
  repeat (apply orb_false_iff in E as [E ?]). lia.
Qed.

Lemma isAreaEmpty_total s from_row from_column row_span column_span :
  wf s -> exists b, isAreaEmpty s from_row from_column row_span column_span = inr b.
Proof.
  intros Hwf.
  destruct (isAreaEmpty_cases s from_row from_column row_span column_span Hwf) as [Hout Hin].
  destruct (decide (from_row + row_span > row_number s
                    \/ from_column + column_span > column_number s
                    \/ from_row < 0 \/ from_column < 0)) as [H|H].
  - eauto.
  - destruct (Hin H) as (b & ? & _). eauto.
Qed.

(** A successful [addWidget], step by step. *)
Lemma addWidget_ok s widget from_row from_column row_span column_span tile :
  wf s ->
  widget ∉ couple_widget s ->
  isAreaEmpty s from_row from_column row_span column_span = inr true ->
  tile_at s from_row from_column = inr tile ->
  (row_span > 1 \/ column_span > 1 -> INT_MIN <= row_span /\ INT_MIN <= column_span) ->
  exists s' t,
    addWidget widget from_row from_column row_span column_span s = (s', inr tt)
    /\ wf s'
    /\ cell s from_row from_column = Some tile
    /\ tiles s !! tile = Some t
    /\ tiles s' = <[tile := Tile_addWidget widget
                     (if (row_span >? 1) || (column_span >? 1)
                      then Tile_updateSize from_row from_column row_span column_span t
                      else t)]> (tiles s)
    /\ row_number s' = row_number s /\ column_number s' = column_number s
    /\ couple_widget s' = couple_widget s ++ [widget]
    /\ couple_tile s' = couple_tile s ++ [tile]
    /\ tileResized s' = tileResized s
    /\ (forall r c,
          cell s' r c =
          if decide (((row_span > 1) \/ (column_span > 1))
                     /\ (r, c) ∈ tail (rect_cells from_row from_column row_span column_span))
          then Some tile else cell s r c).
Proof.
  intros Hwf Hw Hempty Htile Hmin.
  destruct (isAreaEmpty_true_bounds _ _ _ _ _ Hempty) as (Hr0 & Hc0 & Hr1 & Hc1).
  pose proof (tile_at_inr_cell _ _ _ _ Hr0 Hc0 Htile) as Hcell.
  destruct (cell_Some_in_grid _ _ _ _ Hwf Hcell) as [Hg Hlt].
  destruct (lookup_lt_is_Some_2 _ _ Hlt) as [t Ht].
  destruct (wf_c_int s Hwf) as [HRfit HCfit].
  set (s1 := set_couple (couple_widget s ++ [widget]) (couple_tile s ++ [tile]) s).
  assert (wf s1) as Hwf1 by done.
  unfold addWidget.
  rewrite (bind_inr _ _ s s tt) by (by unfold py_in; rewrite bool_decide_eq_false_2).
  rewrite (bind_inr _ _ s s true) by (by unfold read; rewrite Hempty).
  rewrite (bind_inr _ _ s s tt) by done.
  rewrite (bind_inr _ _ s s tile) by (by unfold read; rewrite Htile).
  rewrite (bind_inr _ _ s s1 tt) by done.
  destruct ((row_span >? 1) || (column_span >? 1)) eqn:Hspan.
  - apply orb_true_iff in Hspan.
    destruct (mergeTiles_spec tile t from_row from_column row_span column_span
                (tail (rect_cells from_row from_column row_span column_span)) s1 Hwf1 Ht)
      as (s2 & Hrun & Hwf2 & Ht2 & Hf2 & Hc2).
    { intros r c Hin. apply elem_of_tail in Hin. apply elem_of_rect_cells in Hin.
      unfold in_grid. simpl. lia. }
    { destruct Hg, Hmin as [? ?]; [lia|]. solve_c_int. }
    rewrite (bind_inr _ _ _ _ _ Hrun).
    erewrite update_tile_spec; [|rewrite Ht2; apply list_lookup_insert_eq; done].
    destruct Hf2 as (?&?&?&?&?).
    eexists _, t. split; [done|]. split; [by apply wf_update_tile|].
    split_and!; try done.
    + simpl. rewrite Ht2. by rewrite list_insert_insert_eq.
    + intros r c. rewrite cell_set_tiles, Hc2.
      destruct (decide ((r, c) ∈ _)) as [Hi|Hi].
      * rewrite decide_True; [done|]. split; [|done]. destruct Hspan; [left|right]; lia.
      * rewrite decide_False; [done|]. by intros [_ ?].
  - apply orb_false_iff in Hspan as [? ?].
    rewrite (bind_inr _ _ s1 s1 tt) by done.
    rewrite (update_tile_spec _ _ _ t) by done.
    eexists _, t. split; [done|]. split; [by apply wf_update_tile|].
    split_and!; try done.
    intros r c. rewrite decide_False; [done|]. intros [[?|?] _]; lia.
Qed.

Lemma addWidget_duplicate s widget from_row from_column row_span column_span :
  widget ∈ couple_widget s ->
  addWidget widget from_row from_column row_span column_span s = (s, inl AssertionError).
Proof.
  intros Hw. unfold addWidget.
  apply bind_inl. unfold py_in. by rewrite bool_decide_eq_true_2.
Qed.

Lemma addWidget_occupied s widget from_row from_column row_span column_span :
  isAreaEmpty s from_row from_column row_span column_span = inr false ->
  addWidget widget from_row from_column row_span column_span s = (s, inl AssertionError).
Proof.
  intros He. destruct (decide (widget ∈ couple_widget s)) as [Hw|Hw].
  { by apply addWidget_duplicate. }
  unfold addWidget.
  rewrite (bind_inr _ _ s s tt) by (by unfold py_in; rewrite bool_decide_eq_false_2).
  rewrite (bind_inr _ _ s s false) by (by unfold read; rewrite He).
  by apply bind_inl.
Qed.

Lemma addWidget_no_anchor s widget from_row from_column row_span column_span e :
  widget ∉ couple_widget s ->
  isAreaEmpty s from_row from_column row_span column_span = inr true ->
  tile_at s from_row from_column = inl e ->
  addWidget widget from_row from_column row_span column_span s = (s, inl e).
Proof.
  intros Hw He Ht. unfold addWidget.
  rewrite (bind_inr _ _ s s tt) by (by unfold py_in; rewrite bool_decide_eq_false_2).
  rewrite (bind_inr _ _ s s true) by (by unfold read; rewrite He).
  rewrite (bind_inr _ _ s s tt) by done.
  apply bind_inl. unfold read. by rewrite Ht.
Qed.

(** A placement that passes both assertions and is given a span below
    the range of a C [int]: the rectangle has no cell, the merge finds
    nothing to merge, and the call into Qt raises after the registry
    has been extended. *)
Lemma addWidget_overflow s widget from_row from_column row_span column_span tile :
  widget ∉ couple_widget s ->
  isAreaEmpty s from_row from_column row_span column_span = inr true ->
  tile_at s from_row from_column = inr tile ->
  row_span > 1 \/ column_span > 1 ->
  row_span < INT_MIN \/ column_span < INT_MIN ->
  addWidget widget from_row from_column row_span column_span s
  = (set_couple (couple_widget s ++ [widget]) (couple_tile s ++ [tile]) s, inl OverflowError).
Proof.
  intros Hw He Ht Hspan Hmin. unfold addWidget.
  rewrite (bind_inr _ _ s s tt) by (by unfold py_in; rewrite bool_decide_eq_false_2).
  rewrite (bind_inr _ _ s s true) by (by unfold read; rewrite He).
  rewrite (bind_inr _ _ s s tt) by done.
  rewrite (bind_inr _ _ s s tile) by (by unfold read; rewrite Ht).
  set (s1 := set_couple (couple_widget s ++ [widget]) (couple_tile s ++ [tile]) s).
  rewrite (bind_inr _ _ s s1 tt) by done.
  apply bind_inl.
  replace ((row_span >? 1) || (column_span >? 1)) with true
    by (symmetry; apply orb_true_iff; destruct Hspan; [left|right]; lia).
  rewrite rect_cells_empty by lia. simpl.
  unfold __mergeTiles. simpl. rewrite (bind_inr _ _ s1 s1 tt) by done.
  apply bind_inl. apply qt_call_overflow.
  rewrite !Forall_cons. unfold c_int. lia.
Qed.

(** C4. [addWidget] fails on an item that is already bound and on a
    rectangle that [isAreaEmpty] rejects, with the layout it started
    from.  These are its only assertion failures, so a call that raises
    [AssertionError] leaves the layout as it was.  The other failures
    are the [IndexError] of reading the tile at an origin on the far
    edge of the grid, which also leaves the layout as it was, and the
    [OverflowError] of the call into Qt on a span below the range of a
    C [int], raised after the item has been appended to the registry.
    When [addWidget] succeeds with a span above one, the tile found at
    [(from_row, from_column)] owns every cell of the rectangle, has the
    rectangle as its geometry, is filled, holds the item, and is bound
    to it at the end of the registry.  Success is reached for every
    unbound item and empty rectangle with spans of at least one. *)
Theorem addWidget_spec s widget from_row from_column row_span column_span :
  wf s ->
  (widget ∈ couple_widget s ->
   addWidget widget from_row from_column row_span column_span s = (s, inl AssertionError))
  /\ (isAreaEmpty s from_row from_column row_span column_span = inr false ->
      addWidget widget from_row from_column row_span column_span s = (s, inl AssertionError))
  /\ (forall s' e,
        addWidget widget from_row from_column row_span column_span s = (s', inl e) ->
        (e = AssertionError /\ s' = s
         /\ (widget ∈ couple_widget s
             \/ isAreaEmpty s from_row from_column row_span column_span = inr false))
        \/ (e = IndexError /\ s' = s /\ cell s from_row from_column = None)
        \/ (e = OverflowError
            /\ (row_span < INT_MIN \/ column_span < INT_MIN)
            /\ exists tile,
                 cell s from_row from_column = Some tile
                 /\ s' = set_couple (couple_widget s ++ [widget]) (couple_tile s ++ [tile]) s))
  /\ (forall s',
        addWidget widget from_row from_column row_span column_span s = (s', inr tt) ->
        row_span > 1 \/ column_span > 1 ->
        exists tile,
          cell s from_row from_column = Some tile
          /\ tiles s' !! tile
             = Some (mkTile from_row from_column row_span column_span true (Some widget))
          /\ (forall r c,
                from_row <= r < from_row + row_span ->
                from_column <= c < from_column + column_span ->
                cell s' r c = Some tile)
          /\ couple_widget s' = couple_widget s ++ [widget]
          /\ couple_tile s' = couple_tile s ++ [tile])
  /\ (widget ∉ couple_widget s ->
      isAreaEmpty s from_row from_column row_span column_span = inr true ->
      1 <= row_span -> 1 <= column_span ->
      exists s', addWidget widget from_row from_column row_span column_span s = (s', inr tt)).
Proof.
  intros Hwf.
  split; [apply addWidget_duplicate|]. split; [apply addWidget_occupied|].
  split; [|split].
  - intros s' e Hrun.
    destruct (decide (widget ∈ couple_widget s)) as [Hw|Hw].
    { rewrite addWidget_duplicate in Hrun by done. left. naive_solver. }
    destruct (isAreaEmpty_total s from_row from_column row_span column_span Hwf) as [[|] He].
    2:{ rewrite addWidget_occupied in Hrun by done. left. naive_solver. }
    right.
    destruct (isAreaEmpty_true_bounds _ _ _ _ _ He) as (Hr0 & Hc0 & _).
    destruct (tile_at s from_row from_column) as [e'|tile] eqn:Ht.
    { rewrite (addWidget_no_anchor _ _ _ _ _ _ e') in Hrun by done.
      injection Hrun as <- <-. left. split; [by eapply tile_at_inl|]. split; [done|].
      destruct (cell s from_row from_column) as [tile|] eqn:Hcell; [|done].
      apply tile_at_cell in Hcell. congruence. }
    right.
    destruct (decide (row_span > 1 \/ column_span > 1 ->
                      INT_MIN <= row_span /\ INT_MIN <= column_span)) as [Hfit|Hover].
    { destruct (addWidget_ok s widget _ _ _ _ tile Hwf Hw He Ht Hfit) as (s2 & t & Hrun2 & _).
      congruence. }
    assert ((row_span > 1 \/ column_span > 1)
            /\ (row_span < INT_MIN \/ column_span < INT_MIN)) as [Hspan Hmin] by lia.
    rewrite (addWidget_overflow s widget _ _ _ _ tile Hw He Ht Hspan Hmin) in Hrun.
    injection Hrun as <- <-. split; [done|]. split; [done|].
    exists tile. split; [|done]. by apply tile_at_inr_cell.
  - intros s' Hrun Hspan.
    destruct (decide (widget ∈ couple_widget s)) as [Hw|Hw].
    { by rewrite addWidget_duplicate in Hrun. }
    destruct (isAreaEmpty_total s from_row from_column row_span column_span Hwf) as [[|] He].
    2:{ by rewrite addWidget_occupied in Hrun. }
    destruct (tile_at s from_row from_column) as [e'|tile] eqn:Ht.
    { by rewrite (addWidget_no_anchor _ _ _ _ _ _ e') in Hrun. }
    destruct (decide (row_span < INT_MIN \/ column_span < INT_MIN)) as [Hmin|Hfit].
    { by rewrite (addWidget_overflow s widget _ _ _ _ tile Hw He Ht Hspan Hmin) in Hrun. }
    destruct (addWidget_ok s widget _ _ _ _ tile Hwf Hw He Ht)
      as (s2 & t & Hrun2 & _ & Hcell & Htl & Htl' & _ & _ & Hcw & Hct & _ & Hcells); [lia|].
    assert (s2 = s') as -> by congruence.
    exists tile. split; [done|]. split; [|split; [|done]].
    + rewrite Htl'. rewrite list_lookup_insert_eq by (by eapply lookup_lt_Some).
      replace ((row_span >? 1) || (column_span >? 1)) with true; [done|].
      symmetry. apply orb_true_iff. destruct Hspan; [left|right]; lia.
    + intros r c Hr Hc. rewrite Hcells.
      destruct (decide _) as [_|Hn]; [done|].
      assert ((r, c) ∈ rect_cells from_row from_column row_span column_span) as Hin
        by (apply elem_of_rect_cells; lia).
      destruct (rect_cells_cons from_row from_column row_span column_span) as [rest Hrest];
        [lia..|].
      rewrite Hrest in Hin, Hn. simpl in Hn.
      apply elem_of_cons in Hin as [[= -> ->]|Hin]; [done|].
      destruct Hn. by split.
  - intros Hw He Hr Hc.
    destruct (isAreaEmpty_true_bounds _ _ _ _ _ He) as (Hr0 & Hc0 & Hr1 & Hc1).
    destruct (in_grid_cell s from_row from_column Hwf) as [tile Hcell];
      [unfold in_grid; lia|].
    destruct (addWidget_ok s widget _ _ _ _ tile Hwf Hw He (tile_at_cell _ _ _ _ Hcell))
      as (s' & _ & Hrun & _); [lia|].
    eauto.
Qed.

Lemma addWidget_spec_witness :
  let s := run (addWidget 7%nat 0 0 1 1) (fresh 2 3) in
  addWidget 7%nat 1 1 1 2 s = (s, inl AssertionError)
  /\ addWidget 8%nat 0 0 2 1 s = (s, inl AssertionError)
  /\ exists s', addWidget 8%nat 1 1 1 2 s = (s', inr tt).
Proof.
  intros s.
  assert (wf s) as Hwf by (apply (bool_decide_unpack _); vm_compute; reflexivity).
  destruct (addWidget_spec s 7%nat 1 1 1 2 Hwf) as (Hdup & _).
  destruct (addWidget_spec s 8%nat 0 0 2 1 Hwf) as (_ & Hocc & _).
  destruct (addWidget_spec s 8%nat 1 1 1 2 Hwf) as (_ & _ & _ & _ & Hok).
  split; [apply Hdup; vm_compute; left|].
  split; [apply Hocc; vm_compute; reflexivity|].
  apply Hok; [vm_compute; by intros ?%list_elem_of_singleton | by vm_compute ..].
Defined.

(** ** Splitting cells into unit tiles *)

Lemma createTile_unit_spec s r c :
  wf s -> in_grid s r c ->
  exists s',
    __createTile r c 1 1 true s = (s', inr (length (tiles s)))
    /\ wf s' /\ tiles s' = tiles s ++ [Tile_new r c 1 1] /\ frame s s'
    /\ (forall r' c', cell s' r' c'
                      = if decide (r' = r /\ c' = c) then Some (length (tiles s))
                        else cell s r' c').
Proof.
  intros Hwf Hg.
  set (s1 := set_tiles (tiles s ++ [Tile_new r c 1 1]) s).
  assert (wf s1) as Hwf1 by (apply wf_mono_tiles; [done|rewrite length_app; lia]).
  destruct (set_cell_in_grid s1 r c (length (tiles s)) Hwf1 Hg)
    as (s' & Hset & Ht & Hf & Hc & Hwf').
  exists s'. unfold __createTile. fold s1. rewrite rect_cells_unit. simpl.
  rewrite (bind_inr _ _ s1 s1 tt) by by apply (qt_call_cell s).
  rewrite (bind_inr _ _ s1 s' tt).
  2:{ rewrite (bind_inr _ _ _ _ _ Hset). done. }
  split; [done|]. split.
  { apply Hwf'. simpl. rewrite length_app. simpl. lia. }
  split; [by rewrite Ht|]. split; [exact Hf|]. exact Hc.
Qed.

Lemma splitTiles_step :
  unit_split_step (fun '(row, column) => let* _ := __createTile row column 1 1 true in ret tt).
Proof.
  intros s r c Hwf Hg.
  destruct (createTile_unit_spec s r c Hwf Hg) as (s' & Hrun & H).
  exists s'. split; [|exact H]. by rewrite (bind_inr _ _ _ _ _ Hrun).
Qed.

Lemma hardSplitTiles_step :
  unit_split_step (fun '(row, column) =>
    let* _ := read (fun s => tile_at s row column) in
    let* _ := __createTile row column 1 1 true in ret tt).
Proof.
  intros s r c Hwf Hg.
  destruct (in_grid_cell s r c Hwf Hg) as [old Hold].
  destruct (createTile_unit_spec s r c Hwf Hg) as (s' & Hrun & H).
  exists s'. split; [|exact H].
  rewrite (bind_inr _ _ s s old) by (by unfold read; rewrite (tile_at_cell _ _ _ _ Hold)).
  by rewrite (bind_inr _ _ _ _ _ Hrun).
Qed.

Lemma split_loop_spec body cells s :
  unit_split_step body ->
  wf s -> (forall r c, (r, c) ∈ cells -> in_grid s r c) ->
  exists s',
    for_each cells body s = (s', inr tt)
    /\ wf s' /\ frame s s'
    /\ tiles s' = tiles s ++ ((fun '(r, c) => Tile_new r c 1 1) <$> cells)
    /\ (forall r c, (r, c) ∉ cells -> cell s' r c = cell s r c)
    /\ (forall r c, (r, c) ∈ cells ->
          exists tile, cell s' r c = Some tile /\ (length (tiles s) <= tile)%nat
                       /\ tiles s' !! tile = Some (Tile_new r c 1 1)).
Proof.
  intros Hbody. revert s. induction cells as [|[r0 c0] cells IH]; intros s Hwf Hin.
  - exists s. split; [done|]. split; [done|]. split; [apply frame_refl|].
    split; [simpl; by rewrite app_nil_r|]. split; [done|].
    intros r c H. by apply elem_of_nil in H.
  - destruct (Hbody s r0 c0 Hwf) as (s1 & Hrun1 & Hwf1 & Ht1 & Hf1 & Hc1); [apply Hin; left|].
    destruct (IH s1 Hwf1) as (s' & Hrun & Hwf' & Hf' & Ht' & Hout & Hnew).
    { intros r c H. apply (in_grid_frame s s1); [done|]. apply Hin. by right. }
    exists s'. simpl. rewrite (bind_inr _ _ _ _ _ Hrun1).
    split; [done|]. split; [done|]. split; [by eapply frame_trans|].
    assert (tiles s' = tiles s ++ Tile_new r0 c0 1 1 :: ((fun '(r, c) => Tile_new r c 1 1) <$> cells))
      as Htiles by (rewrite Ht', Ht1, <- app_assoc; done).
    split; [done|]. split.
    + intros r c Hni. apply not_elem_of_cons in Hni as [Hne Hni].
      rewrite (Hout r c Hni), Hc1. rewrite decide_False; [done|].
      intros [-> ->]. by apply Hne.
    + intros r c Hi. destruct (decide ((r, c) ∈ cells)) as [Hi'|Hni].
      * destruct (Hnew r c Hi') as (tile & ? & Hle & ?). exists tile.
        split_and!; [done| |done]. rewrite Ht1, length_app in Hle. lia.
      * apply elem_of_cons in Hi as [[= -> ->]|?]; [|done].
        exists (length (tiles s)). rewrite (Hout _ _ Hni), Hc1.
        rewrite decide_True by done. split_and!; [done..|].
        rewrite Htiles. by rewrite list_lookup_middle.
Qed.

Lemma hardSplitTiles_spec from_row from_column cells s :
  wf s -> (from_row, from_column) ∈ cells ->
  (forall r c, (r, c) ∈ cells -> in_grid s r c) ->
  exists s' tile,
    hardSplitTiles from_row from_column cells s = (s', inr tile)
    /\ wf s' /\ frame s s'
    /\ cell s' from_row from_column = Some tile
    /\ tiles s' = tiles s ++ ((fun '(r, c) => Tile_new r c 1 1) <$> cells)
    /\ (forall r c, (r, c) ∉ cells -> cell s' r c = cell s r c)
    /\ (forall r c, (r, c) ∈ cells ->
          exists tile, cell s' r c = Some tile /\ (length (tiles s) <= tile)%nat
                       /\ tiles s' !! tile = Some (Tile_new r c 1 1)).
Proof.
  intros Hwf Hanchor Hin.
  destruct (split_loop_spec _ cells s hardSplitTiles_step Hwf Hin)
    as (s' & Hrun & Hwf' & Hf' & Ht' & Hout & Hnew).
  destruct (Hnew _ _ Hanchor) as (tile & Hcell & _).
  exists s', tile. unfold hardSplitTiles.
  rewrite (bind_inr _ _ s s tt) by (by unfold py_in; rewrite bool_decide_eq_true_2).
  rewrite (bind_inr _ _ _ _ _ Hrun).
  rewrite (bind_inr _ _ s' s' tile) by (unfold read; by rewrite (tile_at_cell _ _ _ _ Hcell)).
  rewrite (bind_inr _ _ s' s' tt); [done|].
  destruct (in_grid_c_int s from_row from_column Hwf (Hin _ _ Hanchor)).
  apply qt_call_ok. solve_c_int.
Qed.

Lemma hardSplitTiles_assert from_row from_column cells s :
  (from_row, from_column) ∉ cells ->
  hardSplitTiles from_row from_column cells s = (s, inl AssertionError).
Proof.
  intros H. unfold hardSplitTiles. apply bind_inl.
  unfold py_in. by rewrite bool_decide_eq_false_2.
Qed.

Lemma for_each_reads {A : Type} (l : list A) (body : A -> M unit) s :
  (forall x, x ∈ l -> body x s = (s, inr tt)) -> for_each l body s = (s, inr tt).
Proof.
  induction l as [|x l IH]; intros H; [done|]. simpl.
  rewrite (bind_inr _ _ s s tt) by (apply H; left).
  apply IH. intros y Hy. apply H. by right.
Qed.

Lemma changeTilesColor_wf s : wf s -> changeTilesColor s = (s, inr tt).
Proof.
  intros Hwf. unfold changeTilesColor.
  apply for_each_reads. intros row Hrow. apply for_each_reads. intros column Hcol.
  apply elem_of_py_range in Hrow, Hcol.
  destruct (filled_at_in_grid s row column Hwf) as (tile & t & _ & _ & Hf); [done|].
  rewrite (bind_inr _ _ s s (isFilled t)) by (by unfold read; rewrite Hf). done.
Qed.

(** ** The registry *)

Lemma py_list_index_lookup {A : Type} `{EqDecision A} (x : A) (l : list A) i :
  py_list_index x l = inr i -> l !! i = Some x.
Proof.
  revert i. induction l as [|y l IH]; intros i; simpl; [done|].
  case_decide as Hxy; [by intros [= <-]; subst|].
  destruct (py_list_index x l) as [e|j]; simpl; [done|].
  intros [= <-]. by apply IH.
Qed.

Lemma py_list_index_elem_of {A : Type} `{EqDecision A} (x : A) (l : list A) :
  x ∈ l -> exists i, py_list_index x l = inr i.
Proof.
  induction l as [|y l IH]; intros Hin; [by apply elem_of_nil in Hin|]. simpl.
  case_decide as Hxy; [eauto|].
  apply elem_of_cons in Hin as [?|Hin]; [done|].
  destruct (IH Hin) as [i ->]. simpl. eauto.
Qed.

Lemma py_list_index_not_elem_of {A : Type} `{EqDecision A} (x : A) (l : list A) :
  x ∉ l -> py_list_index x l = inl ValueError.
Proof.
  induction l as [|y l IH]; intros Hin; [done|]. simpl.
  apply not_elem_of_cons in Hin as [Hne Hin].
  rewrite decide_False by done. by rewrite IH.
Qed.

Lemma NoDup_delete_lookup {A : Type} (x : A) (l : list A) i :
  NoDup l -> l !! i = Some x -> x ∉ delete i l.
Proof.
  intros Hnd Hi. apply delete_Permutation in Hi. rewrite Hi in Hnd.
  by apply NoDup_cons in Hnd as [? _].
Qed.

Lemma removeWidget_unknown s widget :
  widget ∉ couple_widget s -> removeWidget widget s = (s, inl AssertionError).
Proof.
  intros H. unfold removeWidget. apply bind_inl.
  unfold py_in. by rewrite bool_decide_eq_false_2.
Qed.

Lemma removeWidget_ok s widget index tile t :
  wf s -> bound_at s widget index tile ->
  tiles s !! tile = Some t -> tile_in_grid s t ->
  exists s',
    removeWidget widget s = (s', inr tt)
    /\ wf s'
    /\ row_number s' = row_number s /\ column_number s' = column_number s
    /\ couple_widget s' = delete index (couple_widget s)
    /\ couple_tile s' = delete index (couple_tile s)
    /\ tileResized s' = tileResized s
    /\ tiles s' = tiles s ++ ((fun '(r, c) => Tile_new r c 1 1)
                              <$> rect_cells (getFromRow t) (getFromColumn t)
                                             (getRowSpan t) (getColumnSpan t))
    /\ (forall r c, ~ covers t r c -> cell s' r c = cell s r c)
    /\ (forall r c, covers t r c ->
          exists new, cell s' r c = Some new /\ (length (tiles s) <= new)%nat
                      /\ tiles s' !! new = Some (Tile_new r c 1 1)).
Proof.
  intros Hwf [Hidx Htile] Ht (Hr0 & Hrs & Hr1 & Hc0 & Hcs & Hc1).
  pose proof (py_list_index_lookup _ _ _ Hidx) as Hw.
  set (cells := rect_cells (getFromRow t) (getFromColumn t) (getRowSpan t) (getColumnSpan t)).
  destruct (hardSplitTiles_spec (getFromRow t) (getFromColumn t) cells s Hwf)
    as (s1 & new & Hrun & Hwf1 & Hf1 & _ & Ht1 & Hout & Hnew).
  { apply elem_of_rect_cells. lia. }
  { intros r c Hin. apply elem_of_rect_cells in Hin. unfold in_grid. lia. }
  destruct Hf1 as (HR & HC & Hcw & Hct & Hev).
  set (s2 := set_couple (py_pop index (couple_widget s1)) (py_pop index (couple_tile s1)) s1).
  assert (wf s2) as Hwf2 by done.
  exists s2. unfold removeWidget.
  rewrite (bind_inr _ _ s s tt).
  2:{ unfold py_in. rewrite bool_decide_eq_true_2; [done|]. by eapply list_elem_of_lookup_2. }
  rewrite (bind_inr _ _ s s index) by (by unfold read; rewrite Hidx).
  rewrite (bind_inr _ _ s s tile).
  2:{ unfold read. f_equal. apply py_getitem_nonneg; [lia|]. by rewrite Nat2Z.id. }
  rewrite (bind_inr _ _ s s t) by (by unfold read, deref; rewrite Ht).
  fold cells. rewrite (bind_inr _ _ _ _ _ Hrun).
  rewrite (bind_inr _ _ s1 s2 tt) by done.
  rewrite changeTilesColor_wf by done.
  split; [done|]. split; [done|]. unfold s2, py_pop. simpl.
  rewrite Hcw, Hct. split_and!; try done.
  - intros r c Hn. apply Hout. intros Hin. by apply elem_of_rect_cells in Hin.
  - intros r c Hcov. apply Hnew. by apply elem_of_rect_cells.
Qed.

(** [removeWidget] fails on an item that is not bound.  For an item
    bound to a tile that lies in the grid, with spans of at least one,
    it succeeds: every cell of the tile's rectangle is then owned by a
    tile object created by this call, unfilled, of span 1x1 and anchored
    at that cell, and the item's entry is taken out of both registry
    lists (so the item is no longer registered when it was registered
    once). *)
Lemma removeWidget_spec s widget :
  wf s ->
  (widget ∉ couple_widget s -> removeWidget widget s = (s, inl AssertionError))
  /\ (forall index tile t,
        bound_at s widget index tile ->
        tiles s !! tile = Some t -> tile_in_grid s t ->
        exists s',
          removeWidget widget s = (s', inr tt)
          /\ (forall r c, covers t r c ->
                exists new, cell s' r c = Some new
                            /\ tiles s !! new = None
                            /\ tiles s' !! new = Some (Tile_new r c 1 1))
          /\ couple_widget s' = delete index (couple_widget s)
          /\ couple_tile s' = delete index (couple_tile s)
          /\ (NoDup (couple_widget s) -> widget ∉ couple_widget s')).
Proof.
  intros Hwf. split; [apply removeWidget_unknown|].
  intros index tile t Hb Ht Hg.
  destruct (removeWidget_ok s widget index tile t Hwf Hb Ht Hg)
    as (s' & Hrun & _ & _ & _ & Hcw & Hct & _ & _ & _ & Hnew).
  exists s'. split; [done|]. split; [|split; [done|split; [done|]]].
  - intros r c Hcov. destruct (Hnew r c Hcov) as (new & Hcell & Hle & Hlk).
    exists new. split_and!; [done| |done]. by apply lookup_ge_None_2.
  - intros Hnd. rewrite Hcw. apply NoDup_delete_lookup; [done|].
    destruct Hb as [Hidx _]. by apply py_list_index_lookup.
Qed.

Lemma removeWidget_spec_witness :
  let s := run (addWidget 7%nat 0 1 1 2) (fresh 2 3) in
  removeWidget 8%nat s = (s, inl AssertionError)
  /\ exists s',
       removeWidget 7%nat s = (s', inr tt)
       /\ (forall r c, covers (mkTile 0 1 1 2 true (Some 7%nat)) r c ->
             exists new, cell s' r c = Some new
                         /\ tiles s !! new = None
                         /\ tiles s' !! new = Some (Tile_new r c 1 1))
       /\ couple_widget s' = delete 0%nat (couple_widget s)
       /\ couple_tile s' = delete 0%nat (couple_tile s)
       /\ (NoDup (couple_widget s) -> 7%nat ∉ couple_widget s').
Proof.
  intros s.
  assert (wf s) as Hwf by (apply (bool_decide_unpack _); vm_compute; reflexivity).
  destruct (removeWidget_spec s 8%nat Hwf) as [Hunknown _].
  destruct (removeWidget_spec s 7%nat Hwf) as [_ Hbound].
  split.
  - apply Hunknown. vm_compute. by intros ?%list_elem_of_singleton.
  - apply (Hbound 0%nat 1%nat).
    + apply (bool_decide_unpack _). vm_compute. reflexivity.
    + vm_compute. reflexivity.
    + apply (bool_decide_unpack _). vm_compute. reflexivity.
Defined.

(** C5.  The code departs from the claim for an item bound by a
    placement with a span of zero, which [isAreaEmpty] admits.  On a
    fresh grid of two rows and three columns, [addWidget] of item 7 at
    [(1, 0)] with a row span of zero and a column span of three returns
    and binds the item, at index 0 of the registry, to the tile of cell
    [(1, 0)], which it leaves filled with the geometry [(1, 0, 0, 3)].
    [removeWidget] of the item then lists no cell to split and raises
    the [AssertionError] of [hardSplitTiles]: the layout is the one
    before the call, the item is still first in the registry and cell
    [(1, 0)] is still owned by the filled tile. *)
Theorem removeWidget_bound_zero_span :
  let s := run (addWidget 7%nat 1 0 0 3) (fresh 2 3) in
  snd (__init__ 2 3) = inr tt
  /\ isAreaEmpty (fresh 2 3) 1 0 0 3 = inr true
  /\ result (addWidget 7%nat 1 0 0 3) (fresh 2 3) = inr tt
  /\ wf s
  /\ bound_at s 7%nat 0%nat 3%nat
  /\ cell s 1 0 = Some 3%nat
  /\ tiles s !! 3%nat = Some (mkTile 1 0 0 3 true (Some 7%nat))
  /\ removeWidget 7%nat s = (s, inl AssertionError)
  /\ couple_widget s = [7%nat].
Proof.
  intros s. split_and!; try (vm_compute; reflexivity).
  all: apply (bool_decide_unpack _); vm_compute; reflexivity.
Qed.

(** ** Shrinking *)

Lemma elem_of_comprehension (f g : Z -> Z) n m r c :
  (r, c) ∈ (row ← py_range n; column ← py_range m; [(f row, g column)])
  <-> exists row column, 0 <= row < n /\ 0 <= column < m /\ r = f row /\ c = g column.
Proof.
  rewrite list_elem_of_bind. split.
  - intros (row & Hin & Hrow). apply list_elem_of_bind in Hin as (column & Hin & Hcol).
    apply list_elem_of_singleton in Hin as [= -> ->].
    apply elem_of_py_range in Hrow, Hcol. eauto 10.
  - intros (row & column & Hrow & Hcol & -> & ->).
    exists row. split; [|by apply elem_of_py_range].
    apply list_elem_of_bind. exists column. split; [|by apply elem_of_py_range].
    by apply list_elem_of_singleton.
Qed.

Lemma comprehension_nil (f g : Z -> Z) n m :
  n <= 0 \/ m <= 0 ->
  (row ← py_range n; column ← py_range m; [(f row, g column)]) = [].
Proof.
  intros H. destruct (_ ≫= _) as [|[r c] l] eqn:E; [done|].
  assert ((r, c) ∈ (row ← py_range n; column ← py_range m; [(f row, g column)])) as Hin
    by (rewrite E; left).
  apply elem_of_comprehension in Hin as (? & ? & ? & ? & _). lia.
Qed.

Lemma comprehension_nil_iff (f g : Z -> Z) n m :
  (row ← py_range n; column ← py_range m; [(f row, g column)]) = [] <-> n <= 0 \/ m <= 0.
Proof.
  split; [|apply comprehension_nil].
  intros Hnil. destruct (decide (n <= 0 \/ m <= 0)) as [|Hpos]; [done|exfalso].
  assert ((f 0, g 0) ∈ (row ← py_range n; column ← py_range m; [(f row, g column)])) as Hin.
  { apply elem_of_comprehension. exists 0, 0. lia. }
  rewrite Hnil in Hin. by apply elem_of_nil in Hin.
Qed.

Ltac shrink_case row_of column_of :=
  match goal with |- context [?a <? ?b] => destruct (Z.ltb_spec a b) end;
  (eexists _, _; split; [reflexivity|]);
  (split; [lia|]); (split; [lia|]);
  (split;
   [ rewrite comprehension_nil_iff; lia
   | let r := fresh "r" in let c := fresh "c" in
     intros r c; rewrite elem_of_comprehension;
     (split;
      [ intros (? & ? & ? & ? & -> & ->); lia
      | intros [[? ?] ?]; exists (row_of r), (column_of c); lia ]) ]).

(** What [__getTilesToSplit] answers on a shrink request: the granted
    amount keeps the span at one or more, has the sign of the request
    and does not exceed it, and the cells are those the tile loses. *)
Lemma getTilesToSplit_shrink s direction from_row from_column tile_number tile t :
  is_direction direction ->
  cell s from_row from_column = Some tile -> tiles s !! tile = Some t ->
  1 <= getRowSpan t -> 1 <= getColumnSpan t ->
  tile_number * (fst direction + snd direction) <= 0 ->
  exists granted cells,
    __getTilesToSplit s direction from_row from_column tile_number = inr (granted, cells)
    /\ granted * (fst direction + snd direction) <= 0
    /\ Z.abs granted = Z.min (Z.abs tile_number) (axis_span direction t - 1)
    /\ (cells = [] <-> granted = 0)
    /\ (forall r c,
          (r, c) ∈ cells <->
          (from_row <= r < from_row + getRowSpan t
           /\ from_column <= c < from_column + getColumnSpan t)
          /\ ~ covers (resized direction from_row from_column granted t) r c).
Proof.
  intros Hdir Hcell Ht Hrs Hcs Hshrink.
  unfold __getTilesToSplit. rewrite (tile_at_cell _ _ _ _ Hcell). simpl.
  unfold deref. rewrite Ht. simpl.
  unfold axis_span, resized, covers.
  destruct Hdir as [-> | [-> | [-> | ->]]]; simpl in *.
  - shrink_case (fun r => r - from_row) (fun c => from_column + getColumnSpan t - 1 - c).
  - shrink_case (fun r => r - from_row) (fun c => c - from_column).
  - shrink_case (fun r => from_row + getRowSpan t - 1 - r) (fun c => c - from_column).
  - shrink_case (fun r => r - from_row) (fun c => c - from_column).
Qed.

Lemma splitTiles_spec tile t from_row from_column row_span column_span cells s :
  wf s -> tiles s !! tile = Some t ->
  (forall r c, (r, c) ∈ cells -> in_grid s r c) ->
  Forall c_int [from_row; from_column; row_span; column_span] ->
  exists s',
    __splitTiles tile from_row from_column row_span column_span cells s = (s', inr tt)
    /\ wf s' /\ frame s s'
    /\ tiles s' = <[tile := Tile_updateSize from_row from_column row_span column_span t]>
                    (tiles s ++ unit_tiles cells)
    /\ (forall r c, (r, c) ∉ cells -> cell s' r c = cell s r c)
    /\ (forall r c, (r, c) ∈ cells ->
          exists new, cell s' r c = Some new /\ (length (tiles s) <= new)%nat
                      /\ tiles s' !! new = Some (Tile_new r c 1 1)).
Proof.
  intros Hwf Ht Hin Hfit.
  destruct (split_loop_spec _ cells s splitTiles_step Hwf Hin)
    as (s1 & Hrun & Hwf1 & Hf1 & Ht1 & Hout & Hnew).
  pose proof (lookup_lt_Some _ _ _ Ht) as Hlt.
  unfold __splitTiles. rewrite (bind_inr _ _ _ _ _ Hrun).
  rewrite (bind_inr _ _ _ _ _ (qt_call_ok _ s1 Hfit)).
  rewrite (update_tile_spec _ _ _ t) by (rewrite Ht1; by apply lookup_app_l_Some).
  eexists. split; [done|]. split; [by apply wf_update_tile|].
  split; [exact Hf1|]. split; [simpl; by rewrite Ht1|].
  split; [exact Hout|].
  intros r c Hrc. destruct (Hnew r c Hrc) as (new & Hcell & Hle & Hlk).
  exists new. split_and!; [done..|]. simpl.
  rewrite list_lookup_insert_ne by lia. done.
Qed.

(** [resizeTile] up to the scan. *)
Lemma resizeTile_scan s direction from_row from_column tile_number tile t granted cells :
  tile_at s from_row from_column = inr tile -> tiles s !! tile = Some t ->
  resize_scan s direction from_row from_column tile_number = inr (granted, cells) ->
  resizeTile direction from_row from_column tile_number s =
  match cells with
  | [] => (s, inr tt)
  | _ :: _ =>
      let t' := resized direction from_row from_column granted t in
      (let* _ := (if tile_number * (fst direction + snd direction) >? 0
                  then __mergeTiles tile (getFromRow t') (getFromColumn t')
                                  (getRowSpan t') (getColumnSpan t') cells
                  else __splitTiles tile (getFromRow t') (getFromColumn t')
                                  (getRowSpan t') (getColumnSpan t') cells) in
       let* index := read (fun s => py_list_index tile (couple_tile s)) in
       let* widget := read (fun s => py_getitem (couple_widget s) (Z.of_nat index)) in
       modify (fun s => set_tileResized (tileResized s ++ [resize_event widget t']) s)) s
  end.
Proof.
  intros Htile Ht Hscan. unfold resizeTile.
  rewrite (bind_inr _ _ s s tile) by (by unfold read; rewrite Htile).
  rewrite (bind_inr _ _ s s t) by (by unfold read, deref; rewrite Ht).
  destruct direction as [dir_x dir_y]. unfold resize_scan in Hscan. simpl in Hscan.
  rewrite (bind_inr _ _ s s (granted, cells)) by (by unfold read; rewrite Hscan).
  destruct cells; done.
Qed.

Lemma resizeTile_no_anchor s direction from_row from_column tile_number e :
  tile_at s from_row from_column = inl e ->
  resizeTile direction from_row from_column tile_number s = (s, inl e).
Proof. intros H. unfold resizeTile. apply bind_inl. unfold read. by rewrite H. Qed.

(** The registry lookup and the emission that end a resize. *)
Lemma resize_emit_bound tile t' index widget s :
  py_list_index tile (couple_tile s) = inr index ->
  couple_widget s !! index = Some widget ->
  (let* index := read (fun s => py_list_index tile (couple_tile s)) in
   let* widget := read (fun s => py_getitem (couple_widget s) (Z.of_nat index)) in
   modify (fun s => set_tileResized (tileResized s ++ [resize_event widget t']) s)) s
  = (set_tileResized (tileResized s ++ [resize_event widget t']) s, inr tt).
Proof.
  intros Hidx Hw.
  rewrite (bind_inr _ _ s s index) by (by unfold read; rewrite Hidx).
  rewrite (bind_inr _ _ s s widget); [done|].
  unfold read. f_equal. apply py_getitem_nonneg; [lia|]. by rewrite Nat2Z.id.
Qed.

Lemma resize_emit_unbound tile t' s :
  tile ∉ couple_tile s ->
  (let* index := read (fun s => py_list_index tile (couple_tile s)) in
   let* widget := read (fun s => py_getitem (couple_widget s) (Z.of_nat index)) in
   modify (fun s => set_tileResized (tileResized s ++ [resize_event widget t']) s)) s
  = (s, inl ValueError).
Proof.
  intros H. apply bind_inl. unfold read. by rewrite py_list_index_not_elem_of.
Qed.

(** On a shrink request the granted amount leaves a span of one or
    more along the axis of the request; when that span is one already,
    nothing is granted and [resizeTile] returns the layout it was given,
    the emitted signals included, without raising. *)
Lemma getTilesToSplit_keeps_unit s direction from_row from_column tile_number tile t :
  is_direction direction ->
  cell s from_row from_column = Some tile -> tiles s !! tile = Some t ->
  1 <= getRowSpan t -> 1 <= getColumnSpan t ->
  tile_number * (fst direction + snd direction) <= 0 ->
  exists granted cells,
    __getTilesToSplit s direction from_row from_column tile_number = inr (granted, cells)
    /\ 1 <= axis_span direction (resized direction from_row from_column granted t)
    /\ (axis_span direction t = 1 ->
        granted = 0 /\ cells = []
        /\ resizeTile direction from_row from_column tile_number s = (s, inr tt)).
Proof.
  intros Hdir Hcell Ht Hrs Hcs Hshrink.
  destruct (getTilesToSplit_shrink s direction from_row from_column tile_number tile t)
    as (granted & cells & Hsplit & Hsign & Habs & Hnil & _); [done..|].
  exists granted, cells. split; [done|]. split.
  - clear Hsplit Hnil. unfold axis_span, resized in *.
    destruct Hdir as [-> | [-> | [-> | ->]]]; simpl in *; lia.
  - intros Hone. assert (granted = 0) as -> by lia.
    assert (cells = []) as -> by (by apply Hnil).
    split; [done|]. split; [done|].
    rewrite (resizeTile_scan s direction _ _ _ tile t 0 []); [done| |done|].
    + by apply tile_at_cell.
    + unfold resize_scan. rewrite Z.gtb_ltb. by rewrite (proj2 (Z.ltb_ge _ _)) by lia.
Qed.


(** C9, as stated, fails: a tile of three rows asked to shrink by one
    unit with the direction north loses its first row, not its last. *)
Lemma north_sheds_southern_rows_counterexample :
  ~ north_sheds_southern_rows (run (addWidget 7%nat 0 0 3 1) (fresh 3 1)) 0 0 1.
Proof.
  intros H.
  specialize (H 0%nat (mkTile 0 0 3 1 true (Some 7%nat)) 1 [(0, 0)]).
  assert (0 + 3 - Z.abs 1 <= 0 < 0 + 3) as Hbad; [|simpl in Hbad; lia].
  apply (H ltac:(by apply (bool_decide_unpack _); vm_compute) ltac:(by vm_compute) 0 0).
  left.
Qed.

(** C9, amended.  The strips a shrink request sheds are those next to
    the edge the direction names, and the opposite edge stays where it
    is: with the direction north the tile loses its first rows and its
    last row is unchanged, with south it loses its last rows and keeps
    its first row, and likewise west sheds the first columns and east
    the last. *)
Theorem shrink_sheds_named_edge s direction from_row from_column tile_number tile t :
  is_direction direction ->
  cell s from_row from_column = Some tile -> tiles s !! tile = Some t ->
  1 <= getRowSpan t -> 1 <= getColumnSpan t ->
  tile_number * (fst direction + snd direction) <= 0 ->
  exists granted cells,
    __getTilesToSplit s direction from_row from_column tile_number = inr (granted, cells)
    /\ Z.abs granted = Z.min (Z.abs tile_number) (axis_span direction t - 1)
    /\ let m := Z.abs granted in
       let t' := resized direction from_row from_column granted t in
       (direction = north ->
        (forall r c, (r, c) ∈ cells <->
           from_row <= r < from_row + m
           /\ from_column <= c < from_column + getColumnSpan t)
        /\ getFromRow t' = from_row + m
        /\ getFromRow t' + getRowSpan t' = from_row + getRowSpan t)
       /\ (direction = south ->
           (forall r c, (r, c) ∈ cells <->
              from_row + getRowSpan t - m <= r < from_row + getRowSpan t
              /\ from_column <= c < from_column + getColumnSpan t)
           /\ getFromRow t' = from_row
           /\ getFromRow t' + getRowSpan t' = from_row + getRowSpan t - m)
       /\ (direction = west ->
           (forall r c, (r, c) ∈ cells <->
              from_row <= r < from_row + getRowSpan t
              /\ from_column <= c < from_column + m)
           /\ getFromColumn t' = from_column + m
           /\ getFromColumn t' + getColumnSpan t' = from_column + getColumnSpan t)
       /\ (direction = east ->
           (forall r c, (r, c) ∈ cells <->
              from_row <= r < from_row + getRowSpan t
              /\ from_column + getColumnSpan t - m <= c < from_column + getColumnSpan t)
           /\ getFromColumn t' = from_column
           /\ getFromColumn t' + getColumnSpan t'
              = from_column + getColumnSpan t - m).
Proof.
  intros Hdir Hcell Ht Hrs Hcs Hshrink.
  destruct (getTilesToSplit_shrink s direction from_row from_column tile_number tile t)
    as (granted & cells & Hsplit & Hsign & Habs & _ & Hcells); [done..|].
  exists granted, cells. split; [done|]. split; [done|].
  clear Hsplit. unfold resized, covers, axis_span in *. simpl.
  split_and!; intros ->; simpl in *;
    (split; [intros r c; rewrite Hcells; lia | lia]).
Qed.

Lemma shrink_sheds_named_edge_witness :
  exists granted cells,
    __getTilesToSplit (run (addWidget 7%nat 0 0 3 1) (fresh 3 1)) north 0 0 1
    = inr (granted, cells)
    /\ forall r c, (r, c) ∈ cells <-> 0 <= r < 0 + Z.abs granted /\ 0 <= c < 0 + 1.
Proof.
  destruct (shrink_sheds_named_edge (run (addWidget 7%nat 0 0 3 1) (fresh 3 1))
              north 0 0 1 0%nat (mkTile 0 0 3 1 true (Some 7%nat)))
    as (granted & cells & Hsplit & _ & Hnorth & _).
  - apply (bool_decide_unpack _). vm_compute. reflexivity.
  - vm_compute. reflexivity.
  - vm_compute. reflexivity.
  - simpl. lia.
  - simpl. lia.
  - simpl. lia.
  - exists granted, cells. split; [exact Hsplit|]. by destruct (Hnorth eq_refl) as [H _].
Defined.

(** ** Growing *)

Lemma strip_blocked_spec s strip :
  wf s -> (forall r c, (r, c) ∈ strip -> in_grid s r c) ->
  strip_blocked s strip = inr (negb (strip_free s strip)).
Proof.
  intros Hwf. induction strip as [|[r c] strip IH]; intros Hin; [done|]. simpl.
  destruct (filled_at_in_grid s r c Hwf) as (tile & t & Hcell & Ht & Hf); [apply Hin; left|].
  rewrite Hf. simpl. unfold unfilled_at. rewrite Hcell, Ht.
  destruct (isFilled t); simpl; [done|].
  apply IH. intros r' c' H. apply Hin. by right.
Qed.

Lemma scan_strips_spec s step strips avail acc :
  wf s -> (forall strip r c, strip ∈ strips -> (r, c) ∈ strip -> in_grid s r c) ->
  scan_strips s step strips avail acc
  = inr (avail + step * Z.of_nat (leading_free s strips),
         concat (acc ++ take (leading_free s strips) strips)).
Proof.
  intros Hwf. revert avail acc.
  induction strips as [|strip strips IH]; intros avail acc Hin; simpl.
  - by rewrite Z.mul_0_r, Z.add_0_r, app_nil_r.
  - rewrite strip_blocked_spec; [|done|intros r c; apply Hin; left]. simpl.
    destruct (strip_free s strip); simpl.
    + rewrite IH by (intros strip' r c H; apply Hin; by right).
      rewrite <- app_assoc. simpl. do 2 f_equal. lia.
    + by rewrite Z.mul_0_r, Z.add_0_r, app_nil_r.
Qed.

Lemma leading_free_le s strips : (leading_free s strips <= length strips)%nat.
Proof.
  induction strips as [|strip strips IH]; simpl; [lia|].
  destruct (strip_free s strip); simpl; lia.
Qed.

Lemma leading_free_all s strips i strip :
  (i < leading_free s strips)%nat -> strips !! i = Some strip -> strip_free s strip = true.
Proof.
  revert i. induction strips as [|st strips IH]; intros i; simpl; [lia|].
  destruct (strip_free s st) eqn:E; [|lia].
  destruct i as [|i]; simpl; [by intros _ [= <-]|].
  intros Hlt. apply IH. lia.
Qed.

Lemma leading_free_stop s strips strip :
  strips !! leading_free s strips = Some strip -> strip_free s strip = false.
Proof.
  induction strips as [|st strips IH]; simpl; [done|].
  destruct (strip_free s st) eqn:E; simpl; [done|]. by intros [= <-].
Qed.

Lemma growth_strip_in_grid s direction from_row from_column t i r c :
  is_direction direction -> rect_in_grid s from_row from_column t ->
  0 <= i < boundary_room s direction from_row from_column t ->
  (r, c) ∈ growth_strip direction from_row from_column t i -> in_grid s r c.
Proof.
  intros Hdir (?&?&?&?&?&?) Hi. unfold growth_strip, boundary_room, in_grid in *.
  destruct Hdir as [-> | [-> | [-> | ->]]]; simpl in *;
    intros (j & [= -> ->] & Hj%elem_of_seqZ)%list_elem_of_fmap; lia.
Qed.

Lemma elem_of_growth_strips s direction from_row from_column t n strip r c :
  is_direction direction -> rect_in_grid s from_row from_column t ->
  n <= boundary_room s direction from_row from_column t ->
  strip ∈ growth_strip direction from_row from_column t <$> seqZ 0 n ->
  (r, c) ∈ strip -> in_grid s r c.
Proof.
  intros Hdir Hrect Hn (i & -> & Hi%elem_of_seqZ)%list_elem_of_fmap Hin.
  eapply growth_strip_in_grid; [done..| |done]. lia.
Qed.

Ltac grow_case :=
  match goal with
  | |- scan_strips _ _ ?code _ _ = inr (_, concat (take _ ?spec)) =>
      replace code with spec;
      [ rewrite scan_strips_spec; [f_equal; f_equal; lia | done |]
      | unfold py_range;
        match goal with
        | |- _ <$> seqZ 0 ?a = _ <$> seqZ 0 ?b => replace b with a by lia
        end;
        apply list_fmap_ext; intros ? ? _; simpl;
        apply list_fmap_ext; intros ? ? _; simpl; f_equal; lia ]
  end.

(** What [__getTilesToMerge] answers on a growth request. *)
Lemma getTilesToMerge_grow s direction from_row from_column tile_number tile t :
  wf s -> is_direction direction ->
  cell s from_row from_column = Some tile -> tiles s !! tile = Some t ->
  rect_in_grid s from_row from_column t ->
  tile_number * (fst direction + snd direction) > 0 ->
  let strips := growth_strip direction from_row from_column t
                <$> seqZ 0 (Z.min (Z.abs tile_number)
                                  (boundary_room s direction from_row from_column t)) in
  __getTilesToMerge s direction from_row from_column tile_number
  = inr ((fst direction + snd direction) * Z.of_nat (leading_free s strips),
         concat (take (leading_free s strips) strips)).
Proof.
  intros Hwf Hdir Hcell Ht Hrect Hgrow strips.
  assert (forall strip r c, strip ∈ strips -> (r, c) ∈ strip -> in_grid s r c) as Hin.
  { intros strip r c. eapply elem_of_growth_strips; [done..|lia]. }
  unfold __getTilesToMerge. rewrite (tile_at_cell _ _ _ _ Hcell). simpl.
  unfold deref. rewrite Ht. simpl.
  revert Hin. unfold strips, growth_strip, boundary_room. clear strips.
  destruct Hrect as (?&?&?&?&?&?).
  destruct Hdir as [-> | [-> | [-> | ->]]]; simpl in *; intros Hin.
  - grow_case. exact Hin.
  - grow_case. exact Hin.
  - grow_case. exact Hin.
  - grow_case. exact Hin.
Qed.


Lemma lookup_growth_strips (f : Z -> list (Z * Z)) n i strip :
  (f <$> seqZ 0 n) !! i = Some strip <-> strip = f (Z.of_nat i) /\ Z.of_nat i < n.
Proof.
  rewrite list_lookup_fmap_Some. split.
  - intros (x & -> & Hx). apply lookup_seqZ in Hx as [-> ?]. by rewrite Z.add_0_l.
  - intros [-> Hlt]. exists (Z.of_nat i). split; [done|]. apply lookup_seqZ. lia.
Qed.

Lemma elem_of_concat {A : Type} (x : A) (ls : list (list A)) :
  x ∈ concat ls <-> exists l, x ∈ l /\ l ∈ ls.
Proof.
  induction ls as [|l ls IH]; simpl.
  - split; [by intros ?%elem_of_nil|]. by intros (? & _ & ?%elem_of_nil).
  - rewrite elem_of_app, IH. split.
    + intros [?|(l' & ? & ?)]; [exists l; split; [done|left]|exists l'; split; [done|by right]].
    + intros (l' & ? & [->|?]%elem_of_cons); [by left|right; eauto].
Qed.

(** On a growth request of [|tile_number|] units the scan grants
    as many units as there are consecutive fully free strips beyond the
    far edge of the tile, counted up to the request clamped at the grid
    boundary and stopping at the first strip that holds a filled cell:
    every strip before the granted count is free, the strip at the
    count, when the count is below the clamped request, is not, and the
    cells to merge are those of the granted strips.  The granted
    amount carries the sign of the direction, and the span handed to
    [updateSize] grows by exactly the count. *)
Lemma getTilesToMerge_free_strips s direction from_row from_column tile_number tile t :
  wf s -> is_direction direction ->
  cell s from_row from_column = Some tile -> tiles s !! tile = Some t ->
  rect_in_grid s from_row from_column t ->
  tile_number * (fst direction + snd direction) > 0 ->
  let clamped := Z.min (Z.abs tile_number)
                       (boundary_room s direction from_row from_column t) in
  let k := free_strips s direction from_row from_column t clamped in
  exists cells,
    __getTilesToMerge s direction from_row from_column tile_number
    = inr ((fst direction + snd direction) * k, cells)
    /\ 0 <= k <= clamped
    /\ (forall i, 0 <= i < k ->
          strip_free s (growth_strip direction from_row from_column t i) = true)
    /\ (k < clamped ->
        strip_free s (growth_strip direction from_row from_column t k) = false)
    /\ (forall r c, (r, c) ∈ cells <->
          exists i, 0 <= i < k /\ (r, c) ∈ growth_strip direction from_row from_column t i)
    /\ axis_span direction
         (resized direction from_row from_column ((fst direction + snd direction) * k) t)
       = axis_span direction t + k.
Proof.
  intros Hwf Hdir Hcell Ht Hrect Hgrow clamped k.
  pose proof (getTilesToMerge_grow s direction from_row from_column tile_number tile t
                Hwf Hdir Hcell Ht Hrect Hgrow) as Hrun. simpl in Hrun.
  fold clamped in Hrun.
  set (strips := growth_strip direction from_row from_column t <$> seqZ 0 clamped) in *.
  assert (k = Z.of_nat (leading_free s strips)) as Hk by done.
  pose proof (leading_free_le s strips) as Hle.
  unfold strips in Hle at 2. rewrite length_fmap, length_seqZ in Hle.
  assert (0 <= clamped) as Hclamped.
  { destruct Hrect as (?&?&?&?&?&?). unfold clamped, boundary_room.
    repeat case_decide; lia. }
  eexists. split; [rewrite Hk; exact Hrun|]. split; [lia|]. split; [|split; [|split]].
  - intros i Hi. apply (leading_free_all s strips (Z.to_nat i)); [lia|].
    apply lookup_growth_strips. rewrite Z2Nat.id by lia. split; [done|lia].
  - intros Hlt. apply (leading_free_stop s strips).
    apply lookup_growth_strips. rewrite <- Hk. split; [done|lia].
  - intros r c. rewrite elem_of_concat. split.
    + intros (strip & Hin & (i & Hi & Hlt)%elem_of_take).
      apply lookup_growth_strips in Hi as [-> ?].
      exists (Z.of_nat i). split; [lia|done].
    + intros (i & Hi & Hin). eexists. split; [exact Hin|].
      apply elem_of_take. exists (Z.to_nat i). split; [|lia].
      apply lookup_growth_strips. rewrite Z2Nat.id by lia. split; [done|lia].
  - clear Hrun. unfold axis_span, resized.
    destruct Hdir as [-> | [-> | [-> | ->]]]; simpl; lia.
Qed.


(** ** Resizing *)

(** A tile resized within the room the grid leaves has a geometry
    that fits C [int]s. *)
Lemma resized_c_int s direction from_row from_column granted t :
  wf s -> is_direction direction -> rect_in_grid s from_row from_column t ->
  - (axis_span direction t - 1) <= (fst direction + snd direction) * granted
    <= boundary_room s direction from_row from_column t ->
  let t' := resized direction from_row from_column granted t in
  Forall c_int [getFromRow t'; getFromColumn t'; getRowSpan t'; getColumnSpan t'].
Proof.
  intros [? ?]%wf_c_int Hdir (?&?&?&?&?&?).
  unfold axis_span, boundary_room, resized.
  destruct Hdir as [-> | [-> | [-> | ->]]]; simpl; intros Hb; solve_c_int.
Qed.

(** The scan of [resizeTile] answers, and only lists cells of the grid;
    the geometry it leads to fits C [int]s. *)
Lemma resize_scan_total s direction from_row from_column tile_number tile t :
  wf s -> is_direction direction ->
  cell s from_row from_column = Some tile -> tiles s !! tile = Some t ->
  rect_in_grid s from_row from_column t ->
  exists granted cells,
    resize_scan s direction from_row from_column tile_number = inr (granted, cells)
    /\ (forall r c, (r, c) ∈ cells -> in_grid s r c)
    /\ (let t' := resized direction from_row from_column granted t in
        Forall c_int [getFromRow t'; getFromColumn t'; getRowSpan t'; getColumnSpan t']).
Proof.
  intros Hwf Hdir Hcell Ht Hrect. unfold resize_scan.
  assert ((fst direction + snd direction = 1 \/ fst direction + snd direction = -1)
          /\ 1 <= axis_span direction t) as [Hsign Haxis].
  { destruct Hrect as (?&?&?&?&?&?). unfold axis_span.
    destruct Hdir as [-> | [-> | [-> | ->]]]; simpl; lia. }
  destruct (Z.gtb_spec (tile_number * (fst direction + snd direction)) 0) as [Hgrow|Hshrink].
  - destruct (getTilesToMerge_free_strips s direction from_row from_column tile_number tile t)
      as (cells & Hrun & Hk & _ & _ & Hcells & _); [done..|lia|].
    eexists _, cells. split; [exact Hrun|]. split.
    + intros r c (i & Hi & Hin)%Hcells.
      eapply growth_strip_in_grid; [done..| |done]. lia.
    + apply (resized_c_int s); [done..|]. nia.
  - pose proof Hrect as (?&?&?&?&?&?).
    destruct (getTilesToSplit_shrink s direction from_row from_column tile_number tile t)
      as (granted & cells & Hrun & Hsgn & Habs & _ & Hcells); [done..|].
    exists granted, cells. split; [done|]. split.
    + intros r c [[? ?] _]%Hcells. unfold in_grid. lia.
    + apply (resized_c_int s); [done..|].
      assert (0 <= boundary_room s direction from_row from_column t).
      { unfold boundary_room. repeat case_decide; lia. }
      lia.
Qed.

(** What [resizeTile] does once the scan has answered. *)
Lemma resizeTile_outcome s direction from_row from_column tile_number tile t :
  wf s -> is_direction direction ->
  cell s from_row from_column = Some tile -> tiles s !! tile = Some t ->
  rect_in_grid s from_row from_column t ->
  exists granted cells,
    resize_scan s direction from_row from_column tile_number = inr (granted, cells)
    /\ (cells = [] -> resizeTile direction from_row from_column tile_number s = (s, inr tt))
    /\ (cells <> [] ->
        let t' := resized direction from_row from_column granted t in
        exists s1,
          wf s1 /\ frame s s1 /\ tiles s1 !! tile = Some t'
          /\ (forall index widget,
                py_list_index tile (couple_tile s) = inr index ->
                couple_widget s !! index = Some widget ->
                resizeTile direction from_row from_column tile_number s
                = (set_tileResized (tileResized s ++ [resize_event widget t']) s1, inr tt))
          /\ (tile ∉ couple_tile s ->
              resizeTile direction from_row from_column tile_number s
              = (s1, inl ValueError))).
Proof.
  intros Hwf Hdir Hcell Ht Hrect.
  destruct (resize_scan_total s direction from_row from_column tile_number tile t)
    as (granted & cells & Hscan & Hin & Hfit); [done..|].
  exists granted, cells. split; [done|].
  pose proof (resizeTile_scan s direction from_row from_column tile_number tile t granted cells
                (tile_at_cell _ _ _ _ Hcell) Ht Hscan) as Hrun.
  split; [by intros ->|].
  intros Hne t'. destruct cells as [|cell0 cells]; [done|]. fold t' in Hrun.
  pose proof (lookup_lt_Some _ _ _ Ht) as Hlt.
  assert (exists s1,
    (if tile_number * (fst direction + snd direction) >? 0
     then __mergeTiles tile (getFromRow t') (getFromColumn t') (getRowSpan t')
                     (getColumnSpan t') (cell0 :: cells)
     else __splitTiles tile (getFromRow t') (getFromColumn t') (getRowSpan t')
                     (getColumnSpan t') (cell0 :: cells)) s = (s1, inr tt)
    /\ wf s1 /\ frame s s1 /\ tiles s1 !! tile = Some t') as (s1 & Hmut & Hwf1 & Hf1 & Ht1).
  { destruct (_ >? _).
    - destruct (mergeTiles_spec tile t (getFromRow t') (getFromColumn t') (getRowSpan t')
                  (getColumnSpan t') (cell0 :: cells) s Hwf Ht Hin Hfit)
        as (s1 & Hmut & ? & Htl & ? & _).
      exists s1. split_and!; [done..|]. rewrite Htl. by apply list_lookup_insert_eq.
    - destruct (splitTiles_spec tile t (getFromRow t') (getFromColumn t') (getRowSpan t')
                  (getColumnSpan t') (cell0 :: cells) s Hwf Ht Hin Hfit)
        as (s1 & Hmut & ? & ? & Htl & _).
      exists s1. split_and!; [done..|]. rewrite Htl.
      apply list_lookup_insert_eq. rewrite length_app. lia. }
  exists s1. split; [done|]. split; [done|]. split; [done|].
  rewrite Hrun. rewrite (bind_inr _ _ _ _ _ Hmut).
  destruct Hf1 as (_ & _ & Hcw & Hct & Hev). split.
  - intros index widget Hidx Hw.
    rewrite (resize_emit_bound tile t' index widget) by congruence.
    by rewrite Hev.
  - intros Hunbound. apply resize_emit_unbound. by rewrite Hct.
Qed.

(** C8, as stated, fails: asked to grow by one unit to the east, the
    unfilled tile at the origin of a fresh 1x2 grid absorbs its
    neighbour, and the call then raises [ValueError]. *)
Lemma resize_unfilled_completes_counterexample :
  ~ resize_unfilled_completes (fresh 1 2) east 0 0 1.
Proof.
  intros H.
  destruct (H 0%nat (Tile_new 0 0 1 1)) as [s' Hrun].
  - apply (bool_decide_unpack _). vm_compute. reflexivity.
  - reflexivity.
  - vm_compute in Hrun. discriminate Hrun.
Qed.

(** C8, amended.  A resize request addressed to an unfilled tile, one
    the registry does not hold, completes without error when the scan
    grants no cell, and the layout is then unchanged; when the scan
    grants cells the change of geometry is carried out, after which
    the lookup of the tile in the registry raises [ValueError] and no
    signal is emitted. *)
Theorem resize_unfilled_outcome s direction from_row from_column tile_number tile t :
  wf s -> is_direction direction ->
  cell s from_row from_column = Some tile -> tiles s !! tile = Some t ->
  rect_in_grid s from_row from_column t ->
  isFilled t = false -> tile ∉ couple_tile s ->
  exists granted cells,
    resize_scan s direction from_row from_column tile_number = inr (granted, cells)
    /\ (cells = [] ->
        resizeTile direction from_row from_column tile_number s = (s, inr tt))
    /\ (cells <> [] ->
        exists s',
          resizeTile direction from_row from_column tile_number s = (s', inl ValueError)
          /\ tiles s' !! tile = Some (resized direction from_row from_column granted t)
          /\ tileResized s' = tileResized s).
Proof.
  intros Hwf Hdir Hcell Ht Hrect _ Hunbound.
  destruct (resizeTile_outcome s direction from_row from_column tile_number tile t)
    as (granted & cells & Hscan & Hnil & Hcons); [done..|].
  exists granted, cells. split; [done|]. split; [done|].
  intros Hne. destruct (Hcons Hne) as (s1 & _ & Hf & Ht1 & _ & Hraise).
  exists s1. split; [by apply Hraise|]. split; [done|]. by destruct Hf as (_&_&_&_&?).
Qed.

Lemma resize_unfilled_outcome_witness :
  let s := run (addWidget 7%nat 0 1 1 1) (fresh 1 2) in
  resizeTile east 0 0 1 s = (s, inr tt).
Proof.
  intros s.
  destruct (resize_unfilled_outcome s east 0 0 1 0%nat (Tile_new 0 0 1 1))
    as (granted & cells & Hscan & Hnil & _).
  - apply (bool_decide_unpack _). vm_compute. reflexivity.
  - apply (bool_decide_unpack _). vm_compute. reflexivity.
  - vm_compute. reflexivity.
  - vm_compute. reflexivity.
  - apply (bool_decide_unpack _). vm_compute. reflexivity.
  - reflexivity.
  - vm_compute. by intros ?%list_elem_of_singleton.
  - apply Hnil. vm_compute in Hscan. congruence.
Defined.

(** ** Rectangles with a zero span *)

(** The partition is lost by a placement the code accepts: on a
    fresh 1x2 grid, [addWidget] over the rectangle at [(0, 0)] with a
    row span of zero and a column span of two passes both assertions
    and returns, and leaves the cell [(0, 0)] referencing a tile whose
    rectangle has no row, hence does not cover the cell. *)
Lemma zero_span_breaks_partition :
  exists s',
    addWidget 7%nat 0 0 0 2 (fresh 1 2) = (s', inr tt)
    /\ cell s' 0 0 = Some 0%nat
    /\ tiles s' !! 0%nat = Some (mkTile 0 0 0 2 true (Some 7%nat))
    /\ ~ cells_covered s'
    /\ ~ partition s'.
Proof.
  eexists. split; [vm_compute; reflexivity|]. split; [reflexivity|]. split; [reflexivity|].
  assert (~ cells_covered (run (addWidget 7%nat 0 0 0 2) (fresh 1 2))) as Hbad.
  { intros H. destruct (H 0 0) as (tile & t & Hcell & Ht & Hcov).
    - by vm_compute.
    - vm_compute in Hcell. injection Hcell as <-.
      vm_compute in Ht. injection Ht as <-.
      destruct Hcov as [Hrow _]. simpl in Hrow. lia. }
  split; [exact Hbad|]. intros [H _]. by apply Hbad.
Qed.

(** C7.  The round trip fails for a rectangle the admission check
    accepts: after the placement above, [removeWidget] raises
    [AssertionError] (the assertion of [hardSplitTiles]), and the item
    is still bound to a filled tile. *)
Theorem zero_span_place_remove :
  exists s',
    isAreaEmpty (fresh 1 2) 0 0 0 2 = inr true
    /\ addWidget 7%nat 0 0 0 2 (fresh 1 2) = (s', inr tt)
    /\ removeWidget 7%nat s' = (s', inl AssertionError)
    /\ couple_widget s' = [7%nat]
    /\ (exists t, tiles s' !! 0%nat = Some t /\ cell s' 0 0 = Some 0%nat /\ isFilled t = true).
Proof.
  eexists. split; [reflexivity|]. split; [vm_compute; reflexivity|].
  split; [vm_compute; reflexivity|]. split; [reflexivity|].
  eexists. split; [reflexivity|]. split; reflexivity.
Qed.

(** ** The invariant gives the partition *)

Lemma Inv_partition s : Inv s -> partition s.
Proof.
  intros (Hwf & Hgrid & _). split; [|split].
  - intros r c Hg. destruct (in_grid_cell s r c Hwf Hg) as [tile Hcell].
    destruct (Hgrid r c tile Hcell) as (t & Ht & Hcov & _). eauto.
  - intros r1 c1 r2 c2 tile1 tile2 t1 t2 Hc1 Hc2 Hne Ht1 Ht2 r c Hcov1 Hcov2.
    destruct (Hgrid r1 c1 tile1 Hc1) as (t1' & Ht1' & _ & Hall1 & _).
    destruct (Hgrid r2 c2 tile2 Hc2) as (t2' & Ht2' & _ & Hall2 & _).
    assert (t1' = t1) as -> by congruence. assert (t2' = t2) as -> by congruence.
    specialize (Hall1 r c Hcov1). specialize (Hall2 r c Hcov2). congruence.
  - intros r0 c0 tile t Hc Ht r c Hcov.
    destruct (Hgrid r0 c0 tile Hc) as (t' & Ht' & _ & Hall & _).
    assert (t' = t) as -> by congruence.
    by destruct (cell_Some_in_grid s r c tile Hwf (Hall r c Hcov)).
Qed.

Lemma unfilled_at_true s r c :
  unfilled_at s r c = true <->
  exists tile t, cell s r c = Some tile /\ tiles s !! tile = Some t /\ isFilled t = false.
Proof.
  unfold unfilled_at. split.
  - destruct (cell s r c) as [tile|]; [|done].
    destruct (tiles s !! tile) as [t|] eqn:Ht; [|done].
    intros H%negb_true_iff. by exists tile, t.
  - intros (tile & t & -> & -> & ->). done.
Qed.

Lemma covers_Tile_new r c r' c' : covers (Tile_new r c 1 1) r' c' <-> r' = r /\ c' = c.
Proof. unfold covers. simpl. lia. Qed.

(** A tile takes over a rectangle: the cells it gains were its own or
    owned by unfilled tiles. *)
Lemma grid_inv_merge s s' tile T :
  wf s -> grid_inv s ->
  tiles s' = <[tile := T]> (tiles s) -> (tile < length (tiles s))%nat ->
  isFilled T = true ->
  (forall r c, covers T r c -> cell s' r c = Some tile) ->
  (forall r c, ~ covers T r c -> cell s' r c = cell s r c) ->
  (forall r c, cell s r c = Some tile -> covers T r c) ->
  (forall r c, covers T r c -> cell s r c = Some tile \/ unfilled_at s r c = true) ->
  grid_inv s'.
Proof.
  intros Hwf Hgrid Htiles Hlt Hfilled Hin Hout Hold Hgain r c id Hcell.
  destruct (decide (covers T r c)) as [Hcov|Hncov].
  - rewrite (Hin r c Hcov) in Hcell. injection Hcell as <-.
    exists T. rewrite Htiles, list_lookup_insert_eq by done.
    split_and!; [done..|]. by rewrite Hfilled.
  - rewrite (Hout r c Hncov) in Hcell.
    assert (id <> tile) as Hne by (intros ->; by apply Hncov, Hold).
    destruct (Hgrid r c id Hcell) as (t & Ht & Hcov & Hall & Hunit).
    exists t. rewrite Htiles, list_lookup_insert_ne by done.
    split_and!; [done..| |done].
    intros r' c' Hcov'. specialize (Hall r' c' Hcov').
    rewrite Hout; [done|]. intros HT.
    destruct (Hgain r' c' HT) as [?|Hfree]; [congruence|].
    apply unfilled_at_true in Hfree as (id' & t' & Hc' & Ht' & Hf').
    assert (id' = id) as -> by congruence. assert (t' = t) as -> by congruence.
    destruct (Hgrid r' c' id Hc') as (t'' & Ht'' & _ & _ & Hunit').
    assert (t'' = t) as -> by congruence.
    rewrite (Hunit' Hf') in Hcov. apply covers_Tile_new in Hcov as [-> ->]. done.
Qed.

(** Cells are split off into new unit tiles; the tiles that keep cells
    keep exactly those outside the split. *)
Lemma grid_inv_split s s' (X : Z -> Z -> Prop) :
  (forall r c, Decision (X r c)) ->
  grid_inv s ->
  (forall r c, ~ X r c -> cell s' r c = cell s r c) ->
  (forall r c tile, X r c -> cell s' r c = Some tile ->
     tiles s' !! tile = Some (Tile_new r c 1 1)) ->
  (forall r c tile t, ~ X r c -> cell s r c = Some tile -> tiles s !! tile = Some t ->
     exists t', tiles s' !! tile = Some t' /\ covers t' r c
                /\ (forall r' c', covers t' r' c' -> covers t r' c' /\ ~ X r' c')
                /\ (isFilled t' = false -> t' = Tile_new r c 1 1)) ->
  grid_inv s'.
Proof.
  intros HXdec Hgrid Hout Hnew Hkeep r c id Hcell.
  destruct (HXdec r c) as [HX|HnX].
  - exists (Tile_new r c 1 1). split; [by eapply Hnew|].
    split; [by apply covers_Tile_new|]. split; [|done].
    by intros r' c' [-> ->]%covers_Tile_new.
  - rewrite (Hout r c HnX) in Hcell.
    destruct (Hgrid r c id Hcell) as (t & Ht & Hcov & Hall & Hunit).
    destruct (Hkeep r c id t HnX Hcell Ht) as (t' & Ht' & Hcov' & Hsub & Hunit').
    exists t'. split_and!; [done..| |done].
    intros r' c' [Hc HnX']%Hsub. rewrite (Hout r' c' HnX'). by apply Hall.
Qed.

(** ** The operations keep the invariant *)

Lemma area_unfilled_of_isAreaEmpty s from_row from_column row_span column_span :
  wf s -> isAreaEmpty s from_row from_column row_span column_span = inr true ->
  area_unfilled s from_row from_column row_span column_span.
Proof.
  intros Hwf He.
  destruct (isAreaEmpty_true_bounds _ _ _ _ _ He) as (?&?&?&?).
  destruct (isAreaEmpty_cases s from_row from_column row_span column_span Hwf) as [_ Hin].
  destruct Hin as (b & Hb & Hiff); [lia|].
  apply Hiff. congruence.
Qed.

Lemma registry_unfilled_unbound s tile t :
  registry_inv s -> tiles s !! tile = Some t -> isFilled t = false -> tile ∉ couple_tile s.
Proof.
  intros (_ & _ & _ & Hb) Ht Hf Hin.
  destruct (Hb tile Hin) as (t' & r & c & Ht' & Hf' & _). congruence.
Qed.

Lemma Inv_addWidget s widget from_row from_column row_span column_span :
  Inv s -> valid_op s (OpAdd widget from_row from_column row_span column_span) ->
  exists s',
    addWidget widget from_row from_column row_span column_span s = (s', inr tt) /\ Inv s'.
Proof.
  intros (Hwf & Hgrid & Hreg) (Hw & He & Hrs & Hcs).
  destruct (isAreaEmpty_true_bounds _ _ _ _ _ He) as (Hr0 & Hc0 & Hr1 & Hc1).
  pose proof (area_unfilled_of_isAreaEmpty _ _ _ _ _ Hwf He) as Harea.
  destruct (Harea from_row from_column) as (tile & t & Hcell & Ht & Hf); [lia..|].
  destruct (addWidget_ok s widget _ _ _ _ tile Hwf Hw He (tile_at_cell _ _ _ _ Hcell))
    as (s' & t0 & Hrun & Hwf' & _ & Ht0 & Htiles & HR & HC & Hcw & Hct & Hev & Hcells);
    [lia|].
  assert (t0 = t) as -> by congruence.
  destruct (Hgrid _ _ _ Hcell) as (t1 & Ht1 & _ & Hall & Hunit).
  assert (t1 = t) as -> by congruence. specialize (Hunit Hf).
  set (T := mkTile from_row from_column row_span column_span true (Some widget)).
  assert (tiles s' = <[tile := T]> (tiles s)) as HtilesT.
  { rewrite Htiles. f_equal. destruct (_ || _) eqn:Hspan; [done|].
    apply orb_false_iff in Hspan as [? ?].
    assert (row_span = 1) as -> by lia. assert (column_span = 1) as -> by lia.
    by rewrite Hunit. }
  clear Htiles.
  assert (forall r c, covers T r c -> cell s' r c = Some tile) as Hin.
  { intros r c [Hr Hc]. simpl in Hr, Hc. rewrite Hcells.
    destruct (decide _) as [_|Hn]; [done|].
    destruct (rect_cells_cons from_row from_column row_span column_span) as [rest Hrest];
      [lia..|].
    assert ((r, c) ∈ rect_cells from_row from_column row_span column_span) as Hrc
      by (apply elem_of_rect_cells; lia).
    rewrite Hrest in Hrc, Hn. simpl in Hn.
    apply elem_of_cons in Hrc as [[= -> ->]|Hrc]; [done|].
    assert (rest = []) as ->; [|by apply elem_of_nil in Hrc].
    destruct (decide (row_span > 1 \/ column_span > 1)) as [Hspan|Hspan].
    { destruct Hn. by split. }
    assert (row_span = 1) as -> by lia. assert (column_span = 1) as -> by lia.
    rewrite rect_cells_unit in Hrest. congruence. }
  assert (forall r c, ~ covers T r c -> cell s' r c = cell s r c) as Hout.
  { intros r c Hn. rewrite Hcells. rewrite decide_False; [done|].
    intros [_ Hrc%elem_of_tail%elem_of_rect_cells]. by apply Hn. }
  assert (forall r c, covers T r c -> unfilled_at s r c = true) as Hfree.
  { intros r c [Hr Hc]. apply unfilled_at_true. by apply Harea. }
  pose proof (lookup_lt_Some _ _ _ Ht) as Hlt.
  exists s'. split; [done|]. split; [done|]. split.
  - apply (grid_inv_merge s s' tile T); try done.
    + intros r c Hc. destruct (Hgrid _ _ _ Hc) as (t1 & Ht1' & Hcov & _).
      assert (t1 = t) as -> by congruence. rewrite Hunit in Hcov.
      apply covers_Tile_new in Hcov as [-> ->]. unfold covers. simpl. lia.
    + intros r c Hc. right. by apply Hfree.
  - destruct Hreg as (Hlen & Hndw & Hndt & Hbound).
    assert (tile ∉ couple_tile s) as Htile.
    { by eapply (registry_unfilled_unbound s tile t). }
    unfold registry_inv. rewrite Hcw, Hct. split_and!.
    + rewrite !length_app. simpl. lia.
    + apply NoDup_app. split_and!; [done| |apply NoDup_singleton].
      intros x Hx ->%list_elem_of_singleton. done.
    + apply NoDup_app. split_and!; [done| |apply NoDup_singleton].
      intros x Hx ->%list_elem_of_singleton. done.
    + intros id [Hid| ->%list_elem_of_singleton]%elem_of_app.
      * destruct (Hbound id Hid) as (t' & r & c & Ht' & Hf' & Hc').
        exists t', r, c. rewrite HtilesT.
        rewrite list_lookup_insert_ne by (intros ->; done).
        split_and!; [done..|]. rewrite Hout; [done|]. intros Hcov.
        apply Hfree, unfilled_at_true in Hcov as (id' & t'' & ? & ? & ?). congruence.
      * exists T, from_row, from_column. rewrite HtilesT, list_lookup_insert_eq by done.
        split_and!; [done..|]. apply Hin. unfold covers. simpl. lia.
Qed.

Lemma grid_inv_tile_in_grid s r c tile t :
  wf s -> grid_inv s -> cell s r c = Some tile -> tiles s !! tile = Some t ->
  tile_in_grid s t.
Proof.
  intros Hwf Hgrid Hcell Ht.
  destruct (Hgrid r c tile Hcell) as (t' & Ht' & [Hr Hc] & Hall & _).
  assert (t' = t) as -> by congruence.
  destruct (cell_Some_in_grid s (getFromRow t) (getFromColumn t) tile Hwf) as [[? ?] _].
  { apply Hall. unfold covers. lia. }
  destruct (cell_Some_in_grid s (getFromRow t + getRowSpan t - 1)
              (getFromColumn t + getColumnSpan t - 1) tile Hwf) as [[? ?] _].
  { apply Hall. unfold covers. lia. }
  unfold tile_in_grid. lia.
Qed.

Lemma registry_bound_at s widget :
  registry_inv s -> widget ∈ couple_widget s ->
  exists index tile, bound_at s widget index tile /\ tile ∈ couple_tile s.
Proof.
  intros (Hlen & _) Hw.
  destruct (py_list_index_elem_of _ _ Hw) as [index Hidx].
  pose proof (lookup_lt_Some _ _ _ (py_list_index_lookup _ _ _ Hidx)) as Hlt.
  destruct (lookup_lt_is_Some_2 (couple_tile s) index) as [tile Htile]; [lia|].
  exists index, tile. split; [by split|]. by eapply list_elem_of_lookup_2.
Qed.

Lemma Inv_removeWidget s widget :
  Inv s -> valid_op s (OpRemove widget) ->
  exists s', removeWidget widget s = (s', inr tt) /\ Inv s'.
Proof.
  intros (Hwf & Hgrid & Hreg) Hw. simpl in Hw.
  destruct (registry_bound_at s widget Hreg Hw) as (index & tile & Hb & Hin).
  pose proof Hreg as (Hlen & Hndw & Hndt & Hbound).
  destruct (Hbound tile Hin) as (t & r0 & c0 & Ht & Hf & Hc0).
  pose proof (grid_inv_tile_in_grid s r0 c0 tile t Hwf Hgrid Hc0 Ht) as Htg.
  destruct (Hgrid r0 c0 tile Hc0) as (t0 & Ht0 & _ & Hall & _).
  assert (t0 = t) as -> by congruence.
  destruct (removeWidget_ok s widget index tile t Hwf Hb Ht Htg)
    as (s' & Hrun & Hwf' & HR & HC & Hcw & Hct & Hev & Htiles & Hout & Hnew).
  assert (forall id ti, tiles s !! id = Some ti -> tiles s' !! id = Some ti) as Hkeep.
  { intros id ti Hid. rewrite Htiles. by apply lookup_app_l_Some. }
  assert (forall r c id, cell s r c = Some id -> id <> tile -> ~ covers t r c) as Hother.
  { intros r c id Hc Hne Hcov. specialize (Hall r c Hcov). congruence. }
  destruct Hb as [Hidx Htile].
  exists s'. split; [done|]. split; [done|]. split.
  - apply (grid_inv_split s s' (covers t)); [apply _|done|done|..].
    + intros r c id HX Hc. destruct (Hnew r c HX) as (new & Hc' & _ & Hlk). congruence.
    + intros r c id ti HnX Hc Hid.
      destruct (Hgrid r c id Hc) as (ti' & Hid' & Hcov & Hall' & Hunit).
      assert (ti' = ti) as -> by congruence.
      exists ti. split_and!; [by apply Hkeep|done| |done].
      intros r' c' Hcov'. split; [done|]. intros HX.
      specialize (Hall r' c' HX). specialize (Hall' r' c' Hcov').
      assert (id = tile) as -> by congruence.
      assert (ti = t) as -> by congruence. done.
  - unfold registry_inv. rewrite Hcw, Hct. split_and!.
    + rewrite (length_delete (couple_widget s)), (length_delete (couple_tile s));
        [lia|..]; (eexists; first [by apply py_list_index_lookup | done]).
    + apply (sublist_NoDup _ (couple_widget s)); [done|apply sublist_delete].
    + apply (sublist_NoDup _ (couple_tile s)); [done|apply sublist_delete].
    + intros id Hid.
      assert (id <> tile) as Hne.
      { intros ->. by eapply (NoDup_delete_lookup tile (couple_tile s) index). }
      apply list_elem_of_delete_inv in Hid.
      destruct (Hbound id Hid) as (ti & r & c & Hti & Hfi & Hci).
      exists ti, r, c. split_and!; [by apply Hkeep|done|].
      rewrite Hout; [done|]. by eapply Hother.
Qed.

(** [resizeTile] on a bound tile, once a growth scan has granted cells. *)
Lemma resizeTile_grow_bound s direction from_row from_column tile_number
    tile t index widget granted cells :
  wf s -> is_direction direction -> rect_in_grid s from_row from_column t ->
  cell s from_row from_column = Some tile -> tiles s !! tile = Some t ->
  tile_number * (fst direction + snd direction) > 0 ->
  __getTilesToMerge s direction from_row from_column tile_number = inr (granted, cells) ->
  cells <> [] -> (forall r c, (r, c) ∈ cells -> in_grid s r c) ->
  py_list_index tile (couple_tile s) = inr index ->
  couple_widget s !! index = Some widget ->
  let t' := resized direction from_row from_column granted t in
  exists s',
    resizeTile direction from_row from_column tile_number s = (s', inr tt)
    /\ wf s' /\ tiles s' = <[tile := t']> (tiles s)
    /\ couple_widget s' = couple_widget s /\ couple_tile s' = couple_tile s
    /\ tileResized s' = tileResized s ++ [resize_event widget t']
    /\ (forall r c, cell s' r c = if decide ((r, c) ∈ cells) then Some tile else cell s r c).
Proof.
  intros Hwf Hdir Hrect Hcell Ht Hgrow Hscan Hne Hin Hidx Hw t'.
  assert (resize_scan s direction from_row from_column tile_number = inr (granted, cells))
    as Hscan'.
  { unfold resize_scan. by rewrite (proj2 (Z.gtb_gt _ _)) by lia. }
  destruct (resize_scan_total s direction from_row from_column tile_number tile t)
    as (granted' & cells' & Hscan'' & _ & Hfit); [done..|].
  assert (granted' = granted) as -> by congruence. fold t' in Hfit.
  pose proof (resizeTile_scan s direction from_row from_column tile_number tile t granted cells
                (tile_at_cell _ _ _ _ Hcell) Ht Hscan') as Hrun.
  destruct cells as [|cell0 cells]; [done|]. fold t' in Hrun.
  rewrite (proj2 (Z.gtb_gt _ _)) in Hrun by lia.
  destruct (mergeTiles_spec tile t (getFromRow t') (getFromColumn t') (getRowSpan t')
              (getColumnSpan t') (cell0 :: cells) s Hwf Ht Hin Hfit)
    as (s1 & Hmut & Hwf1 & Htl & (_ & _ & Hcw & Hct & Hev) & Hcells).
  rewrite (bind_inr _ _ _ _ _ Hmut) in Hrun.
  rewrite (resize_emit_bound tile t' index widget) in Hrun by congruence.
  eexists. split; [exact Hrun|]. split; [done|]. simpl.
  split_and!; [done..|by rewrite Hev|done].
Qed.

(** [resizeTile] on a bound tile, once a shrink scan has listed cells. *)
Lemma resizeTile_shrink_bound s direction from_row from_column tile_number
    tile t index widget granted cells :
  wf s -> is_direction direction -> rect_in_grid s from_row from_column t ->
  cell s from_row from_column = Some tile -> tiles s !! tile = Some t ->
  tile_number * (fst direction + snd direction) <= 0 ->
  __getTilesToSplit s direction from_row from_column tile_number = inr (granted, cells) ->
  cells <> [] -> (forall r c, (r, c) ∈ cells -> in_grid s r c) ->
  py_list_index tile (couple_tile s) = inr index ->
  couple_widget s !! index = Some widget ->
  let t' := resized direction from_row from_column granted t in
  exists s',
    resizeTile direction from_row from_column tile_number s = (s', inr tt)
    /\ wf s' /\ tiles s' = <[tile := t']> (tiles s ++ unit_tiles cells)
    /\ couple_widget s' = couple_widget s /\ couple_tile s' = couple_tile s
    /\ tileResized s' = tileResized s ++ [resize_event widget t']
    /\ (forall r c, (r, c) ∉ cells -> cell s' r c = cell s r c)
    /\ (forall r c, (r, c) ∈ cells ->
          exists new, cell s' r c = Some new /\ (length (tiles s) <= new)%nat
                      /\ tiles s' !! new = Some (Tile_new r c 1 1)).
Proof.
  intros Hwf Hdir Hrect Hcell Ht Hshrink Hscan Hne Hin Hidx Hw t'.
  assert ((tile_number * (fst direction + snd direction) >? 0) = false) as Hdec.
  { rewrite Z.gtb_ltb. apply Z.ltb_ge. lia. }
  assert (resize_scan s direction from_row from_column tile_number = inr (granted, cells))
    as Hscan'.
  { unfold resize_scan. by rewrite Hdec. }
  destruct (resize_scan_total s direction from_row from_column tile_number tile t)
    as (granted' & cells' & Hscan'' & _ & Hfit); [done..|].
  assert (granted' = granted) as -> by congruence. fold t' in Hfit.
  pose proof (resizeTile_scan s direction from_row from_column tile_number tile t granted cells
                (tile_at_cell _ _ _ _ Hcell) Ht Hscan') as Hrun.
  destruct cells as [|cell0 cells]; [done|]. fold t' in Hrun.
  rewrite Hdec in Hrun.
  destruct (splitTiles_spec tile t (getFromRow t') (getFromColumn t') (getRowSpan t')
              (getColumnSpan t') (cell0 :: cells) s Hwf Ht Hin Hfit)
    as (s1 & Hmut & Hwf1 & (_ & _ & Hcw & Hct & Hev) & Htl & Hout & Hnew).
  rewrite (bind_inr _ _ _ _ _ Hmut) in Hrun.
  rewrite (resize_emit_bound tile t' index widget) in Hrun by congruence.
  eexists. split; [exact Hrun|]. split; [done|]. simpl.
  split_and!; [done..|by rewrite Hev|done|done].
Qed.

(** The rectangle after a growth is the old rectangle and the granted
    strips. *)
Lemma covers_resized_grow direction from_row from_column t k r c :
  is_direction direction ->
  getFromRow t = from_row -> getFromColumn t = from_column ->
  1 <= getRowSpan t -> 1 <= getColumnSpan t -> 0 <= k ->
  covers (resized direction from_row from_column ((fst direction + snd direction) * k) t) r c
  <-> covers t r c
      \/ exists i, 0 <= i < k /\ (r, c) ∈ growth_strip direction from_row from_column t i.
Proof.
  intros Hdir Hr Hc Hrs Hcs Hk. unfold covers, resized, growth_strip.
  destruct Hdir as [-> | [-> | [-> | ->]]]; simpl; split.
  all: try (intros [H|(i & Hi & (j & [= -> ->] & Hj%elem_of_seqZ)%list_elem_of_fmap)]; lia).
  - intros H. destruct (decide (c < from_column + getColumnSpan t)); [left; lia|right].
    exists (c - from_column - getColumnSpan t). split; [lia|].
    apply list_elem_of_fmap. exists (r - from_row). split; [f_equal; lia|].
    apply elem_of_seqZ. lia.
  - intros H. destruct (decide (from_column <= c)); [left; lia|right].
    exists (from_column - 1 - c). split; [lia|].
    apply list_elem_of_fmap. exists (r - from_row). split; [f_equal; lia|].
    apply elem_of_seqZ. lia.
  - intros H. destruct (decide (r < from_row + getRowSpan t)); [left; lia|right].
    exists (r - from_row - getRowSpan t). split; [lia|].
    apply list_elem_of_fmap. exists (c - from_column). split; [f_equal; lia|].
    apply elem_of_seqZ. lia.
  - intros H. destruct (decide (from_row <= r)); [left; lia|right].
    exists (from_row - 1 - r). split; [lia|].
    apply list_elem_of_fmap. exists (c - from_column). split; [f_equal; lia|].
    apply elem_of_seqZ. lia.
Qed.

(** The rectangle after a shrink lies in the old one and still holds
    its own origin. *)
Lemma covers_resized_shrink direction from_row from_column t granted :
  is_direction direction ->
  getFromRow t = from_row -> getFromColumn t = from_column ->
  1 <= getRowSpan t -> 1 <= getColumnSpan t ->
  granted * (fst direction + snd direction) <= 0 ->
  Z.abs granted <= axis_span direction t - 1 ->
  let t' := resized direction from_row from_column granted t in
  (forall r c, covers t' r c -> covers t r c)
  /\ covers t' (getFromRow t') (getFromColumn t').
Proof.
  intros Hdir Hr Hc Hrs Hcs Hsign Habs. unfold covers, resized, axis_span in *.
  destruct Hdir as [-> | [-> | [-> | ->]]]; simpl in *; (split; [intros r c|]; lia).
Qed.

Lemma bound_anchor_inv s from_row from_column :
  Inv s -> bound_anchor s from_row from_column ->
  exists tile t index widget,
    cell s from_row from_column = Some tile /\ tiles s !! tile = Some t
    /\ getFromRow t = from_row /\ getFromColumn t = from_column
    /\ isFilled t = true /\ rect_in_grid s from_row from_column t
    /\ tile ∈ couple_tile s
    /\ py_list_index tile (couple_tile s) = inr index
    /\ couple_widget s !! index = Some widget.
Proof.
  intros (Hwf & Hgrid & Hreg) Hb. unfold bound_anchor in Hb.
  destruct (cell s from_row from_column) as [tile|] eqn:Hcell; [|done].
  destruct Hb as [Hin Hb].
  destruct (tiles s !! tile) as [t|] eqn:Ht; [|done]. destruct Hb as [Hr Hc].
  destruct Hreg as (Hlen & _ & _ & Hbound).
  destruct (Hbound tile Hin) as (t' & _ & _ & Ht' & Hf & _).
  assert (t' = t) as -> by congruence.
  destruct (py_list_index_elem_of _ _ Hin) as [index Hidx].
  pose proof (lookup_lt_Some _ _ _ (py_list_index_lookup _ _ _ Hidx)) as Hlt.
  destruct (lookup_lt_is_Some_2 (couple_widget s) index) as [widget Hw]; [lia|].
  pose proof (grid_inv_tile_in_grid s _ _ tile t Hwf Hgrid Hcell Ht) as Htg.
  exists tile, t, index, widget. split_and!; try done.
  unfold rect_in_grid. unfold tile_in_grid in Htg. by rewrite <- Hr, <- Hc.
Qed.

Lemma Inv_resize_grow s direction from_row from_column tile_number :
  Inv s -> valid_op s (OpResize direction from_row from_column tile_number) ->
  tile_number * (fst direction + snd direction) > 0 ->
  exists s',
    resizeTile direction from_row from_column tile_number s = (s', inr tt) /\ Inv s'.
Proof.
  intros HInv [Hdir Hb] Hgrow.
  destruct (bound_anchor_inv s from_row from_column HInv Hb)
    as (tile & t & index & widget & Hcell & Ht & Hr & Hc & Hf & Hrect & Hin & Hidx & Hw).
  destruct HInv as (Hwf & Hgrid & Hreg).
  destruct (getTilesToMerge_free_strips s direction from_row from_column tile_number tile t)
    as (cells & Hscan & Hk & Hfree & _ & Hcells & _); [done..|].
  set (k := free_strips s direction from_row from_column t _) in *.
  destruct (decide (cells = [])) as [->|Hne].
  { exists s. split; [|done].
    rewrite (resizeTile_scan s direction _ _ _ tile t
               ((fst direction + snd direction) * k) []); [done| |done|].
    - by apply tile_at_cell.
    - unfold resize_scan. by rewrite (proj2 (Z.gtb_gt _ _)) by lia. }
  assert (forall r c, (r, c) ∈ cells -> in_grid s r c) as Hgridcells.
  { intros r c (i & Hi & Hrc)%Hcells.
    eapply growth_strip_in_grid; [done..| |done]. lia. }
  assert (forall r c, (r, c) ∈ cells -> unfilled_at s r c = true) as Hunfilled.
  { intros r c (i & Hi & Hrc)%Hcells. specialize (Hfree i Hi).
    unfold strip_free in Hfree. rewrite forallb_forall in Hfree.
    apply (Hfree (r, c)). by apply list_elem_of_In. }
  destruct (resizeTile_grow_bound s direction from_row from_column tile_number
              tile t index widget _ cells Hwf Hdir Hrect Hcell Ht Hgrow Hscan Hne Hgridcells
              Hidx Hw)
    as (s' & Hrun & Hwf' & Htiles & Hcw & Hct & Hev & Hcell').
  set (T := resized direction from_row from_column ((fst direction + snd direction) * k) t) in *.
  destruct Hrect as (?&?&?&?&?&?).
  assert (forall r c, covers T r c <-> covers t r c \/ (r, c) ∈ cells) as HT.
  { intros r c. unfold T. rewrite covers_resized_grow by (done || lia).
    by rewrite Hcells. }
  destruct (Hgrid _ _ _ Hcell) as (t0 & Ht0 & _ & Hall & _).
  assert (t0 = t) as -> by congruence.
  assert (forall r c, cell s r c = Some tile -> covers t r c) as Hold.
  { intros r c Hc'. destruct (Hgrid _ _ _ Hc') as (t0 & Ht0' & ? & _).
    by assert (t0 = t) as -> by congruence. }
  assert (forall r c, covers T r c -> cell s' r c = Some tile) as Hin'.
  { intros r c [Hcov|Hrc]%HT; rewrite Hcell'; case_decide; try done. by apply Hall. }
  assert (forall r c, ~ covers T r c -> cell s' r c = cell s r c) as Hout.
  { intros r c Hn. rewrite Hcell'. rewrite decide_False; [done|].
    intros Hrc. apply Hn, HT. by right. }
  pose proof (lookup_lt_Some _ _ _ Ht) as Hlt.
  exists s'. split; [done|]. split; [done|]. split.
  - apply (grid_inv_merge s s' tile T); try done.
    + intros r c Hc'. apply HT. left. by apply Hold.
    + intros r c [Hcov|Hrc]%HT; [left; by apply Hall|right; by apply Hunfilled].
  - destruct Hreg as (Hlen & Hndw & Hndt & Hbound).
    unfold registry_inv. rewrite Hcw, Hct. split_and!; [done..|].
    intros id Hid. destruct (decide (id = tile)) as [->|Hne'].
    + exists T, from_row, from_column. rewrite Htiles, list_lookup_insert_eq by done.
      split_and!; [done..|]. apply Hin', HT. left. by apply Hold.
    + destruct (Hbound id Hid) as (ti & r & c & Hti & Hfi & Hci).
      exists ti, r, c. rewrite Htiles, list_lookup_insert_ne by done.
      split_and!; [done..|]. rewrite Hcell'. rewrite decide_False; [done|].
      intros Hrc. apply Hunfilled, unfilled_at_true in Hrc as (id' & ti' & ? & ? & ?).
      congruence.
Qed.

Lemma Inv_resize_shrink s direction from_row from_column tile_number :
  Inv s -> valid_op s (OpResize direction from_row from_column tile_number) ->
  tile_number * (fst direction + snd direction) <= 0 ->
  exists s',
    resizeTile direction from_row from_column tile_number s = (s', inr tt) /\ Inv s'.
Proof.
  intros HInv [Hdir Hb] Hshrink.
  destruct (bound_anchor_inv s from_row from_column HInv Hb)
    as (tile & t & index & widget & Hcell & Ht & Hr & Hc & Hf & Hrect & Hin & Hidx & Hw).
  destruct HInv as (Hwf & Hgrid & Hreg).
  pose proof Hrect as (?&?&?&?&?&?).
  destruct (getTilesToSplit_shrink s direction from_row from_column tile_number tile t)
    as (granted & cells & Hscan & Hsign & Habs & Hnil & Hcells); [done..|].
  assert ((tile_number * (fst direction + snd direction) >? 0) = false) as Hdec.
  { rewrite Z.gtb_ltb. apply Z.ltb_ge. lia. }
  destruct (decide (cells = [])) as [->|Hne].
  { exists s. split; [|done].
    rewrite (resizeTile_scan s direction _ _ _ tile t granted []); [done| |done|].
    - by apply tile_at_cell.
    - unfold resize_scan. by rewrite Hdec. }
  set (T := resized direction from_row from_column granted t) in *.
  assert (forall r c, (r, c) ∈ cells <-> covers t r c /\ ~ covers T r c) as HX.
  { intros r c. rewrite Hcells. unfold covers at 2. by rewrite Hr, Hc. }
  destruct (Hgrid _ _ _ Hcell) as (t0 & Ht0 & _ & Hall & _).
  assert (t0 = t) as -> by congruence.
  assert (forall r c, (r, c) ∈ cells -> in_grid s r c) as Hgridcells.
  { intros r c [Hcov _]%HX. by destruct (cell_Some_in_grid s r c tile Hwf (Hall r c Hcov)). }
  destruct (resizeTile_shrink_bound s direction from_row from_column tile_number
              tile t index widget granted cells Hwf Hdir Hrect Hcell Ht Hshrink Hscan Hne
              Hgridcells Hidx Hw)
    as (s' & Hrun & Hwf' & Htiles & Hcw & Hct & Hev & Hout & Hnew).
  fold T in Htiles, Hev.
  destruct (covers_resized_shrink direction from_row from_column t granted)
    as [Hsub Horigin]; [done..|lia|]. fold T in Hsub, Horigin.
  pose proof (lookup_lt_Some _ _ _ Ht) as Hlt.
  assert (tiles s' !! tile = Some T) as HtT.
  { rewrite Htiles. apply list_lookup_insert_eq. rewrite length_app. lia. }
  assert (forall id ti, id <> tile -> tiles s !! id = Some ti -> tiles s' !! id = Some ti)
    as Hkeep.
  { intros id ti Hne' Hid. rewrite Htiles, list_lookup_insert_ne by done.
    by apply lookup_app_l_Some. }
  exists s'. split; [done|]. split; [done|]. split.
  - apply (grid_inv_split s s' (fun r c => covers t r c /\ ~ covers T r c)); [apply _|done|..].
    + intros r c Hn. apply Hout. by rewrite HX.
    + intros r c id HXrc Hc'. destruct (Hnew r c) as (new & Hcn & _ & Hlk); [by apply HX|].
      congruence.
    + intros r c id ti HnX Hc' Hid.
      destruct (Hgrid r c id Hc') as (ti' & Hid' & Hcov & Hall' & Hunit).
      assert (ti' = ti) as -> by congruence.
      destruct (decide (id = tile)) as [->|Hne'].
      * assert (ti = t) as -> by congruence.
        exists T. split; [done|].
        assert (covers T r c) as HcT.
        { destruct (decide (covers T r c)); [done|]. destruct HnX. by split. }
        split_and!; [done| |].
        -- intros r' c' HT'. split; [by apply Hsub|]. by intros [_ ?].
        -- unfold T, resized. simpl. congruence.
      * exists ti. split_and!; [by apply Hkeep|done| |done].
        intros r' c' Hcov'. split; [done|]. intros [Hcovt _].
        specialize (Hall r' c' Hcovt). specialize (Hall' r' c' Hcov'). congruence.
  - destruct Hreg as (Hlen & Hndw & Hndt & Hbound).
    unfold registry_inv. rewrite Hcw, Hct. split_and!; [done..|].
    intros id Hid. destruct (decide (id = tile)) as [->|Hne'].
    + exists T, (getFromRow T), (getFromColumn T).
      split_and!; [done|done|].
      rewrite Hout; [by apply Hall, Hsub|]. rewrite HX. by intros [_ ?].
    + destruct (Hbound id Hid) as (ti & r & c & Hti & Hfi & Hci).
      exists ti, r, c. split_and!; [by apply Hkeep|done|].
      rewrite Hout; [done|]. rewrite HX. intros [Hcovt _].
      specialize (Hall r c Hcovt). congruence.
Qed.

Lemma Inv_resizeTile s direction from_row from_column tile_number :
  Inv s -> valid_op s (OpResize direction from_row from_column tile_number) ->
  exists s',
    resizeTile direction from_row from_column tile_number s = (s', inr tt) /\ Inv s'.
Proof.
  intros HInv Hvalid.
  destruct (decide (tile_number * (fst direction + snd direction) > 0)).
  - by apply Inv_resize_grow.
  - apply Inv_resize_shrink; [done..|lia].
Qed.

Lemma Inv_hardSplitTiles s from_row from_column cells :
  Inv s -> valid_op s (OpHardSplit from_row from_column cells) ->
  exists s', exec (OpHardSplit from_row from_column cells) s = (s', inr tt) /\ Inv s'.
Proof.
  intros (Hwf & Hgrid & Hreg) [Hanchor Hfree]. rewrite Forall_forall in Hfree.
  assert (forall r c, (r, c) ∈ cells ->
            exists id ti, cell s r c = Some id /\ tiles s !! id = Some ti
                          /\ isFilled ti = false) as Hunfilled.
  { intros r c Hrc. apply unfilled_at_true. by apply (Hfree (r, c)). }
  destruct (hardSplitTiles_spec from_row from_column cells s Hwf Hanchor)
    as (s' & new & Hrun & Hwf' & (HR & HC & Hcw & Hct & Hev) & _ & Htiles & Hout & Hnew).
  { intros r c (id & ti & Hc & _)%Hunfilled. by destruct (cell_Some_in_grid s r c id Hwf Hc). }
  assert (forall id ti, tiles s !! id = Some ti -> tiles s' !! id = Some ti) as Hkeep.
  { intros id ti Hid. rewrite Htiles. by apply lookup_app_l_Some. }
  exists s'. simpl. rewrite (bind_inr _ _ _ _ _ Hrun).
  split; [done|]. split; [done|]. split.
  - apply (grid_inv_split s s' (fun r c => (r, c) ∈ cells)); [apply _|done|done|..].
    + intros r c id HX Hc. destruct (Hnew r c HX) as (new' & Hc' & _ & Hlk). congruence.
    + intros r c id ti HnX Hc Hid.
      destruct (Hgrid r c id Hc) as (ti' & Hid' & Hcov & Hall & Hunit).
      assert (ti' = ti) as -> by congruence.
      exists ti. split_and!; [by apply Hkeep|done| |done].
      intros r' c' Hcov'. split; [done|]. intros HX.
      destruct (Hunfilled r' c' HX) as (id' & ti' & Hc' & Hid'' & Hf).
      specialize (Hall r' c' Hcov').
      assert (id' = id) as -> by congruence. assert (ti' = ti) as -> by congruence.
      destruct (Hgrid r' c' id Hc') as (ti'' & ? & _ & _ & Hunit').
      assert (ti'' = ti) as -> by congruence.
      rewrite (Hunit' Hf) in Hcov. apply covers_Tile_new in Hcov as [-> ->]. done.
  - destruct Hreg as (Hlen & Hndw & Hndt & Hbound).
    unfold registry_inv. rewrite Hcw, Hct. split_and!; [done..|].
    intros id Hid. destruct (Hbound id Hid) as (ti & r & c & Hti & Hfi & Hci).
    exists ti, r, c. split_and!; [by apply Hkeep|done|].
    rewrite Hout; [done|]. intros (id' & ti' & ? & ? & ?)%Hunfilled. congruence.
Qed.

(** ** The constructor *)

Lemma append_to_last_row_spec s m row tile :
  tile_map s = m ++ [row] ->
  append_to_last_row tile s = (set_tile_map (m ++ [row ++ [tile]]) s, inr tt).
Proof.
  intros Hmap. unfold append_to_last_row.
  assert (py_index (tile_map s) (-1) = Some (length m)) as ->.
  { unfold py_index. rewrite Hmap, length_app. simpl.
    case_decide; [f_equal; lia | lia]. }
  rewrite Hmap. rewrite list_lookup_middle by done.
  do 2 f_equal. replace (length m) with (length m + 0)%nat at 1 by lia.
  by rewrite insert_app_r.
Qed.

Lemma init_inv_lt s i j row tile :
  init_inv s -> tile_map s !! i = Some row -> row !! j = Some tile ->
  (tile < length (tiles s))%nat.
Proof. intros H Hi Hj. eapply lookup_lt_Some. exact (H i j row tile Hi Hj). Qed.

Lemma createTileMap_row i_row n a s m row :
  tile_map s = m ++ [row] -> length row = a -> i_row = Z.of_nat (length m) ->
  init_inv s ->
  i_row <= INT_MAX -> Z.of_nat a + Z.of_nat n <= INT_MAX ->
  exists s' row',
    for_each ((fun i => Z.of_nat i + 0) <$> seq a n)
      (fun i_column =>
         let* tile := __createTile i_row i_column 1 1 false in append_to_last_row tile) s
    = (s', inr tt)
    /\ tile_map s' = m ++ [row'] /\ length row' = (a + n)%nat
    /\ init_inv s' /\ frame s s'.
Proof.
  revert a s row. induction n as [|n IH]; intros a s row Hmap Hlen -> Hinv Hrfit Hcfit.
  { exists s, row. split_and!; [done|done|lia|done|apply frame_refl]. }
  set (tile := length (tiles s)).
  set (new := Tile_new (Z.of_nat (length m)) (Z.of_nat a + 0) 1 1).
  set (s1 := set_tile_map (m ++ [row ++ [tile]]) (set_tiles (tiles s ++ [new]) s)).
  assert (init_inv s1) as Hinv1.
  { intros i j r id Hi Hj. simpl in Hi. simpl.
    destruct (decide (i = length m)) as [->|Hne].
    - rewrite list_lookup_middle in Hi by done. injection Hi as <-.
      destruct (decide (j = a)) as [->|Hne].
      + rewrite <- Hlen in Hj. rewrite list_lookup_middle in Hj by done.
        injection Hj as <-. unfold tile. rewrite list_lookup_middle by done.
        unfold new. by rewrite Z.add_0_r.
      + assert (row !! j = Some id) as Hj'.
        { apply lookup_app_Some in Hj as [?|[Hge Hj]]; [done|].
          apply list_lookup_singleton_Some in Hj as [? _]. lia. }
        apply lookup_app_l_Some. apply (Hinv (length m) j row id); [|done].
        rewrite Hmap. by apply list_lookup_middle.
    - assert (tile_map s !! i = Some r) as Hi'.
      { rewrite Hmap. apply lookup_app_Some in Hi as [Hi|[Hge Hi]].
        - by apply lookup_app_l_Some.
        - apply list_lookup_singleton_Some in Hi as [? _]. lia. }
      apply lookup_app_l_Some. by apply (Hinv i j r id). }
  destruct (IH (S a) s1 (row ++ [tile])) as (s' & row' & Hrun & Hmap' & Hlen' & Hinv' & Hf');
    [done|rewrite length_app; simpl; lia|done|done|done|lia|].
  exists s', row'. simpl. rewrite (bind_inr _ _ s s1 tt).
  2:{ rewrite (bind_inr _ _ s (set_tiles (tiles s ++ [new]) s) tile).
      - by rewrite (append_to_last_row_spec _ m row).
      - unfold __createTile. fold tile. fold new.
        rewrite (bind_inr _ _ _ (set_tiles (tiles s ++ [new]) s) tt); [done|].
        apply qt_call_ok. solve_c_int. }
  split; [done|]. split; [done|]. split; [lia|]. split; [done|].
  eapply frame_trans; [|exact Hf']. done.
Qed.

Lemma createTileMap_rows C n a s :
  length (tile_map s) = a -> init_inv s ->
  Forall (fun row => length row = Z.to_nat C) (tile_map s) ->
  Z.of_nat a + Z.of_nat n <= INT_MAX -> C <= INT_MAX ->
  exists s',
    for_each ((fun i => Z.of_nat i + 0) <$> seq a n)
      (fun i_row =>
         let* _ := append_row in
         for_each (py_range C) (fun i_column =>
           let* tile := __createTile i_row i_column 1 1 false in append_to_last_row tile)) s
    = (s', inr tt)
    /\ length (tile_map s') = (a + n)%nat /\ init_inv s'
    /\ Forall (fun row => length row = Z.to_nat C) (tile_map s')
    /\ frame s s'.
Proof.
  revert a s. induction n as [|n IH]; intros a s Hlen Hinv Hcols Hrfit Hcfit.
  { exists s. split_and!; [done|lia|done|done|apply frame_refl]. }
  set (s1 := set_tile_map (tile_map s ++ [[]]) s).
  assert (init_inv s1) as Hinv1.
  { intros i j row id Hi Hj. simpl in Hi.
    apply lookup_app_Some in Hi as [Hi|[_ Hi]]; [by apply (Hinv i j row id)|].
    apply list_lookup_singleton_Some in Hi as [_ <-]. done. }
  destruct (createTileMap_row (Z.of_nat a + 0) (Z.to_nat C) 0 s1 (tile_map s) [])
    as (s2 & row' & Hrun2 & Hmap2 & Hlen2 & Hinv2 & Hf2); [done|done|lia|done|lia|lia|].
  destruct (IH (S a) s2) as (s' & Hrun & Hlen' & Hinv' & Hcols' & Hf').
  { rewrite Hmap2, length_app. simpl. lia. }
  { done. }
  { rewrite Hmap2. apply Forall_app. split; [done|]. by apply Forall_singleton. }
  { lia. }
  { done. }
  exists s'. simpl. rewrite (bind_inr _ _ s s2 tt).
  2:{ rewrite (bind_inr _ _ s s1 tt) by done. exact Hrun2. }
  split; [done|]. split; [lia|]. split; [done|]. split; [done|].
  eapply frame_trans; [|exact Hf']. eapply frame_trans; [|exact Hf2]. done.
Qed.

(** The calls of [__setGridMinimalSize] leave the layout alone. *)
Lemma for_each_qt_call (l : list Z) s :
  exists res, for_each l (fun i => qt_call [i]) s = (s, res).
Proof.
  induction l as [|i l [res IH]]; [by eexists|]. simpl. unfold bind, qt_call.
  case_bool_decide; [|by eexists]. simpl. by eexists.
Qed.

(** [__setGridMinimalSize] returns exactly when the dimensions fit a C
    [int]. *)
Lemma setGridMinimalSize_spec s :
  0 <= row_number s -> 0 <= column_number s ->
  (row_number s <= INT_MAX -> column_number s <= INT_MAX ->
   __setGridMinimalSize s = (s, inr tt))
  /\ (snd (__setGridMinimalSize s) = inr tt ->
      row_number s <= INT_MAX /\ column_number s <= INT_MAX).
Proof.
  intros HR HC. unfold __setGridMinimalSize. split.
  - intros HRfit HCfit.
    rewrite (bind_inr _ _ s s tt).
    2:{ apply for_each_reads. intros i Hi%elem_of_py_range. apply qt_call_ok. solve_c_int. }
    rewrite (bind_inr _ _ s s tt) by (apply qt_call_ok; solve_c_int).
    rewrite (bind_inr _ _ s s tt).
    2:{ apply for_each_reads. intros i Hi%elem_of_py_range. apply qt_call_ok. solve_c_int. }
    apply qt_call_ok. solve_c_int.
  - destruct (for_each_qt_call (py_range (row_number s)) s) as [[e|[]] Hrows].
    { by rewrite (bind_inl _ _ _ _ _ Hrows). }
    rewrite (bind_inr _ _ _ _ _ Hrows).
    destruct (decide (Forall c_int [row_number s; 1])) as [HRfit|HRfit].
    2:{ by rewrite (bind_inl _ _ _ _ _ (qt_call_overflow _ s HRfit)). }
    rewrite (bind_inr _ _ _ _ _ (qt_call_ok _ s HRfit)).
    destruct (for_each_qt_call (py_range (column_number s)) s) as [[e|[]] Hcols].
    { by rewrite (bind_inl _ _ _ _ _ Hcols). }
    rewrite (bind_inr _ _ _ _ _ Hcols).
    destruct (decide (Forall c_int [column_number s; 1])) as [HCfit|HCfit].
    2:{ by rewrite (qt_call_overflow _ s HCfit). }
    intros _. revert HRfit HCfit. rewrite !Forall_cons. unfold c_int. lia.
Qed.

(** The constructor returns only for dimensions that fit a C [int]. *)
Lemma init_returns R C :
  0 <= R -> 0 <= C -> snd (__init__ R C) = inr tt -> R <= INT_MAX /\ C <= INT_MAX.
Proof.
  intros HR HC. unfold __init__. set (s0 := mkLayout R C [] [] [] [] []).
  destruct (setGridMinimalSize_spec s0 HR HC) as [_ Hfit].
  unfold bind. destruct (__setGridMinimalSize s0) as [s1 [e|[]]]; [done|].
  intros _. by apply Hfit.
Qed.

Lemma init_spec R C :
  0 <= R <= INT_MAX -> 0 <= C <= INT_MAX ->
  exists s,
    __init__ R C = (s, inr tt) /\ row_number s = R /\ column_number s = C
    /\ couple_widget s = [] /\ couple_tile s = [] /\ tileResized s = []
    /\ length (tile_map s) = Z.to_nat R
    /\ Forall (fun row => length row = Z.to_nat C) (tile_map s)
    /\ init_inv s.
Proof.
  intros HR HC. set (s0 := mkLayout R C [] [] [] [] []).
  destruct (createTileMap_rows C (Z.to_nat R) 0 s0)
    as (s & Hrun & Hlen & Hinv & Hcols & (? & ? & ? & ? & ?)); [done| |done|simpl; lia|lia|].
  { intros i j row id Hi. done. }
  exists s. split; [|split_and!; done].
  unfold __init__. fold s0.
  destruct (setGridMinimalSize_spec s0) as [Hmin _]; [simpl; lia..|].
  rewrite (bind_inr _ _ s0 s0 tt) by (apply Hmin; simpl; lia).
  exact Hrun.
Qed.

Lemma Inv_fresh R C : 0 <= R <= INT_MAX -> 0 <= C <= INT_MAX -> Inv (fresh R C).
Proof.
  intros HR HC.
  destruct (init_spec R C HR HC) as (s & Hrun & HRs & HCs & Hcw & Hct & _ & Hlen & Hcols & Hinv).
  unfold fresh. rewrite Hrun. simpl.
  assert (wf s) as Hwf.
  { split; [lia|]. split; [|lia]. apply Forall_lookup. intros i row Hi.
    rewrite Forall_lookup in Hcols. split; [rewrite (Hcols i row Hi); lia|].
    apply Forall_lookup. intros j id Hj. by eapply init_inv_lt. }
  split; [done|]. split.
  - intros r c id Hcell. pose proof Hcell as Hcell'. unfold cell in Hcell.
    case_decide as Hnn; [|done].
    destruct (tile_map s !! Z.to_nat r) as [row|] eqn:Hrow; [|done]. simpl in Hcell.
    pose proof (Hinv _ _ _ _ Hrow Hcell) as Hid. rewrite !Z2Nat.id in Hid by lia.
    eexists. split; [exact Hid|]. split; [by apply covers_Tile_new|]. split; [|done].
    by intros r' c' [-> ->]%covers_Tile_new.
  - unfold registry_inv. rewrite Hcw, Hct. split_and!; [done|apply NoDup_nil_2..|].
    by intros id ?%elem_of_nil.
Qed.

(** Every operation within its domain returns and keeps the invariant. *)
Lemma Inv_exec s op :
  Inv s -> valid_op s op -> exists s', exec op s = (s', inr tt) /\ Inv s'.
Proof.
  intros HInv Hvalid. destruct op.
  - by apply Inv_addWidget.
  - by apply Inv_removeWidget.
  - by apply Inv_resizeTile.
  - by apply Inv_hardSplitTiles.
Qed.

(** A layout is only reached from a grid the constructor returned. *)
Lemma reachable_init ok R C s :
  0 <= R -> 0 <= C -> reachable ok R C s -> 0 <= R <= INT_MAX /\ 0 <= C <= INT_MAX.
Proof.
  intros HR HC Hreach. induction Hreach as [Hinit|s op _ IH Hvalid]; [|done].
  destruct (init_returns R C HR HC Hinit). lia.
Qed.

Lemma reachable_Inv R C s :
  0 <= R -> 0 <= C -> reachable valid_op R C s -> Inv s.
Proof.
  intros HR HC Hreach. induction Hreach as [Hinit|s op _ IH Hvalid].
  - destruct (init_returns R C HR HC Hinit). apply Inv_fresh; lia.
  - destruct (Inv_exec s op IH Hvalid) as (s' & Hrun & HInv).
    unfold run. by rewrite Hrun.
Qed.

(** ** The partition over sequences of operations *)

(** C1, as stated, fails.  Three sequences of operations that the code
    accepts, each on a fresh grid of one row, end in a layout that is
    not a partition: a placement over two cells followed by a hard
    split of the first cell only, which leaves the second cell
    referencing the tile of two columns next to the new unit tile; a
    placement over three cells followed by a shrink addressed to the
    second cell of the tile, which moves the origin of the tile to that
    cell while the first cell still references it; and a placement with
    a row span of zero. *)
Lemma accepted_operations_counterexample :
  let s1 := run (exec (OpHardSplit 0 0 [(0, 0)]))
              (run (exec (OpAdd 7%nat 0 0 1 2)) (fresh 1 2)) in
  let s2 := run (exec (OpResize east 0 1 (-1)))
              (run (exec (OpAdd 7%nat 0 0 1 3)) (fresh 1 4)) in
  let s3 := run (exec (OpAdd 7%nat 0 0 0 2)) (fresh 1 2) in
  (reachable accepted 1 2 s1 /\ ~ partition s1)
  /\ (reachable accepted 1 4 s2 /\ ~ partition s2)
  /\ (reachable accepted 1 2 s3 /\ ~ partition s3).
Proof.
  intros s1 s2 s3. split; [|split]; split.
  - apply reachable_step; [apply reachable_step; [apply reachable_fresh; reflexivity|]|];
      by vm_compute.
  - intros (_ & Hdis & _).
    apply (Hdis 0 0 0 1 2%nat 0%nat (Tile_new 0 0 1 1) (mkTile 0 0 1 2 true (Some 7%nat))
             ltac:(reflexivity) ltac:(reflexivity) ltac:(lia)
             ltac:(reflexivity) ltac:(reflexivity) 0 0);
      unfold covers; simpl; lia.
  - apply reachable_step; [apply reachable_step; [apply reachable_fresh; reflexivity|]|];
      by vm_compute.
  - intros (Hcov & _). destruct (Hcov 0 0) as (tile & t & Hcell & Ht & Hc).
    + by vm_compute.
    + vm_compute in Hcell. injection Hcell as <-.
      vm_compute in Ht. injection Ht as <-.
      destruct Hc as [_ Hcol]. simpl in Hcol. lia.
  - apply reachable_step; [apply reachable_fresh; reflexivity|]. by vm_compute.
  - intros (Hcov & _). destruct (Hcov 0 0) as (tile & t & Hcell & Ht & Hc).
    + by vm_compute.
    + vm_compute in Hcell. injection Hcell as <-.
      vm_compute in Ht. injection Ht as <-.
      destruct Hc as [Hrow _]. simpl in Hrow. lia.
Qed.

(** C1, amended.  From a fresh grid, every sequence of operations
    within their domains (a placement of an unbound item over an empty
    rectangle with spans of at least one, the removal of a bound item,
    a resize in one of the four directions addressed to the origin of
    a bound tile, a hard split of cells owned by unfilled tiles) keeps
    the grid partitioned: every cell references a tile whose rectangle
    covers it, the rectangles of distinct referenced tiles are
    disjoint, and the referenced rectangles lie in the grid.  None of
    these operations raises. *)
Theorem valid_operations_keep_partition R C s :
  0 <= R -> 0 <= C -> reachable valid_op R C s ->
  partition s /\ (forall op, valid_op s op -> accepted s op).
Proof.
  intros HR HC Hreach. pose proof (reachable_Inv R C s HR HC Hreach) as HInv.
  split; [by apply Inv_partition|].
  intros op Hvalid. destruct (Inv_exec s op HInv Hvalid) as (s' & Hrun & _).
  unfold accepted, result. by rewrite Hrun.
Qed.

Lemma valid_operations_keep_partition_witness :
  partition
    (run (exec (OpRemove 7%nat))
       (run (exec (OpResize south 0 1 (-1)))
          (run (exec (OpResize east 0 1 5))
             (run (exec (OpHardSplit 1 0 [(1, 0); (0, 0)]))
                (run (exec (OpAdd 8%nat 1 3 1 1))
                   (run (exec (OpAdd 7%nat 0 1 2 1)) (fresh 2 4))))))).
Proof.
  apply (valid_operations_keep_partition 2 4); [lia|lia|].
  repeat (apply reachable_step; [|apply (bool_decide_unpack _); vm_compute; reflexivity]).
  apply reachable_fresh. reflexivity.
Defined.

(** ** Placing then removing *)

Lemma py_list_index_app_new {A : Type} `{EqDecision A} (x : A) (l : list A) :
  x ∉ l -> py_list_index x (l ++ [x]) = inr (length l).
Proof.
  induction l as [|y l IH]; intros Hx; simpl.
  - by rewrite decide_True.
  - apply not_elem_of_cons in Hx as [Hne Hx].
    rewrite decide_False by done. by rewrite IH.
Qed.

Lemma delete_app_last {A : Type} (l : list A) (x : A) : delete (length l) (l ++ [x]) = l.
Proof. by rewrite delete_middle, app_nil_r. Qed.

(** For spans of at least one, a placement followed by the removal of
    the same item returns, and the layout it ends in cannot be told
    from the one before the placement: every cell is owned by a tile
    object with the same geometry, fill flag and item as before, the
    cells of the rectangle by unfilled unit tiles, the cells outside
    by the very same objects, and the registry is the same. *)
Lemma place_remove_round_trip s widget from_row from_column row_span column_span :
  Inv s -> valid_op s (OpAdd widget from_row from_column row_span column_span) ->
  exists s1 s2,
    addWidget widget from_row from_column row_span column_span s = (s1, inr tt)
    /\ removeWidget widget s1 = (s2, inr tt)
    /\ (forall r c, owner s2 r c = owner s r c)
    /\ (forall r c,
          from_row <= r < from_row + row_span ->
          from_column <= c < from_column + column_span ->
          owner s2 r c = Some (Tile_new r c 1 1))
    /\ (forall r c,
          ~ (from_row <= r < from_row + row_span
             /\ from_column <= c < from_column + column_span) ->
          cell s2 r c = cell s r c)
    /\ couple_widget s2 = couple_widget s /\ couple_tile s2 = couple_tile s
    /\ (widget ∉ couple_widget s2)
    /\ row_number s2 = row_number s /\ column_number s2 = column_number s.
Proof.
  intros HInv Hvalid. pose proof Hvalid as (Hw & He & Hrs & Hcs).
  destruct (Inv_addWidget s widget _ _ _ _ HInv Hvalid) as (s1 & Hrun1 & HInv1).
  destruct HInv as (Hwf & Hgrid & Hreg).
  destruct (isAreaEmpty_true_bounds _ _ _ _ _ He) as (Hr0 & Hc0 & Hr1 & Hc1).
  pose proof (area_unfilled_of_isAreaEmpty _ _ _ _ _ Hwf He) as Harea.
  destruct (Harea from_row from_column) as (tile & t & Hcell & Ht & Hf); [lia..|].
  destruct (addWidget_ok s widget _ _ _ _ tile Hwf Hw He (tile_at_cell _ _ _ _ Hcell))
    as (s1' & t0 & Hrun1' & Hwf1 & _ & Ht0 & Htiles1 & HR1 & HC1 & Hcw1 & Hct1 & _ & Hcells1);
    [lia|].
  assert (s1' = s1) as -> by congruence. assert (t0 = t) as -> by congruence.
  destruct (Hgrid _ _ _ Hcell) as (t1 & Ht1 & _ & _ & Hunit).
  assert (t1 = t) as -> by congruence. specialize (Hunit Hf).
  set (T := mkTile from_row from_column row_span column_span true (Some widget)).
  assert (tiles s1 = <[tile := T]> (tiles s)) as HtilesT.
  { rewrite Htiles1. f_equal. destruct (_ || _) eqn:Hspan; [done|].
    apply orb_false_iff in Hspan as [? ?].
    assert (row_span = 1) as -> by lia. assert (column_span = 1) as -> by lia.
    by rewrite Hunit. }
  pose proof (lookup_lt_Some _ _ _ Ht) as Hlt.
  destruct Hreg as (Hlen & Hndw & Hndt & Hbound).
  assert (bound_at s1 widget (length (couple_widget s)) tile) as Hb.
  { split.
    - rewrite Hcw1. by apply py_list_index_app_new.
    - rewrite Hct1, Hlen. by apply list_lookup_middle. }
  destruct (removeWidget_ok s1 widget _ tile T Hwf1 Hb)
    as (s2 & Hrun2 & _ & HR2 & HC2 & Hcw2 & Hct2 & _ & Htiles2 & Hout2 & Hnew2).
  { rewrite HtilesT. by apply list_lookup_insert_eq. }
  { unfold tile_in_grid. simpl. lia. }
  assert (forall r c, ~ covers T r c -> cell s2 r c = cell s r c) as Hout.
  { intros r c Hn. rewrite (Hout2 r c Hn), Hcells1. rewrite decide_False; [done|].
    intros [_ Hrc%elem_of_tail%elem_of_rect_cells]. by apply Hn. }
  assert (forall r c, covers T r c -> owner s2 r c = Some (Tile_new r c 1 1)) as Hin.
  { intros r c Hcov. destruct (Hnew2 r c Hcov) as (new & Hc2 & _ & Hlk).
    unfold owner. rewrite Hc2. done. }
  exists s1, s2. split; [done|]. split; [done|]. split; [|split; [|split]].
  - intros r c. destruct (decide (covers T r c)) as [Hcov|Hn].
    + rewrite (Hin r c Hcov). destruct Hcov as [Hr Hc]. simpl in Hr, Hc.
      destruct (Harea r c Hr Hc) as (id & ti & Hci & Hti & Hfi).
      destruct (Hgrid _ _ _ Hci) as (ti' & Hti' & _ & _ & Hui).
      assert (ti' = ti) as -> by congruence.
      unfold owner. rewrite Hci. simpl. rewrite Hti. f_equal. symmetry. by apply Hui.
    + unfold owner. rewrite (Hout r c Hn).
      destruct (cell s r c) as [id|] eqn:Hci; [|done]. simpl.
      assert (id <> tile) as Hne.
      { intros ->. destruct (Hgrid _ _ _ Hci) as (ti & Hti & Hcov & _).
        assert (ti = t) as -> by congruence. rewrite Hunit in Hcov.
        apply covers_Tile_new in Hcov as [-> ->]. apply Hn. unfold covers. simpl. lia. }
      destruct (cell_Some_in_grid s r c id Hwf Hci) as [_ Hlti].
      rewrite Htiles2, lookup_app_l by (rewrite HtilesT, length_insert; lia).
      rewrite HtilesT. by apply list_lookup_insert_ne.
  - intros r c Hr Hc. apply Hin. by split.
  - intros r c Hn. apply Hout. intros [? ?]. by apply Hn.
  - rewrite Hcw2, Hct2, Hcw1, Hct1. rewrite Hlen at 2.
    rewrite !delete_app_last. split_and!; [done..|congruence|congruence].
Qed.

(** ** The tile after a resize, whatever the outcome *)

Lemma resize_emit_tiles tile t' s1 s' (res : Res unit) :
  (let* index := read (fun s => py_list_index tile (couple_tile s)) in
   let* widget := read (fun s => py_getitem (couple_widget s) (Z.of_nat index)) in
   modify (fun s => set_tileResized (tileResized s ++ [resize_event widget t']) s)) s1
  = (s', res) ->
  tiles s' = tiles s1.
Proof.
  unfold bind, read, modify.
  destruct (py_list_index tile (couple_tile s1)) as [e|index]; [by intros [= <- _]|].
  destruct (py_getitem (couple_widget s1) (Z.of_nat index)) as [e|widget];
    by intros [= <- _].
Qed.

Lemma resizeTile_tile_after s direction from_row from_column tile_number tile t :
  wf s -> is_direction direction ->
  cell s from_row from_column = Some tile -> tiles s !! tile = Some t ->
  rect_in_grid s from_row from_column t ->
  exists granted cells,
    resize_scan s direction from_row from_column tile_number = inr (granted, cells)
    /\ forall s' res,
         resizeTile direction from_row from_column tile_number s = (s', res) ->
         tiles s' !! tile
         = Some (match cells with
                 | [] => t
                 | _ :: _ => resized direction from_row from_column granted t
                 end).
Proof.
  intros Hwf Hdir Hcell Ht Hrect.
  destruct (resize_scan_total s direction from_row from_column tile_number tile t)
    as (granted & cells & Hscan & Hin & Hfit); [done..|].
  exists granted, cells. split; [done|]. intros s' res.
  rewrite (resizeTile_scan s direction from_row from_column tile_number tile t granted cells
             (tile_at_cell _ _ _ _ Hcell) Ht Hscan).
  destruct cells as [|cell0 cells]; [by intros [= <- _]|].
  set (t' := resized direction from_row from_column granted t).
  pose proof (lookup_lt_Some _ _ _ Ht) as Hlt.
  assert (exists s1,
    (if tile_number * (fst direction + snd direction) >? 0
     then __mergeTiles tile (getFromRow t') (getFromColumn t') (getRowSpan t')
                     (getColumnSpan t') (cell0 :: cells)
     else __splitTiles tile (getFromRow t') (getFromColumn t') (getRowSpan t')
                     (getColumnSpan t') (cell0 :: cells)) s = (s1, inr tt)
    /\ tiles s1 !! tile = Some t') as (s1 & Hmut & Ht1).
  { destruct (_ >? _).
    - destruct (mergeTiles_spec tile t (getFromRow t') (getFromColumn t') (getRowSpan t')
                  (getColumnSpan t') (cell0 :: cells) s Hwf Ht Hin Hfit)
        as (s1 & Hmut & ? & Htl & ? & _).
      exists s1. split; [done|]. rewrite Htl. by apply list_lookup_insert_eq.
    - destruct (splitTiles_spec tile t (getFromRow t') (getFromColumn t') (getRowSpan t')
                  (getColumnSpan t') (cell0 :: cells) s Hwf Ht Hin Hfit)
        as (s1 & Hmut & ? & ? & Htl & _).
      exists s1. split; [done|]. rewrite Htl.
      apply list_lookup_insert_eq. rewrite length_app. lia. }
  simpl. rewrite (bind_inr _ _ _ _ _ Hmut).
  intros Hrun%resize_emit_tiles. by rewrite Hrun.
Qed.

Lemma growth_strip_nonempty direction from_row from_column t i :
  1 <= getRowSpan t -> 1 <= getColumnSpan t ->
  growth_strip direction from_row from_column t i <> [].
Proof.
  intros Hrs Hcs. unfold growth_strip.
  repeat case_decide; rewrite (seqZ_cons 0) by lia; done.
Qed.

(** ** The admission check, the growth scan and the shrink clamp *)

(** C3. [isAreaEmpty] answers [False] for a rectangle that leaves the
    grid or has a negative origin; for any other rectangle it answers
    [True] exactly when every cell of the rectangle is owned by an
    unfilled tile. *)
Theorem isAreaEmpty_spec s from_row from_column row_span column_span :
  wf s ->
  (from_row + row_span > row_number s \/ from_column + column_span > column_number s
   \/ from_row < 0 \/ from_column < 0 ->
   isAreaEmpty s from_row from_column row_span column_span = inr false)
  /\ (~ (from_row + row_span > row_number s \/ from_column + column_span > column_number s
         \/ from_row < 0 \/ from_column < 0) ->
      exists b, isAreaEmpty s from_row from_column row_span column_span = inr b
        /\ (b = true <-> area_unfilled s from_row from_column row_span column_span)).
Proof. apply isAreaEmpty_cases. Qed.

Lemma isAreaEmpty_spec_witness :
  let s := run (addWidget 7%nat 0 1 2 1) (fresh 2 3) in
  isAreaEmpty s 0 0 3 1 = inr false
  /\ exists b, isAreaEmpty s 0 0 2 1 = inr b /\ (b = true <-> area_unfilled s 0 0 2 1).
Proof.
  intros s.
  assert (wf s) as Hwf by (apply (bool_decide_unpack _); vm_compute; reflexivity).
  destruct (isAreaEmpty_spec s 0 0 3 1 Hwf) as [Hout _].
  destruct (isAreaEmpty_spec s 0 0 2 1 Hwf) as [_ Hin].
  split; [apply Hout; vm_compute; left; reflexivity|].
  apply Hin. vm_compute. intros [H|[H|[H|H]]]; discriminate H.
Defined.

(** C10. A rectangle with a zero span that starts at a non-negative
    origin and does not leave the grid is reported empty by
    [isAreaEmpty], whatever the grid holds: no cell is inspected.  The
    placement of an unbound item over such a rectangle therefore passes
    both assertions of [addWidget]: it returns when the origin is a cell
    of the grid, and otherwise (an origin on the far edge) it raises
    what the lookup of the origin raises, leaving the layout as it
    was. *)
Theorem isAreaEmpty_zero_area s from_row from_column row_span column_span :
  row_span = 0 \/ column_span = 0 ->
  0 <= from_row -> 0 <= from_column ->
  from_row + row_span <= row_number s ->
  from_column + column_span <= column_number s ->
  isAreaEmpty s from_row from_column row_span column_span = inr true
  /\ (forall widget,
        wf s -> widget ∉ couple_widget s -> in_grid s from_row from_column ->
        exists s', addWidget widget from_row from_column row_span column_span s
                   = (s', inr tt))
  /\ (forall widget e,
        widget ∉ couple_widget s -> tile_at s from_row from_column = inl e ->
        addWidget widget from_row from_column row_span column_span s = (s, inl e)).
Proof.
  intros Hz Hr Hc Hrs Hcs.
  pose proof (isAreaEmpty_zero_span s _ _ _ _ Hz Hr Hc Hrs Hcs) as He.
  split; [done|]. split.
  - intros widget Hwf Hw Hg. destruct (in_grid_cell s _ _ Hwf Hg) as [tile Hcell].
    destruct (addWidget_ok s widget _ _ _ _ tile Hwf Hw He (tile_at_cell _ _ _ _ Hcell))
      as (s' & _ & Hrun & _); [lia|].
    eauto.
  - intros widget e Hw Ht. by apply addWidget_no_anchor.
Qed.

Lemma isAreaEmpty_zero_area_witness :
  isAreaEmpty (fresh 2 3) 2 1 0 2 = inr true
  /\ addWidget 7%nat 2 1 0 2 (fresh 2 3) = (fresh 2 3, inl IndexError)
  /\ exists s', addWidget 7%nat 1 1 0 2 (fresh 2 3) = (s', inr tt).
Proof.
  destruct (isAreaEmpty_zero_area (fresh 2 3) 2 1 0 2) as (Hempty & _ & Hedge);
    [left; reflexivity | by vm_compute ..|].
  destruct (isAreaEmpty_zero_area (fresh 2 3) 1 1 0 2) as (_ & Hin & _);
    [left; reflexivity | by vm_compute ..|].
  split; [exact Hempty|]. split.
  - apply Hedge; [by vm_compute; intros ?%elem_of_nil|by vm_compute].
  - apply Hin.
    + apply (bool_decide_unpack _). vm_compute. reflexivity.
    + vm_compute. by intros ?%elem_of_nil.
    + by vm_compute.
Defined.

(** C2. On a growth request of [|tile_number|] units the granted
    amount is the number [k] of consecutive fully free strips beyond
    the far edge of the tile, counted up to the request clamped at the
    grid boundary and stopping at the first strip that holds a filled
    cell: every strip before [k] is free, the strip at [k], when [k]
    is below the clamped request, is not, and the cells to merge are
    those of the first [k] strips.  The scan answers [k] with the sign
    of the direction, and whatever [resizeTile] then returns, the span
    of the tile along the direction has grown by exactly [k]. *)
Theorem growth_grants_free_strips s direction from_row from_column tile_number tile t :
  wf s -> is_direction direction ->
  cell s from_row from_column = Some tile -> tiles s !! tile = Some t ->
  rect_in_grid s from_row from_column t ->
  tile_number * (fst direction + snd direction) > 0 ->
  let clamped := Z.min (Z.abs tile_number)
                       (boundary_room s direction from_row from_column t) in
  let k := free_strips s direction from_row from_column t clamped in
  exists cells,
    __getTilesToMerge s direction from_row from_column tile_number
    = inr ((fst direction + snd direction) * k, cells)
    /\ 0 <= k <= clamped
    /\ (forall i, 0 <= i < k ->
          strip_free s (growth_strip direction from_row from_column t i) = true)
    /\ (k < clamped ->
        strip_free s (growth_strip direction from_row from_column t k) = false)
    /\ (forall r c, (r, c) ∈ cells <->
          exists i, 0 <= i < k /\ (r, c) ∈ growth_strip direction from_row from_column t i)
    /\ (forall s' res,
          resizeTile direction from_row from_column tile_number s = (s', res) ->
          exists t', tiles s' !! tile = Some t'
                     /\ axis_span direction t' = axis_span direction t + k).
Proof.
  intros Hwf Hdir Hcell Ht Hrect Hgrow clamped k.
  destruct (getTilesToMerge_free_strips s direction from_row from_column tile_number tile t)
    as (cells & Hscan & Hk & Hfree & Hstop & Hcells & Hspan); [done..|].
  fold clamped in Hscan, Hk, Hfree, Hstop, Hcells.
  fold k in Hscan, Hk, Hfree, Hstop, Hcells.
  exists cells. do 5 (split; [done|]).
  destruct (resizeTile_tile_after s direction from_row from_column tile_number tile t)
    as (granted & cells' & Hscan' & Hafter); [done..|].
  unfold resize_scan in Hscan'. rewrite (proj2 (Z.gtb_gt _ _)) in Hscan' by lia.
  assert (granted = (fst direction + snd direction) * k /\ cells' = cells) as [-> ->]
    by (split; congruence).
  intros s' res Hrun. specialize (Hafter s' res Hrun).
  eexists. split; [exact Hafter|].
  destruct cells as [|cell0 cells]; [|done].
  destruct (decide (k = 0)) as [->|Hne]; [lia|exfalso].
  destruct Hrect as (_ & Hrs & _ & _ & Hcs & _).
  pose proof (growth_strip_nonempty direction from_row from_column t 0 Hrs Hcs) as Hstrip.
  destruct (growth_strip direction from_row from_column t 0) as [|[r c] rest] eqn:E; [done|].
  apply (elem_of_nil (r, c)), Hcells. exists 0. split; [lia|]. rewrite E. left.
Qed.

Lemma growth_grants_free_strips_witness :
  let s := run (addWidget 8%nat 0 3 1 1) (run (addWidget 7%nat 0 0 1 1) (fresh 1 5)) in
  exists cells, __getTilesToMerge s east 0 0 4 = inr (2, cells).
Proof.
  intros s.
  destruct (growth_grants_free_strips s east 0 0 4 0%nat (mkTile 0 0 1 1 true (Some 7%nat)))
    as (cells & Hrun & _).
  - apply (bool_decide_unpack _). vm_compute. reflexivity.
  - apply (bool_decide_unpack _). vm_compute. reflexivity.
  - vm_compute. reflexivity.
  - vm_compute. reflexivity.
  - apply (bool_decide_unpack _). vm_compute. reflexivity.
  - simpl. lia.
  - exists cells. exact Hrun.
Defined.

(** C6. On a shrink request the granted amount leaves a span of one or
    more along the axis of the request, and whatever [resizeTile]
    returns on a tile of the grid, the tile keeps a span of one or more
    along that axis; when the span is one already, nothing is granted
    and [resizeTile] returns the layout it was given, the emitted
    signals included, without raising. *)
Theorem shrink_keeps_one_unit s direction from_row from_column tile_number tile t :
  is_direction direction ->
  cell s from_row from_column = Some tile -> tiles s !! tile = Some t ->
  1 <= getRowSpan t -> 1 <= getColumnSpan t ->
  tile_number * (fst direction + snd direction) <= 0 ->
  exists granted cells,
    __getTilesToSplit s direction from_row from_column tile_number = inr (granted, cells)
    /\ 1 <= axis_span direction (resized direction from_row from_column granted t)
    /\ (axis_span direction t = 1 ->
        granted = 0 /\ cells = []
        /\ resizeTile direction from_row from_column tile_number s = (s, inr tt))
    /\ (wf s -> rect_in_grid s from_row from_column t ->
        forall s' res,
          resizeTile direction from_row from_column tile_number s = (s', res) ->
          exists t', tiles s' !! tile = Some t' /\ 1 <= axis_span direction t').
Proof.
  intros Hdir Hcell Ht Hrs Hcs Hshrink.
  destruct (getTilesToSplit_keeps_unit s direction from_row from_column tile_number tile t)
    as (granted & cells & Hscan & Hspan & Hone); [done..|].
  exists granted, cells. split_and!; [done..|].
  intros Hwf Hrect s' res Hrun.
  destruct (resizeTile_tile_after s direction from_row from_column tile_number tile t)
    as (granted' & cells' & Hscan' & Hafter); [done..|].
  unfold resize_scan in Hscan'.
  assert ((tile_number * (fst direction + snd direction) >? 0) = false) as Hdec.
  { rewrite Z.gtb_ltb. apply Z.ltb_ge. lia. }
  rewrite Hdec in Hscan'.
  assert (granted' = granted /\ cells' = cells) as [-> ->] by (split; congruence).
  eexists. split; [exact (Hafter s' res Hrun)|].
  destruct cells; [|done]. unfold axis_span. case_match; lia.
Qed.

Lemma shrink_keeps_one_unit_witness :
  let s := run (addWidget 7%nat 0 0 1 2) (fresh 2 3) in
  resizeTile north 0 0 3 s = (s, inr tt).
Proof.
  intros s.
  destruct (shrink_keeps_one_unit s north 0 0 3 0%nat (mkTile 0 0 1 2 true (Some 7%nat)))
    as (granted & cells & _ & _ & Hone & _).
  - apply (bool_decide_unpack _). vm_compute. reflexivity.
  - vm_compute. reflexivity.
  - vm_compute. reflexivity.
  - simpl. lia.
  - simpl. lia.
  - simpl. lia.
  - apply Hone. reflexivity.
Defined.

(** * Further properties of the layout *)

(** ** The constructor *)

Lemma fresh_spec R C :
  0 <= R <= INT_MAX -> 0 <= C <= INT_MAX ->
  exists s,
    __init__ R C = (s, inr tt) /\ wf s
    /\ row_number s = R /\ column_number s = C
    /\ couple_widget s = [] /\ couple_tile s = [] /\ tileResized s = []
    /\ (forall r c,
          owner s r c = if decide (0 <= r < R /\ 0 <= c < C)
                        then Some (Tile_new r c 1 1) else None).
Proof.
  intros HR HC.
  destruct (init_spec R C HR HC) as (s & Hrun & HRs & HCs & Hcw & Hct & Hev & Hlen & Hcols & Hinv).
  pose proof (Inv_fresh R C HR HC) as (Hwf & _). unfold fresh in Hwf. rewrite Hrun in Hwf.
  simpl in Hwf.
  exists s. split_and!; try done.
  intros r c. unfold owner. destruct (decide _) as [Hin|Hout].
  - destruct (in_grid_cell s r c Hwf) as [tile Hcell]; [unfold in_grid; lia|].
    rewrite Hcell. simpl. unfold cell in Hcell. rewrite decide_True in Hcell by lia.
    destruct (tile_map s !! Z.to_nat r) as [row|] eqn:Hrow; [|done]. simpl in Hcell.
    pose proof (Hinv _ _ _ _ Hrow Hcell) as Hid. by rewrite !Z2Nat.id in Hid by lia.
  - destruct (cell s r c) as [tile|] eqn:Hcell; [|done].
    destruct (cell_Some_in_grid s r c tile Hwf Hcell) as [[? ?] _]. lia.
Qed.



Lemma fresh_eq R C s : __init__ R C = (s, inr tt) -> fresh R C = s.
Proof. intros H. unfold fresh. by rewrite H. Qed.

(** X2. On a grid just built, one the constructor has returned,
    [isAreaEmpty] answers [True] for the rectangles with a non-negative
    origin that do not leave the grid, and [False] for all others; it
    never raises. *)
Theorem isAreaEmpty_fresh R C from_row from_column row_span column_span :
  0 <= R -> 0 <= C -> snd (__init__ R C) = inr tt ->
  isAreaEmpty (fresh R C) from_row from_column row_span column_span
  = inr (bool_decide (0 <= from_row /\ 0 <= from_column
                      /\ from_row + row_span <= R /\ from_column + column_span <= C)).
Proof.
  intros HR HC [HRfit HCfit]%init_returns; [|done..].
  destruct (fresh_spec R C) as (s & Hrun & Hwf & HRs & HCs & _ & _ & _ & Hown); [lia..|].
  rewrite (fresh_eq _ _ _ Hrun).
  destruct (isAreaEmpty_cases s from_row from_column row_span column_span Hwf) as [Hout Hin].
  rewrite HRs, HCs in Hout, Hin.
  case_bool_decide as Hb.
  - destruct Hin as (b & -> & Hiff); [lia|]. f_equal. apply Hiff.
    intros r c Hr Hc. specialize (Hown r c). rewrite decide_True in Hown by lia.
    unfold owner in Hown. destruct (cell s r c) as [tile|]; [|done]. simpl in Hown.
    by exists tile, (Tile_new r c 1 1).
  - apply Hout. lia.
Qed.

Lemma isAreaEmpty_fresh_witness :
  isAreaEmpty (fresh 2 3) 1 1 1 2 = inr true /\ isAreaEmpty (fresh 2 3) 1 1 2 2 = inr false.
Proof.
  split.
  - rewrite (isAreaEmpty_fresh 2 3 1 1 1 2) by (lia || reflexivity). reflexivity.
  - rewrite (isAreaEmpty_fresh 2 3 1 1 2 2) by (lia || reflexivity). reflexivity.
Defined.

(** ** Placement and removal, cell by cell *)

Lemma area_unfilled_owner s from_row from_column row_span column_span :
  area_unfilled s from_row from_column row_span column_span
  <-> forall r c, in_rect from_row from_column row_span column_span r c ->
        exists t, owner s r c = Some t /\ isFilled t = false.
Proof.
  unfold area_unfilled, in_rect, owner. split.
  - intros H r c [Hr Hc]. destruct (H r c Hr Hc) as (tile & t & Hcell & Ht & Hf).
    exists t. rewrite Hcell. by split.
  - intros H r c Hr Hc. destruct (H r c (conj Hr Hc)) as (t & Ho & Hf).
    destruct (cell s r c) as [tile|]; [|done]. by exists tile, t.
Qed.

Lemma addWidget_effect s widget from_row from_column row_span column_span :
  Inv s -> valid_op s (OpAdd widget from_row from_column row_span column_span) ->
  exists s' tile,
    addWidget widget from_row from_column row_span column_span s = (s', inr tt)
    /\ Inv s'
    /\ cell s from_row from_column = Some tile
    /\ tiles s !! tile = Some (Tile_new from_row from_column 1 1)
    /\ (tile ∉ couple_tile s)
    /\ (forall r c, cell s r c = Some tile -> r = from_row /\ c = from_column)
    /\ tiles s' = <[tile := mkTile from_row from_column row_span column_span true (Some widget)]>
                    (tiles s)
    /\ (forall r c,
          cell s' r c = if decide (in_rect from_row from_column row_span column_span r c)
                        then Some tile else cell s r c)
    /\ row_number s' = row_number s /\ column_number s' = column_number s
    /\ couple_widget s' = couple_widget s ++ [widget]
    /\ couple_tile s' = couple_tile s ++ [tile]
    /\ tileResized s' = tileResized s.
Proof.
  intros HInv Hvalid. destruct (Inv_addWidget s widget _ _ _ _ HInv Hvalid) as (s1 & Hrun1 & HInv').
  destruct HInv as (Hwf & Hgrid & Hreg). destruct Hvalid as (Hw & He & Hrs & Hcs).
  pose proof (area_unfilled_of_isAreaEmpty _ _ _ _ _ Hwf He) as Harea.
  destruct (Harea from_row from_column) as (tile & t & Hcell & Ht & Hf); [lia..|].
  destruct (addWidget_ok s widget _ _ _ _ tile Hwf Hw He (tile_at_cell _ _ _ _ Hcell))
    as (s' & t0 & Hrun & Hwf' & _ & Ht0 & Htiles & HR & HC & Hcw & Hct & Hev & Hcells);
    [lia|].
  assert (s1 = s') as -> by congruence.
  assert (t0 = t) as -> by congruence.
  destruct (Hgrid _ _ _ Hcell) as (t1 & Ht1 & _ & Hall & Hunit).
  assert (t1 = t) as -> by congruence. specialize (Hunit Hf). subst t.
  exists s', tile. split_and!; try done.
  - by eapply (registry_unfilled_unbound s tile).
  - intros r c Hc. destruct (Hgrid _ _ _ Hc) as (t1 & Ht1' & Hcov & _).
    assert (t1 = Tile_new from_row from_column 1 1) as -> by congruence.
    by apply covers_Tile_new in Hcov.
  - rewrite Htiles. f_equal. destruct (_ || _) eqn:Hspan; [done|].
    apply orb_false_iff in Hspan as [? ?].
    assert (row_span = 1) as -> by lia. by assert (column_span = 1) as -> by lia.
  - intros r c. rewrite Hcells. unfold in_rect.
    destruct (rect_cells_cons from_row from_column row_span column_span) as [rest Hrest];
      [lia..|].
    destruct (decide (from_row <= r < _ /\ _)) as [Hin|Hout].
    + destruct (decide _) as [_|Hn]; [done|].
      assert ((r, c) ∈ rect_cells from_row from_column row_span column_span) as Hrc
        by (by apply elem_of_rect_cells).
      rewrite Hrest in Hrc, Hn. simpl in Hn.
      apply elem_of_cons in Hrc as [[= -> ->]|Hrc]; [done|].
      assert (rest = []) as ->; [|by apply elem_of_nil in Hrc].
      destruct (decide (row_span > 1 \/ column_span > 1)) as [Hspan|Hspan].
      { destruct Hn. by split. }
      assert (row_span = 1) as -> by lia. assert (column_span = 1) as -> by lia.
      rewrite rect_cells_unit in Hrest. congruence.
    + rewrite decide_False; [done|].
      intros [_ Hrc%elem_of_tail%elem_of_rect_cells]. by apply Hout.
Qed.

Lemma addWidget_effect_owner s widget from_row from_column row_span column_span :
  Inv s -> valid_op s (OpAdd widget from_row from_column row_span column_span) ->
  exists s',
    addWidget widget from_row from_column row_span column_span s = (s', inr tt)
    /\ Inv s'
    /\ (forall r c,
          owner s' r c
          = if decide (in_rect from_row from_column row_span column_span r c)
            then Some (mkTile from_row from_column row_span column_span true (Some widget))
            else owner s r c)
    /\ row_number s' = row_number s /\ column_number s' = column_number s
    /\ couple_widget s' = couple_widget s ++ [widget]
    /\ length (tiles s') = length (tiles s)
    /\ tileResized s' = tileResized s.
Proof.
  intros HInv Hvalid.
  destruct (addWidget_effect s widget _ _ _ _ HInv Hvalid)
    as (s' & tile & Hrun & HInv' & Hcell & Ht & _ & Honly & Htiles & Hcells & HR & HC & Hcw & _ & Hev).
  destruct Hvalid as (_ & _ & Hrs & Hcs).
  exists s'. split_and!; try done.
  - intros r c. unfold owner. rewrite Hcells, Htiles.
    destruct (decide _) as [Hin|Hout]; simpl.
    + apply list_lookup_insert_eq. by eapply lookup_lt_Some.
    + destruct (cell s r c) as [tile'|] eqn:Hc; [|done]. simpl.
      apply list_lookup_insert_ne. intros <-.
      destruct (Honly r c Hc) as [-> ->]. apply Hout. unfold in_rect. lia.
  - by rewrite Htiles, length_insert.
Qed.

Lemma addWidget_inr_valid s s' widget from_row from_column row_span column_span :
  wf s ->
  addWidget widget from_row from_column row_span column_span s = (s', inr tt) ->
  (widget ∉ couple_widget s)
  /\ isAreaEmpty s from_row from_column row_span column_span = inr true.
Proof.
  intros Hwf Hrun. split.
  - intros Hw. rewrite (addWidget_duplicate s widget _ _ _ _ Hw) in Hrun. congruence.
  - destruct (isAreaEmpty_total s from_row from_column row_span column_span Hwf) as [[|] Hb];
      [done|].
    rewrite (addWidget_occupied s widget _ _ _ _ Hb) in Hrun. congruence.
Qed.

(** X3. In a layout reached by valid operations, the placement of an
    unbound item over an empty rectangle with spans of at least one
    returns; afterwards every cell of the rectangle is owned by one
    filled tile with the geometry of the rectangle that holds the item,
    every other cell is owned as before, the item stands last in
    [widgetList], no tile object was created and no signal emitted. *)
Theorem addWidget_fills_rectangle R C s widget from_row from_column row_span column_span :
  0 <= R -> 0 <= C -> reachable valid_op R C s ->
  widget ∉ widgetList s ->
  isAreaEmpty s from_row from_column row_span column_span = inr true ->
  1 <= row_span -> 1 <= column_span ->
  exists s',
    addWidget widget from_row from_column row_span column_span s = (s', inr tt)
    /\ (forall r c,
          owner s' r c
          = if decide (in_rect from_row from_column row_span column_span r c)
            then Some (mkTile from_row from_column row_span column_span true (Some widget))
            else owner s r c)
    /\ widgetList s' = widgetList s ++ [widget]
    /\ length (tiles s') = length (tiles s)
    /\ tileResized s' = tileResized s.
Proof.
  intros HR HC Hreach Hw He Hrs Hcs.
  pose proof (reachable_Inv R C s HR HC Hreach) as HInv.
  destruct (addWidget_effect_owner s widget from_row from_column row_span column_span HInv)
    as (s' & Hrun & _ & Hown & _ & _ & Hcw & Hlen & Hev); [by split_and!|].
  exists s'. by split_and!.
Qed.

Lemma addWidget_fills_rectangle_witness :
  let s := run (addWidget 7%nat 0 0 1 1) (fresh 2 3) in
  exists s',
    addWidget 8%nat 0 1 2 2 s = (s', inr tt)
    /\ (forall r c,
          owner s' r c
          = if decide (in_rect 0 1 2 2 r c)
            then Some (mkTile 0 1 2 2 true (Some 8%nat)) else owner s r c)
    /\ widgetList s' = widgetList s ++ [8%nat]
    /\ length (tiles s') = length (tiles s)
    /\ tileResized s' = tileResized s.
Proof.
  intros s. apply (addWidget_fills_rectangle 2 3 s 8%nat 0 1 2 2); [lia|lia| | | |lia|lia].
  - apply (reachable_step valid_op 2 3 (fresh 2 3) (OpAdd 7%nat 0 0 1 1));
      [apply reachable_fresh; reflexivity|apply (bool_decide_unpack _); vm_compute; reflexivity].
  - apply (bool_decide_unpack _). vm_compute. reflexivity.
  - vm_compute. reflexivity.
Defined.

(** X4. In a layout reached from a fresh grid by valid operations,
    after a placement with spans of at least one has returned,
    [isAreaEmpty] answers [True] for exactly the rectangles it answered
    [True] for before that share no cell with the rectangle placed. *)
Theorem isAreaEmpty_after_addWidget R C s s' widget from_row from_column row_span column_span
    from_row2 from_column2 row_span2 column_span2 :
  0 <= R -> 0 <= C -> reachable valid_op R C s ->
  1 <= row_span -> 1 <= column_span ->
  addWidget widget from_row from_column row_span column_span s = (s', inr tt) ->
  isAreaEmpty s' from_row2 from_column2 row_span2 column_span2 = inr true
  <-> isAreaEmpty s from_row2 from_column2 row_span2 column_span2 = inr true
      /\ (forall r c, in_rect from_row2 from_column2 row_span2 column_span2 r c ->
            ~ in_rect from_row from_column row_span column_span r c).
Proof.
  intros HR HC Hreach Hrs Hcs Hrun.
  pose proof (reachable_Inv R C s HR HC Hreach) as HInv.
  pose proof HInv as (Hwf & _).
  destruct (addWidget_inr_valid s s' widget _ _ _ _ Hwf Hrun) as [Hw He].
  destruct (addWidget_effect_owner s widget from_row from_column row_span column_span HInv)
    as (s1 & Hrun1 & (Hwf' & _) & Hown & HRs & HCs & _); [by split_and!|].
  assert (s1 = s') as -> by congruence.
  destruct (isAreaEmpty_cases s from_row2 from_column2 row_span2 column_span2 Hwf)
    as [Hout Hin].
  destruct (isAreaEmpty_cases s' from_row2 from_column2 row_span2 column_span2 Hwf')
    as [Hout' Hin'].
  rewrite HRs, HCs in Hout', Hin'.
  destruct (decide (from_row2 + row_span2 > row_number s
                    \/ from_column2 + column_span2 > column_number s
                    \/ from_row2 < 0 \/ from_column2 < 0)) as [Hb|Hb].
  { rewrite (Hout Hb), (Hout' Hb). split; [done|]. by intros [? _]. }
  destruct (Hin Hb) as (b & -> & Hiff). destruct (Hin' Hb) as (b' & -> & Hiff').
  rewrite area_unfilled_owner in Hiff, Hiff'.
  split.
  - intros [= ->]. destruct Hiff' as [Hall _]. specialize (Hall eq_refl).
    assert (forall r c, in_rect from_row2 from_column2 row_span2 column_span2 r c ->
              ~ in_rect from_row from_column row_span column_span r c) as Hdis.
    { intros r c H2 H1. destruct (Hall r c H2) as (t & Ho & Hf).
      rewrite Hown, decide_True in Ho by done. by injection Ho as <-. }
    split; [|done]. f_equal. apply Hiff. intros r c H2.
    destruct (Hall r c H2) as (t & Ho & Hf).
    rewrite Hown, decide_False in Ho by (by apply Hdis). by exists t.
  - intros [[= ->] Hdis]. f_equal. apply Hiff'. intros r c H2.
    destruct Hiff as [Hall _]. destruct (Hall eq_refl r c H2) as (t & Ho & Hf).
    exists t. by rewrite Hown, decide_False by (by apply Hdis).
Qed.

Lemma isAreaEmpty_after_addWidget_witness :
  let s := fresh 2 3 in
  let s' := run (addWidget 7%nat 0 1 2 1) s in
  isAreaEmpty s' 0 0 2 1 = inr true
  <-> isAreaEmpty s 0 0 2 1 = inr true
      /\ (forall r c, in_rect 0 0 2 1 r c -> ~ in_rect 0 1 2 1 r c).
Proof.
  intros s s'.
  apply (isAreaEmpty_after_addWidget 2 3 s s' 7%nat 0 1 2 1 0 0 2 1); [lia|lia| |lia|lia|].
  - apply reachable_fresh. reflexivity.
  - vm_compute. reflexivity.
Defined.

Lemma removeWidget_effect s widget :
  Inv s -> widget ∈ couple_widget s ->
  exists s' index tile t,
    bound_at s widget index tile /\ tiles s !! tile = Some t /\ isFilled t = true
    /\ tile_in_grid s t
    /\ (forall r c, cell s r c = Some tile <-> covers t r c)
    /\ removeWidget widget s = (s', inr tt) /\ Inv s'
    /\ row_number s' = row_number s /\ column_number s' = column_number s
    /\ couple_widget s' = delete index (couple_widget s)
    /\ couple_tile s' = delete index (couple_tile s)
    /\ tileResized s' = tileResized s
    /\ tiles s' = tiles s ++ unit_tiles (rect_cells (getFromRow t) (getFromColumn t)
                                                    (getRowSpan t) (getColumnSpan t))
    /\ (forall r c, ~ covers t r c -> cell s' r c = cell s r c)
    /\ (forall r c,
          owner s' r c = if decide (covers t r c) then Some (Tile_new r c 1 1)
                         else owner s r c).
Proof.
  intros HInv Hw. destruct (Inv_removeWidget s widget HInv Hw) as (s1 & Hrun1 & HInv').
  destruct HInv as (Hwf & Hgrid & Hreg).
  destruct (registry_bound_at s widget Hreg Hw) as (index & tile & Hb & Hin).
  pose proof Hreg as (Hlen & Hndw & Hndt & Hbound).
  destruct (Hbound tile Hin) as (t & r0 & c0 & Ht & Hf & Hc0).
  pose proof (grid_inv_tile_in_grid s r0 c0 tile t Hwf Hgrid Hc0 Ht) as Htg.
  destruct (Hgrid r0 c0 tile Hc0) as (t0 & Ht0 & _ & Hall & _).
  assert (t0 = t) as -> by congruence.
  destruct (removeWidget_ok s widget index tile t Hwf Hb Ht Htg)
    as (s' & Hrun & Hwf' & HR & HC & Hcw & Hct & Hev & Htiles & Hout & Hnew).
  assert (s1 = s') as -> by congruence.
  exists s', index, tile, t. split_and!; try done.
  - intros r c. split; [|by apply Hall].
    intros Hc. destruct (Hgrid r c tile Hc) as (t1 & Ht1 & Hcov & _). congruence.
  - intros r c. unfold owner. destruct (decide _) as [Hcov|Hcov].
    + destruct (Hnew r c Hcov) as (new & -> & _ & Hlk). done.
    + rewrite (Hout r c Hcov). destruct (cell s r c) as [id|] eqn:Hc; [|done]. simpl.
      destruct (cell_Some_in_grid s r c id Hwf Hc) as [_ Hlt].
      rewrite Htiles. by apply lookup_app_l.
Qed.

(** X5. In a layout reached by valid operations the removal of a bound
    item returns.  Afterwards each cell of the rectangle of its tile
    is owned by an unfilled unit tile at that cell and every other cell
    is owned as before, so that [isAreaEmpty] answers [True] for that
    rectangle and for every rectangle it answered [True] for before;
    the item is no longer in [widgetList]. *)
Theorem removeWidget_frees_rectangle R C s widget :
  0 <= R -> 0 <= C -> reachable valid_op R C s ->
  widget ∈ widgetList s ->
  exists s' index tile t,
    bound_at s widget index tile /\ tiles s !! tile = Some t
    /\ removeWidget widget s = (s', inr tt)
    /\ (forall r c,
          owner s' r c = if decide (covers t r c) then Some (Tile_new r c 1 1)
                         else owner s r c)
    /\ isAreaEmpty s' (getFromRow t) (getFromColumn t) (getRowSpan t) (getColumnSpan t)
       = inr true
    /\ (forall from_row from_column row_span column_span,
          isAreaEmpty s from_row from_column row_span column_span = inr true ->
          isAreaEmpty s' from_row from_column row_span column_span = inr true)
    /\ (widget ∉ widgetList s').
Proof.
  intros HR HC Hreach Hw.
  pose proof (reachable_Inv R C s HR HC Hreach) as HInv.
  destruct (removeWidget_effect s widget HInv Hw)
    as (s' & index & tile & t & Hb & Ht & Hf & Htg & _ & Hrun & (Hwf' & _) & HRs & HCs
        & Hcw & _ & _ & _ & _ & Hown).
  destruct HInv as (Hwf & _ & _ & Hnd & _).
  exists s', index, tile, t. split_and!; try done.
  - destruct (isAreaEmpty_cases s' (getFromRow t) (getFromColumn t) (getRowSpan t)
                (getColumnSpan t) Hwf') as [_ Hin].
    rewrite HRs, HCs in Hin. unfold tile_in_grid in Htg.
    destruct Hin as (b & -> & Hiff); [lia|]. f_equal. apply Hiff, area_unfilled_owner.
    intros r c Hin. exists (Tile_new r c 1 1). by rewrite Hown, decide_True.
  - intros from_row from_column row_span column_span He.
    destruct (isAreaEmpty_true_bounds _ _ _ _ _ He) as (?&?&?&?).
    pose proof (area_unfilled_of_isAreaEmpty _ _ _ _ _ Hwf He) as Harea.
    rewrite area_unfilled_owner in Harea.
    destruct (isAreaEmpty_cases s' from_row from_column row_span column_span Hwf')
      as [_ Hin].
    rewrite HRs, HCs in Hin.
    destruct Hin as (b & -> & Hiff); [lia|]. f_equal. apply Hiff, area_unfilled_owner.
    intros r c Hin. rewrite Hown. destruct (decide _); [by eexists|by apply Harea].
  - unfold widgetList. rewrite Hcw. destruct Hb as [Hidx _].
    eapply NoDup_delete_lookup; [done|]. by apply py_list_index_lookup.
Qed.

Lemma removeWidget_frees_rectangle_witness :
  let s := run (addWidget 7%nat 0 1 2 2) (fresh 2 3) in
  exists s' index tile t,
    bound_at s 7%nat index tile /\ tiles s !! tile = Some t
    /\ removeWidget 7%nat s = (s', inr tt)
    /\ (forall r c,
          owner s' r c = if decide (covers t r c) then Some (Tile_new r c 1 1)
                         else owner s r c)
    /\ isAreaEmpty s' (getFromRow t) (getFromColumn t) (getRowSpan t) (getColumnSpan t)
       = inr true
    /\ (forall from_row from_column row_span column_span,
          isAreaEmpty s from_row from_column row_span column_span = inr true ->
          isAreaEmpty s' from_row from_column row_span column_span = inr true)
    /\ (7%nat ∉ widgetList s').
Proof.
  intros s. apply (removeWidget_frees_rectangle 2 3 s 7%nat); [lia|lia| |].
  - apply (reachable_step valid_op 2 3 (fresh 2 3) (OpAdd 7%nat 0 1 2 2));
      [apply reachable_fresh; reflexivity|apply (bool_decide_unpack _); vm_compute; reflexivity].
  - apply (bool_decide_unpack _). vm_compute. reflexivity.
Defined.

(** X6. The removal of an item bound to a tile with a row span or a
    column span below one raises [AssertionError] and leaves the layout
    as it was, the item still bound: the list of cells to split is
    empty, and the assertion of [hardSplitTiles] on the origin fails. *)
Theorem removeWidget_nonpositive_span s widget index tile t :
  bound_at s widget index tile -> tiles s !! tile = Some t ->
  getRowSpan t <= 0 \/ getColumnSpan t <= 0 ->
  removeWidget widget s = (s, inl AssertionError).
Proof.
  intros [Hidx Htile] Ht Hspan. unfold removeWidget.
  assert (widget ∈ couple_widget s) as Hw.
  { eapply list_elem_of_lookup_2. by apply py_list_index_lookup. }
  rewrite (bind_inr _ _ s s tt) by (unfold py_in; by rewrite bool_decide_eq_true_2).
  rewrite (bind_inr _ _ s s index) by (unfold read; by rewrite Hidx).
  rewrite (bind_inr _ _ s s tile).
  2:{ unfold read. f_equal. apply py_getitem_nonneg; [lia|]. by rewrite Nat2Z.id. }
  rewrite (bind_inr _ _ s s t) by (unfold read, deref; by rewrite Ht).
  apply bind_inl. rewrite rect_cells_empty by done.
  apply hardSplitTiles_assert. apply not_elem_of_nil.
Qed.

Lemma removeWidget_nonpositive_span_witness :
  let s := run (addWidget 7%nat 0 0 0 2) (fresh 1 2) in
  removeWidget 7%nat s = (s, inl AssertionError).
Proof.
  intros s.
  apply (removeWidget_nonpositive_span s 7%nat 0%nat 0%nat (mkTile 0 0 0 2 true (Some 7%nat))).
  - apply (bool_decide_unpack _). vm_compute. reflexivity.
  - vm_compute. reflexivity.
  - left. vm_compute. discriminate.
Defined.

(** X7. For spans of at least one, in a layout reached by valid
    operations, a placement followed by the removal of the same item
    returns, and the layout it ends in cannot be told from the one
    before the placement: every cell is owned by a tile object with the
    same geometry, fill flag and item as before, the registry and the
    dimensions are the same. *)
Theorem addWidget_removeWidget_round_trip R C s widget from_row from_column row_span column_span :
  0 <= R -> 0 <= C -> reachable valid_op R C s ->
  widget ∉ widgetList s ->
  isAreaEmpty s from_row from_column row_span column_span = inr true ->
  1 <= row_span -> 1 <= column_span ->
  exists s1 s2,
    addWidget widget from_row from_column row_span column_span s = (s1, inr tt)
    /\ removeWidget widget s1 = (s2, inr tt)
    /\ (forall r c, owner s2 r c = owner s r c)
    /\ widgetList s2 = widgetList s /\ couple_tile s2 = couple_tile s
    /\ rowCount s2 = rowCount s /\ columnCount s2 = columnCount s.
Proof.
  intros HR HC Hreach Hw He Hrs Hcs.
  pose proof (reachable_Inv R C s HR HC Hreach) as HInv.
  destruct (place_remove_round_trip s widget from_row from_column row_span column_span HInv)
    as (s1 & s2 & Hadd & Hrem & Hown & _ & _ & Hcw & Hct & _ & HRs & HCs); [by split_and!|].
  exists s1, s2. by split_and!.
Qed.

Lemma addWidget_removeWidget_round_trip_witness :
  let s := run (addWidget 7%nat 0 0 1 1) (fresh 2 3) in
  exists s1 s2,
    addWidget 8%nat 0 1 2 2 s = (s1, inr tt)
    /\ removeWidget 8%nat s1 = (s2, inr tt)
    /\ (forall r c, owner s2 r c = owner s r c)
    /\ widgetList s2 = widgetList s /\ couple_tile s2 = couple_tile s
    /\ rowCount s2 = rowCount s /\ columnCount s2 = columnCount s.
Proof.
  intros s.
  apply (addWidget_removeWidget_round_trip 2 3 s 8%nat 0 1 2 2); [lia|lia| | | |lia|lia].
  - apply (reachable_step valid_op 2 3 (fresh 2 3) (OpAdd 7%nat 0 0 1 1));
      [apply reachable_fresh; reflexivity|apply (bool_decide_unpack _); vm_compute; reflexivity].
  - apply (bool_decide_unpack _). vm_compute. reflexivity.
  - vm_compute. reflexivity.
Defined.

(** ** Hard splits *)

Lemma for_each_app {A : Type} (l1 l2 : list A) (body : A -> M unit) s :
  for_each (l1 ++ l2) body s = (let* _ := for_each l1 body in for_each l2 body) s.
Proof.
  revert s. induction l1 as [|x l1 IH]; intros s; simpl; [done|].
  unfold bind. destruct (body x s) as [s1 [e|[]]]; [done|]. exact (IH s1).
Qed.

Lemma py_getitem_inr_iff {A : Type} (l : list A) i :
  (exists x, py_getitem l i = inr x) <-> - Z.of_nat (length l) <= i < Z.of_nat (length l).
Proof.
  unfold py_getitem, py_index. split.
  - intros [x Hx]. repeat case_decide; try done; lia.
  - intros Hi. destruct (decide (0 <= i < _)) as [Hnn|Hneg].
    + destruct (lookup_lt_is_Some_2 l (Z.to_nat i)) as [x ->]; [lia|]. by exists x.
    + rewrite decide_True by lia.
      destruct (lookup_lt_is_Some_2 l (Z.to_nat (Z.of_nat (length l) + i))) as [x ->]; [lia|].
      by exists x.
Qed.

Lemma py_getitem_elem_of {A : Type} (l : list A) i x : py_getitem l i = inr x -> x ∈ l.
Proof.
  unfold py_getitem. destruct (py_index l i) as [k|]; [|done].
  destruct (l !! k) as [y|] eqn:Hk; [|done]. intros [= <-]. by eapply list_elem_of_lookup_2.
Qed.

Lemma tile_at_addressable s row column :
  wf s -> addressable s row column -> exists tile, tile_at s row column = inr tile.
Proof.
  intros Hwf [Hr Hc]. unfold tile_at.
  destruct (proj2 (py_getitem_inr_iff (tile_map s) row)) as [r Hrow].
  { rewrite (wf_rows s Hwf). lia. }
  rewrite Hrow. simpl. apply py_getitem_inr_iff.
  rewrite (wf_cols s r Hwf); [lia|]. by eapply py_getitem_elem_of.
Qed.

Lemma tile_at_not_addressable s row column :
  wf s -> ~ addressable s row column -> tile_at s row column = inl IndexError.
Proof.
  intros Hwf Hn. unfold tile_at.
  destruct (py_getitem (tile_map s) row) as [e|r] eqn:Hrow; simpl.
  { by rewrite (py_getitem_inl _ _ _ Hrow). }
  destruct (py_getitem r column) as [e|tile] eqn:Hcol.
  { by rewrite (py_getitem_inl _ _ _ Hcol). }
  destruct Hn. split.
  - rewrite <- (wf_rows s Hwf). apply py_getitem_inr_iff. eauto.
  - rewrite <- (wf_cols s r Hwf) by (by eapply py_getitem_elem_of).
    apply py_getitem_inr_iff. eauto.
Qed.

Lemma addressable_frame s s' row column :
  frame s s' -> addressable s row column <-> addressable s' row column.
Proof. intros (Hr & Hc & _). unfold addressable. by rewrite Hr, Hc. Qed.

Lemma split_owner s s' cells :
  wf s ->
  tiles s' = tiles s ++ unit_tiles cells ->
  (forall r c, (r, c) ∉ cells -> cell s' r c = cell s r c) ->
  (forall r c, (r, c) ∈ cells ->
     exists tile, cell s' r c = Some tile /\ (length (tiles s) <= tile)%nat
                  /\ tiles s' !! tile = Some (Tile_new r c 1 1)) ->
  forall r c,
    owner s' r c = if decide ((r, c) ∈ cells) then Some (Tile_new r c 1 1) else owner s r c.
Proof.
  intros Hwf Htiles Hout Hnew r c. unfold owner. destruct (decide _) as [Hin|Hnin].
  - destruct (Hnew r c Hin) as (tile & -> & _ & Hlk). done.
  - rewrite (Hout r c Hnin). destruct (cell s r c) as [id|] eqn:Hc; [|done]. simpl.
    destruct (cell_Some_in_grid s r c id Hwf Hc) as [_ Hlt].
    rewrite Htiles. by apply lookup_app_l.
Qed.

(** X8. [hardSplitTiles] on cells of the grid: when the list does not
    hold the origin it raises [AssertionError] and the layout is as it
    was; when it does, the call returns the tile now at the origin,
    every listed cell is owned by a new unfilled unit tile at that
    cell, every other cell is owned as before, one tile object was
    created per entry of the list, and the dimensions, the registry and
    the signals are untouched, whether the cells were filled or not. *)
Theorem hardSplitTiles_effect s from_row from_column tiles_to_split :
  wf s -> (forall r c, (r, c) ∈ tiles_to_split -> in_grid s r c) ->
  ((from_row, from_column) ∉ tiles_to_split ->
   hardSplitTiles from_row from_column tiles_to_split s = (s, inl AssertionError))
  /\ ((from_row, from_column) ∈ tiles_to_split ->
      exists s' tile,
        hardSplitTiles from_row from_column tiles_to_split s = (s', inr tile)
        /\ cell s' from_row from_column = Some tile
        /\ (forall r c,
              owner s' r c = if decide ((r, c) ∈ tiles_to_split)
                             then Some (Tile_new r c 1 1) else owner s r c)
        /\ length (tiles s') = (length (tiles s) + length tiles_to_split)%nat
        /\ frame s s').
Proof.
  intros Hwf Hgrid. split; [apply hardSplitTiles_assert|].
  intros Hin.
  destruct (hardSplitTiles_spec from_row from_column tiles_to_split s Hwf Hin Hgrid)
    as (s' & tile & Hrun & _ & Hf & Hcell & Htiles & Hout & Hnew).
  exists s', tile. split_and!; try done.
  - by apply split_owner.
  - by rewrite Htiles, length_app, length_fmap.
Qed.

Lemma hardSplitTiles_effect_witness :
  let s := run (addWidget 7%nat 0 0 1 2) (fresh 1 2) in
  hardSplitTiles 0 0 [(0, 1)] s = (s, inl AssertionError)
  /\ exists s' tile,
       hardSplitTiles 0 0 [(0, 0)] s = (s', inr tile)
       /\ cell s' 0 0 = Some tile
       /\ (forall r c,
             owner s' r c = if decide ((r, c) ∈ [(0, 0)])
                            then Some (Tile_new r c 1 1) else owner s r c)
       /\ length (tiles s') = (length (tiles s) + 1)%nat
       /\ frame s s'.
Proof.
  intros s.
  assert (wf s) as Hwf by (apply (bool_decide_unpack _); vm_compute; reflexivity).
  split.
  - apply (hardSplitTiles_effect s 0 0 [(0, 1)] Hwf).
    + intros r c [= -> ->]%list_elem_of_singleton. vm_compute. by repeat split.
    + intros [=]%list_elem_of_singleton.
  - apply (hardSplitTiles_effect s 0 0 [(0, 0)] Hwf).
    + intros r c [= -> ->]%list_elem_of_singleton. vm_compute. by repeat split.
    + by apply list_elem_of_singleton.
Defined.

(** X9. [hardSplitTiles] is not atomic.  When the list holds the
    origin and its first entry that cannot be addressed in the grid
    comes after cells of the grid, the call raises [IndexError] with
    the cells before that entry already split: each is owned by a new
    unfilled unit tile, and the tile objects created stay in the
    layout. *)
Theorem hardSplitTiles_partial s from_row from_column split_before row column rest :
  wf s ->
  (from_row, from_column) ∈ split_before ++ (row, column) :: rest ->
  (forall r c, (r, c) ∈ split_before -> in_grid s r c) ->
  ~ addressable s row column ->
  exists s',
    hardSplitTiles from_row from_column (split_before ++ (row, column) :: rest) s
    = (s', inl IndexError)
    /\ (forall r c,
          owner s' r c = if decide ((r, c) ∈ split_before)
                         then Some (Tile_new r c 1 1) else owner s r c)
    /\ length (tiles s') = (length (tiles s) + length split_before)%nat
    /\ frame s s'.
Proof.
  intros Hwf Hin Hgrid Hbad.
  destruct (split_loop_spec _ split_before s hardSplitTiles_step Hwf Hgrid)
    as (s' & Hrun & Hwf' & Hf & Htiles & Hout & Hnew).
  exists s'. split_and!; try done.
  - unfold hardSplitTiles.
    rewrite (bind_inr _ _ s s tt) by (unfold py_in; by rewrite bool_decide_eq_true_2).
    apply bind_inl. rewrite for_each_app. rewrite (bind_inr _ _ s s' tt) by done.
    simpl. apply bind_inl. apply bind_inl. unfold read. f_equal.
    apply tile_at_not_addressable; [done|]. by rewrite <- (addressable_frame s s').
  - by apply split_owner.
  - by rewrite Htiles, length_app, length_fmap.
Qed.

Lemma hardSplitTiles_partial_witness :
  let s := run (addWidget 7%nat 0 0 1 2) (fresh 1 2) in
  exists s',
    hardSplitTiles 0 0 ([(0, 0)] ++ (0, 2) :: [(0, 1)]) s = (s', inl IndexError)
    /\ (forall r c,
          owner s' r c = if decide ((r, c) ∈ [(0, 0)])
                         then Some (Tile_new r c 1 1) else owner s r c)
    /\ length (tiles s') = (length (tiles s) + 1)%nat
    /\ frame s s'.
Proof.
  intros s.
  apply (hardSplitTiles_partial s 0 0 [(0, 0)] 0 2 [(0, 1)]).
  - apply (bool_decide_unpack _). vm_compute. reflexivity.
  - apply (bool_decide_unpack _). vm_compute. reflexivity.
  - intros r c [= -> ->]%list_elem_of_singleton. vm_compute. by repeat split.
  - apply (bool_decide_unpack _). vm_compute. reflexivity.
Defined.

(** ** Resize requests that change nothing *)

(** X10. A resize request addressed to a pair of indices outside the
    range the grid can address raises [IndexError] and leaves the
    layout as it was. *)
Theorem resizeTile_out_of_range s direction from_row from_column tile_number :
  wf s -> ~ addressable s from_row from_column ->
  resizeTile direction from_row from_column tile_number s = (s, inl IndexError).
Proof.
  intros Hwf Hbad. apply resizeTile_no_anchor. by apply tile_at_not_addressable.
Qed.

Lemma resizeTile_out_of_range_witness :
  resizeTile east 0 3 1 (fresh 2 3) = (fresh 2 3, inl IndexError).
Proof.
  apply (resizeTile_out_of_range (fresh 2 3) east 0 3 1).
  - apply (bool_decide_unpack _). vm_compute. reflexivity.
  - apply (bool_decide_unpack _). vm_compute. reflexivity.
Defined.

(** X11. A resize request of zero units in one of the four directions
    returns and leaves the layout as it was, whatever the spans of the
    tile addressed and whether it is bound or not: the list of cells to
    split is empty, so that the registry is not consulted and no signal
    is emitted. *)
Theorem resizeTile_zero_request s direction from_row from_column tile t :
  is_direction direction ->
  tile_at s from_row from_column = inr tile -> tiles s !! tile = Some t ->
  resizeTile direction from_row from_column 0 s = (s, inr tt).
Proof.
  intros Hdir Hat Ht.
  assert (exists granted,
            resize_scan s direction from_row from_column 0 = inr (granted, [])) as [granted Hscan].
  { unfold resize_scan.
    replace (0 * (fst direction + snd direction) >? 0) with false by (symmetry; lia).
    unfold __getTilesToSplit. rewrite Hat. simpl. unfold deref. rewrite Ht. simpl.
    destruct Hdir as [-> | [-> | [-> | ->]]]; simpl;
      (eexists; f_equal; f_equal; apply comprehension_nil;
       destruct (_ <? _) eqn:Hlt; lia). }
  by rewrite (resizeTile_scan s direction from_row from_column 0 tile t granted [] Hat Ht Hscan).
Qed.

Lemma resizeTile_zero_request_witness :
  resizeTile north 1 2 0 (fresh 2 3) = (fresh 2 3, inr tt).
Proof.
  apply (resizeTile_zero_request (fresh 2 3) north 1 2 5%nat (Tile_new 1 2 1 1)).
  - apply (bool_decide_unpack _). vm_compute. reflexivity.
  - vm_compute. reflexivity.
  - vm_compute. reflexivity.
Defined.

(** ** Resizing a bound tile, cell by cell *)

Lemma resized_zero direction from_row from_column t :
  getFromRow t = from_row -> getFromColumn t = from_column ->
  resized direction from_row from_column 0 t = t.
Proof.
  intros <- <-. destruct t as [fr fc rs cs f w]. unfold resized, Tile_updateSize. simpl.
  f_equal; lia.
Qed.

(** The cells of the grid that reference a tile are those of its
    rectangle. *)
Lemma grid_inv_cells s r0 c0 tile t :
  grid_inv s -> cell s r0 c0 = Some tile -> tiles s !! tile = Some t ->
  forall r c, cell s r c = Some tile <-> covers t r c.
Proof.
  intros Hgrid Hcell Ht r c.
  destruct (Hgrid _ _ _ Hcell) as (t0 & Ht0 & _ & Hall & _).
  assert (t0 = t) as -> by congruence.
  split; [|by apply Hall].
  intros Hc. destruct (Hgrid _ _ _ Hc) as (t0 & Ht0' & ? & _). congruence.
Qed.

Lemma resizeTile_grow_effect s direction from_row from_column tile_number :
  Inv s -> is_direction direction -> bound_anchor s from_row from_column ->
  tile_number * (fst direction + snd direction) > 0 ->
  exists s' tile t index widget (cells : list (Z * Z)),
    cell s from_row from_column = Some tile /\ tiles s !! tile = Some t
    /\ getFromRow t = from_row /\ getFromColumn t = from_column /\ isFilled t = true
    /\ rect_in_grid s from_row from_column t
    /\ py_list_index tile (couple_tile s) = inr index
    /\ couple_widget s !! index = Some widget
    /\ resizeTile direction from_row from_column tile_number s = (s', inr tt) /\ Inv s'
    /\ let k := free_strips s direction from_row from_column t
                  (Z.min (Z.abs tile_number)
                         (boundary_room s direction from_row from_column t)) in
       let T := resized direction from_row from_column ((fst direction + snd direction) * k) t in
       0 <= k
       /\ (forall r c, (r, c) ∈ cells <->
             exists i, 0 <= i < k /\ (r, c) ∈ growth_strip direction from_row from_column t i)
       /\ (forall r c, (r, c) ∈ cells -> unfilled_at s r c = true)
       /\ (forall r c, covers T r c <-> covers t r c \/ (r, c) ∈ cells)
       /\ tiles s' = <[tile := T]> (tiles s)
       /\ (forall r c, cell s' r c = if decide ((r, c) ∈ cells) then Some tile else cell s r c)
       /\ row_number s' = row_number s /\ column_number s' = column_number s
       /\ couple_widget s' = couple_widget s /\ couple_tile s' = couple_tile s
       /\ tileResized s'
          = tileResized s ++ (if decide (k = 0) then [] else [resize_event widget T]).
Proof.
  intros HInv Hdir Hb Hgrow.
  destruct (Inv_resize_grow s direction from_row from_column tile_number HInv)
    as (s1 & Hrun1 & HInv'); [by split|done|].
  destruct (bound_anchor_inv s from_row from_column HInv Hb)
    as (tile & t & index & widget & Hcell & Ht & Hr & Hc & Hf & Hrect & Hin & Hidx & Hw).
  destruct HInv as (Hwf & Hgrid & Hreg).
  destruct (getTilesToMerge_free_strips s direction from_row from_column tile_number tile t)
    as (cells & Hscan & Hk & Hfree & _ & Hcells & _); [done..|].
  exists s1, tile, t, index, widget, cells.
  split_and!; try done.
  intros k T. fold k in Hscan, Hk, Hfree, Hcells.
  assert (forall r c, (r, c) ∈ cells -> unfilled_at s r c = true) as Hunfilled.
  { intros r c (i & Hi & Hrc)%Hcells. specialize (Hfree i Hi).
    unfold strip_free in Hfree. rewrite forallb_forall in Hfree.
    apply (Hfree (r, c)). by apply list_elem_of_In. }
  assert (forall r c, covers T r c <-> covers t r c \/ (r, c) ∈ cells) as HT.
  { intros r c. unfold T. destruct Hrect as (?&?&?&?&?&?).
    rewrite covers_resized_grow by (done || lia). by rewrite Hcells. }
  split; [lia|]. split; [done|]. split; [done|]. split; [done|].
  destruct (decide (cells = [])) as [->|Hne].
  { assert (k = 0) as Hk0.
    { destruct (decide (k = 0)) as [|Hpos]; [done|]. exfalso.
      destruct Hrect as (?&?&?&?&?&?).
      destruct (growth_strip direction from_row from_column t 0) as [|[r c] l] eqn:Hstrip.
      - by eapply (growth_strip_nonempty direction from_row from_column t 0).
      - eapply (not_elem_of_nil (r, c)). apply Hcells. exists 0. split; [lia|].
        rewrite Hstrip. by left. }
    assert (s1 = s) as ->.
    { rewrite (resizeTile_scan s direction _ _ _ tile t
                 ((fst direction + snd direction) * k) []) in Hrun1; [congruence| |done|].
      - by apply tile_at_cell.
      - unfold resize_scan. by rewrite (proj2 (Z.gtb_gt _ _)) by lia. }
    assert (T = t) as ->.
    { unfold T. rewrite Hk0, Z.mul_0_r. by apply resized_zero. }
    split_and!; try done.
    - by rewrite list_insert_id.
    - rewrite decide_True by done. by rewrite app_nil_r. }
  assert (forall r c, (r, c) ∈ cells -> in_grid s r c) as Hgridcells.
  { intros r c (i & Hi & Hrc)%Hcells.
    eapply growth_strip_in_grid; [done..| |done]. lia. }
  destruct (resizeTile_grow_bound s direction from_row from_column tile_number
              tile t index widget _ cells Hwf Hdir Hrect Hcell Ht Hgrow Hscan Hne Hgridcells
              Hidx Hw)
    as (s' & Hrun & Hwf' & Htiles & Hcw & Hct & Hev & Hcell').
  assert (s1 = s') as -> by congruence.
  assert (row_number s' = row_number s /\ column_number s' = column_number s) as (HR & HC).
  { destruct (resizeTile_outcome s direction from_row from_column tile_number tile t)
      as (g & cs & Hscan' & _ & Hsome); [done..|].
    unfold resize_scan in Hscan'. rewrite (proj2 (Z.gtb_gt _ _)) in Hscan' by lia.
    assert (cs = cells) as -> by congruence.
    destruct (Hsome Hne) as (s2 & _ & Hf2 & _ & Hb2 & _).
    specialize (Hb2 index widget Hidx Hw). rewrite Hrun in Hb2. injection Hb2 as ->.
    destruct Hf2 as (? & ? & _). by split. }
  split_and!; try done.
  rewrite decide_False; [done|]. intros Hk0.
  destruct cells as [|[r c] l]; [done|].
  destruct (proj1 (Hcells r c)) as (i & Hi & _); [by left|]. lia.
Qed.

Lemma resizeTile_shrink_effect s direction from_row from_column tile_number :
  Inv s -> is_direction direction -> bound_anchor s from_row from_column ->
  tile_number * (fst direction + snd direction) <= 0 ->
  exists s' tile t index widget granted cells,
    cell s from_row from_column = Some tile /\ tiles s !! tile = Some t
    /\ getFromRow t = from_row /\ getFromColumn t = from_column /\ isFilled t = true
    /\ rect_in_grid s from_row from_column t
    /\ py_list_index tile (couple_tile s) = inr index
    /\ couple_widget s !! index = Some widget
    /\ __getTilesToSplit s direction from_row from_column tile_number = inr (granted, cells)
    /\ granted * (fst direction + snd direction) <= 0
    /\ Z.abs granted = Z.min (Z.abs tile_number) (axis_span direction t - 1)
    /\ resizeTile direction from_row from_column tile_number s = (s', inr tt) /\ Inv s'
    /\ let T := resized direction from_row from_column granted t in
       (forall r c, covers T r c -> covers t r c)
       /\ covers T (getFromRow T) (getFromColumn T)
       /\ (forall r c, (r, c) ∈ cells <-> covers t r c /\ ~ covers T r c)
       /\ tiles s' = <[tile := T]> (tiles s ++ unit_tiles cells)
       /\ (forall r c, (r, c) ∉ cells -> cell s' r c = cell s r c)
       /\ (forall r c, (r, c) ∈ cells ->
             exists new, cell s' r c = Some new /\ (length (tiles s) <= new)%nat
                         /\ tiles s' !! new = Some (Tile_new r c 1 1))
       /\ row_number s' = row_number s /\ column_number s' = column_number s
       /\ couple_widget s' = couple_widget s /\ couple_tile s' = couple_tile s
       /\ tileResized s'
          = tileResized s ++ (if decide (granted = 0) then [] else [resize_event widget T]).
Proof.
  intros HInv Hdir Hb Hshrink.
  destruct (Inv_resize_shrink s direction from_row from_column tile_number HInv)
    as (s1 & Hrun1 & HInv'); [by split|done|].
  destruct (bound_anchor_inv s from_row from_column HInv Hb)
    as (tile & t & index & widget & Hcell & Ht & Hr & Hc & Hf & Hrect & Hin & Hidx & Hw).
  destruct HInv as (Hwf & Hgrid & Hreg).
  pose proof Hrect as (?&?&?&?&?&?).
  destruct (getTilesToSplit_shrink s direction from_row from_column tile_number tile t)
    as (granted & cells & Hscan & Hsign & Habs & Hnil & Hcells); [done..|].
  exists s1, tile, t, index, widget, granted, cells.
  split_and!; try done.
  intros T.
  assert ((tile_number * (fst direction + snd direction) >? 0) = false) as Hdec.
  { rewrite Z.gtb_ltb. apply Z.ltb_ge. lia. }
  assert (forall r c, (r, c) ∈ cells <-> covers t r c /\ ~ covers T r c) as HX.
  { intros r c. rewrite Hcells. unfold covers at 2. by rewrite Hr, Hc. }
  destruct (covers_resized_shrink direction from_row from_column t granted)
    as [Hsub Horigin]; [done..|lia|]. fold T in Hsub, Horigin.
  split; [done|]. split; [done|]. split; [done|].
  destruct (decide (cells = [])) as [->|Hne].
  { assert (granted = 0) as -> by (by apply Hnil).
    assert (s1 = s) as ->.
    { rewrite (resizeTile_scan s direction _ _ _ tile t 0 []) in Hrun1; [congruence| |done|].
      - by apply tile_at_cell.
      - unfold resize_scan. by rewrite Hdec. }
    assert (T = t) as -> by (by apply resized_zero).
    split_and!; try done.
    - simpl. rewrite app_nil_r. by rewrite list_insert_id.
    - by intros r c ?%elem_of_nil.
    - rewrite decide_True by done. by rewrite app_nil_r. }
  pose proof (grid_inv_cells s _ _ tile t Hgrid Hcell Ht) as Hall.
  assert (forall r c, (r, c) ∈ cells -> in_grid s r c) as Hgridcells.
  { intros r c [Hcov _]%HX.
    by destruct (cell_Some_in_grid s r c tile Hwf (proj2 (Hall r c) Hcov)). }
  destruct (resizeTile_shrink_bound s direction from_row from_column tile_number
              tile t index widget granted cells Hwf Hdir Hrect Hcell Ht Hshrink Hscan Hne
              Hgridcells Hidx Hw)
    as (s' & Hrun & Hwf' & Htiles & Hcw & Hct & Hev & Hout & Hnew).
  assert (s1 = s') as -> by congruence.
  assert (row_number s' = row_number s /\ column_number s' = column_number s) as (HR & HC).
  { destruct (resizeTile_outcome s direction from_row from_column tile_number tile t)
      as (g & cs & Hscan' & _ & Hsome); [done..|].
    unfold resize_scan in Hscan'. rewrite Hdec in Hscan'.
    assert (cs = cells) as -> by congruence.
    destruct (Hsome Hne) as (s2 & _ & Hf2 & _ & Hb2 & _).
    specialize (Hb2 index widget Hidx Hw). rewrite Hrun in Hb2. injection Hb2 as ->.
    destruct Hf2 as (? & ? & _). by split. }
  split_and!; try done.
  rewrite decide_False; [done|]. intros Hg0. by apply Hne, Hnil.
Qed.

(** ** The registry and the tiles *)

Lemma elem_of_delete_ne {A : Type} (l : list A) i x y :
  l !! i = Some y -> x ∈ l -> x <> y -> x ∈ delete i l.
Proof.
  intros Hi [j Hj]%list_elem_of_lookup_1 Hne.
  assert (j <> i) as Hji by (intros ->; congruence).
  destruct (decide (j < i)%nat).
  - apply (list_elem_of_lookup_2 _ j). by rewrite list_lookup_delete_lt.
  - apply (list_elem_of_lookup_2 _ (pred j)). rewrite list_lookup_delete_ge by lia.
    by replace (S (pred j)) with j by lia.
Qed.

Lemma registry_addWidget s widget from_row from_column row_span column_span :
  Inv s -> registry_linked s -> filled_bound s ->
  valid_op s (OpAdd widget from_row from_column row_span column_span) ->
  forall s', addWidget widget from_row from_column row_span column_span s = (s', inr tt) ->
  registry_linked s' /\ filled_bound s'.
Proof.
  intros HInv Hlink Hfb Hvalid s1 Hrun1.
  destruct (addWidget_effect s widget _ _ _ _ HInv Hvalid)
    as (s' & tile & Hrun & _ & Hcell & Ht & Hunb & Honly & Htiles & Hcells & _ & _
        & Hcw & Hct & _).
  assert (s1 = s') as -> by congruence.
  destruct HInv as (_ & _ & Hlen & _). destruct Hvalid as (_ & _ & Hrs & Hcs).
  pose proof (lookup_lt_Some _ _ _ Ht) as Hlt.
  split.
  - intros index w id Hw Hid. rewrite Hcw in Hw. rewrite Hct in Hid.
    apply lookup_app_Some in Hw as [Hw|[Hge Hw]].
    + apply lookup_app_Some in Hid as [Hid|[Hge' _]].
      2:{ apply lookup_lt_Some in Hw. lia. }
      destruct (Hlink index w id Hw Hid) as (t' & Ht' & Hf' & Hw').
      exists t'. rewrite Htiles, list_lookup_insert_ne; [done|].
      intros <-. apply Hunb. by eapply list_elem_of_lookup_2.
    + apply list_lookup_singleton_Some in Hw as [Hi <-].
      apply lookup_app_Some in Hid as [Hid|[_ Hid]].
      { apply lookup_lt_Some in Hid. lia. }
      apply list_lookup_singleton_Some in Hid as [_ <-].
      eexists. rewrite Htiles, list_lookup_insert_eq by done. done.
  - intros r c id t' Hc Hid Hf. rewrite Hct. rewrite Hcells in Hc.
    destruct (decide _) as [Hin|Hout].
    + injection Hc as <-. apply elem_of_app. right. by apply list_elem_of_singleton.
    + apply elem_of_app. left. apply (Hfb r c id t' Hc); [|done].
      rewrite Htiles, list_lookup_insert_ne in Hid; [done|].
      intros <-. destruct (Honly r c Hc) as [-> ->]. apply Hout. unfold in_rect. lia.
Qed.

Lemma registry_removeWidget s widget :
  Inv s -> registry_linked s -> filled_bound s -> widget ∈ couple_widget s ->
  forall s', removeWidget widget s = (s', inr tt) ->
  registry_linked s' /\ filled_bound s'.
Proof.
  intros HInv Hlink Hfb Hw s1 Hrun1.
  destruct (removeWidget_effect s widget HInv Hw)
    as (s' & index & tile & t & [Hidx Htile] & Ht & Hf & _ & Hcov & Hrun & _ & _ & _
        & Hcw & Hct & _ & Htiles & Hout & Hown).
  assert (s1 = s') as -> by congruence.
  destruct HInv as (Hwf & _ & _).
  split.
  - intros j w id Hj Hid. rewrite Hcw in Hj. rewrite Hct in Hid.
    destruct (decide (j < index)%nat).
    + rewrite list_lookup_delete_lt in Hj, Hid by done.
      destruct (Hlink j w id Hj Hid) as (t' & Ht' & ? & ?).
      exists t'. rewrite Htiles. split; [by apply lookup_app_l_Some|done].
    + rewrite list_lookup_delete_ge in Hj, Hid by lia.
      destruct (Hlink (S j) w id Hj Hid) as (t' & Ht' & ? & ?).
      exists t'. rewrite Htiles. split; [by apply lookup_app_l_Some|done].
  - intros r c id t' Hc Hid Hf'. rewrite Hct.
    pose proof (Hown r c) as Ho. unfold owner in Ho. rewrite Hc in Ho. simpl in Ho.
    rewrite Hid in Ho. destruct (decide (covers t r c)) as [Hin|Hn].
    { injection Ho as ->. done. }
    rewrite (Hout r c Hn) in Hc.
    destruct (cell_Some_in_grid s r c id Hwf Hc) as [_ Hlt].
    rewrite Htiles, lookup_app_l in Hid by done.
    apply (elem_of_delete_ne _ _ _ tile); [done|by apply (Hfb r c id t')|].
    intros ->. by apply Hn, Hcov.
Qed.

Lemma registry_resize_grow s direction from_row from_column tile_number :
  Inv s -> registry_linked s -> filled_bound s ->
  is_direction direction -> bound_anchor s from_row from_column ->
  tile_number * (fst direction + snd direction) > 0 ->
  forall s', resizeTile direction from_row from_column tile_number s = (s', inr tt) ->
  registry_linked s' /\ filled_bound s'.
Proof.
  intros HInv Hlink Hfb Hdir Hb Hgrow s1 Hrun1.
  destruct (resizeTile_grow_effect s direction from_row from_column tile_number
              HInv Hdir Hb Hgrow)
    as (s' & tile & t & index & widget & cells & Hcell & Ht & _ & _ & Hf & _ & Hidx & Hw
        & Hrun & _ & _ & _ & _ & _ & Htiles & Hcells & _ & _ & Hcw & Hct & _).
  assert (s1 = s') as -> by congruence.
  pose proof (lookup_lt_Some _ _ _ Ht) as Hlt.
  assert (tile ∈ couple_tile s) as Hin.
  { eapply list_elem_of_lookup_2. by apply py_list_index_lookup. }
  split.
  - intros j w id Hj Hid. rewrite Hcw in Hj. rewrite Hct in Hid.
    destruct (Hlink j w id Hj Hid) as (t' & Ht' & ? & ?).
    rewrite Htiles. destruct (decide (id = tile)) as [->|Hne].
    + rewrite list_lookup_insert_eq by done. eexists. split; [done|].
      assert (t' = t) as -> by congruence. done.
    + rewrite list_lookup_insert_ne by done. by exists t'.
  - intros r c id t' Hc Hid Hf'. rewrite Hct. rewrite Hcells in Hc.
    destruct (decide _) as [_|_]; [by injection Hc as <-|].
    destruct (decide (id = tile)) as [->|Hne]; [done|].
    rewrite Htiles, list_lookup_insert_ne in Hid by done. by apply (Hfb r c id t').
Qed.

Lemma registry_split s s' tile T t cells :
  wf s -> registry_linked s -> filled_bound s ->
  tiles s !! tile = Some t -> tile ∈ couple_tile s ->
  isFilled T = isFilled t -> tile_widget T = tile_widget t ->
  tiles s' = <[tile := T]> (tiles s ++ unit_tiles cells) ->
  (forall r c, (r, c) ∉ cells -> cell s' r c = cell s r c) ->
  (forall r c, (r, c) ∈ cells ->
     exists new, cell s' r c = Some new /\ (length (tiles s) <= new)%nat
                 /\ tiles s' !! new = Some (Tile_new r c 1 1)) ->
  couple_widget s' = couple_widget s -> couple_tile s' = couple_tile s ->
  registry_linked s' /\ filled_bound s'.
Proof.
  intros Hwf Hlink Hfb Ht Hin HfT HwT Htiles Hout Hnew Hcw Hct.
  pose proof (lookup_lt_Some _ _ _ Ht) as Hlt.
  split.
  - intros j w id Hj Hid. rewrite Hcw in Hj. rewrite Hct in Hid.
    destruct (Hlink j w id Hj Hid) as (t' & Ht' & ? & ?).
    rewrite Htiles. destruct (decide (id = tile)) as [->|Hne].
    + rewrite list_lookup_insert_eq by (rewrite length_app; lia). eexists. split; [done|].
      assert (t' = t) as -> by congruence. by rewrite HfT, HwT.
    + rewrite list_lookup_insert_ne by done. exists t'.
      split; [by apply lookup_app_l_Some|done].
  - intros r c id t' Hc Hid Hf'. rewrite Hct.
    destruct (decide ((r, c) ∈ cells)) as [Hrc|Hrc].
    { destruct (Hnew r c Hrc) as (new & Hcn & _ & Hlk).
      assert (new = id) as -> by congruence. rewrite Hid in Hlk. by injection Hlk as ->. }
    rewrite (Hout r c Hrc) in Hc.
    destruct (decide (id = tile)) as [->|Hne]; [done|].
    destruct (cell_Some_in_grid s r c id Hwf Hc) as [_ Hlt'].
    rewrite Htiles, list_lookup_insert_ne, lookup_app_l in Hid by done.
    by apply (Hfb r c id t').
Qed.

Lemma registry_resize_shrink s direction from_row from_column tile_number :
  Inv s -> registry_linked s -> filled_bound s ->
  is_direction direction -> bound_anchor s from_row from_column ->
  tile_number * (fst direction + snd direction) <= 0 ->
  forall s', resizeTile direction from_row from_column tile_number s = (s', inr tt) ->
  registry_linked s' /\ filled_bound s'.
Proof.
  intros HInv Hlink Hfb Hdir Hb Hshrink s1 Hrun1.
  destruct (resizeTile_shrink_effect s direction from_row from_column tile_number
              HInv Hdir Hb Hshrink)
    as (s' & tile & t & index & widget & granted & cells & Hcell & Ht & _ & _ & Hf & _
        & Hidx & Hw & _ & _ & _ & Hrun & _ & _ & _ & _ & Htiles & Hout & Hnew & _ & _
        & Hcw & Hct & _).
  assert (s1 = s') as -> by congruence.
  destruct HInv as (Hwf & _).
  apply (registry_split s s' tile (resized direction from_row from_column granted t) t cells);
    try done.
  eapply list_elem_of_lookup_2. by apply py_list_index_lookup.
Qed.

Lemma registry_hardSplitTiles s from_row from_column cells :
  Inv s -> registry_linked s -> filled_bound s ->
  valid_op s (OpHardSplit from_row from_column cells) ->
  forall s' tile, hardSplitTiles from_row from_column cells s = (s', inr tile) ->
  registry_linked s' /\ filled_bound s'.
Proof.
  intros (Hwf & _) Hlink Hfb [Hin Hun] s1 tile1 Hrun1.
  assert (forall r c, (r, c) ∈ cells -> in_grid s r c) as Hgrid.
  { intros r c Hrc. rewrite Forall_forall in Hun. specialize (Hun (r, c) Hrc). simpl in Hun.
    apply unfilled_at_true in Hun as (id & t & Hc & _).
    by destruct (cell_Some_in_grid s r c id Hwf Hc). }
  destruct (hardSplitTiles_spec from_row from_column cells s Hwf Hin Hgrid)
    as (s' & tile & Hrun & _ & (_ & _ & Hcw & Hct & _) & _ & Htiles & Hout & Hnew).
  assert (s1 = s') as -> by congruence.
  split.
  - intros j w id Hj Hid. rewrite Hcw in Hj. rewrite Hct in Hid.
    destruct (Hlink j w id Hj Hid) as (t' & Ht' & ? & ?).
    exists t'. rewrite Htiles. split; [by apply lookup_app_l_Some|done].
  - intros r c id t' Hc Hid Hf'. rewrite Hct.
    destruct (decide ((r, c) ∈ cells)) as [Hrc|Hrc].
    { destruct (Hnew r c Hrc) as (new & Hcn & _ & Hlk).
      assert (new = id) as -> by congruence. rewrite Hid in Hlk. by injection Hlk as ->. }
    rewrite (Hout r c Hrc) in Hc.
    destruct (cell_Some_in_grid s r c id Hwf Hc) as [_ Hlt'].
    rewrite Htiles, lookup_app_l in Hid by done.
    by apply (Hfb r c id t').
Qed.

Lemma reachable_registry R C s :
  0 <= R -> 0 <= C -> reachable valid_op R C s ->
  Inv s /\ registry_linked s /\ filled_bound s.
Proof.
  intros HR HC Hreach. split; [by apply (reachable_Inv R C)|].
  induction Hreach as [Hinit|s op Hreach [Hlink Hfb] Hvalid].
  - destruct (init_returns R C HR HC Hinit).
    destruct (fresh_spec R C) as (s & Hrun & _ & _ & _ & Hcw & Hct & _ & Hown); [lia..|].
    rewrite (fresh_eq _ _ _ Hrun). split.
    + intros j w id Hj. by rewrite Hcw in Hj.
    + intros r c id t Hc Ht Hf. specialize (Hown r c). unfold owner in Hown.
      rewrite Hc in Hown. simpl in Hown. rewrite Ht in Hown.
      destruct (decide _); [|done]. by injection Hown as ->.
  - pose proof (reachable_Inv R C s HR HC Hreach) as HInv.
    destruct (Inv_exec s op HInv Hvalid) as (s' & Hrun & _).
    unfold run. rewrite Hrun. simpl. destruct op; simpl in Hrun.
    + by eapply registry_addWidget.
    + by eapply registry_removeWidget.
    + destruct Hvalid as [Hdir Hb].
      destruct (decide (tile_number * (fst direction + snd direction) > 0)).
      * by apply (registry_resize_grow s direction from_row from_column tile_number).
      * apply (registry_resize_shrink s direction from_row from_column tile_number);
          [done..|lia|done].
    + unfold bind in Hrun.
      destruct (hardSplitTiles from_row from_column tiles_to_split s) as [s1 [e|tile]] eqn:Hh;
        [done|].
      injection Hrun as <-. by eapply registry_hardSplitTiles.
Qed.

(** X12. In every layout reached by valid operations the registry
    and the tiles agree.  [widgetList] has no duplicates and is as long
    as the list of registered tiles; the tile registered at an index is
    filled and holds the item at the same index of [widgetList]; and a
    filled tile referenced by a cell of the grid is registered, so that
    the items of [widgetList] are exactly the items shown in the
    grid. *)
Theorem registry_matches_tiles R C s :
  0 <= R -> 0 <= C -> reachable valid_op R C s ->
  NoDup (widgetList s)
  /\ length (widgetList s) = length (couple_tile s)
  /\ (forall index widget tile,
        widgetList s !! index = Some widget -> couple_tile s !! index = Some tile ->
        exists t, tiles s !! tile = Some t /\ isFilled t = true
                  /\ tile_widget t = Some widget)
  /\ (forall r c t,
        owner s r c = Some t -> isFilled t = true ->
        exists widget, tile_widget t = Some widget /\ widget ∈ widgetList s)
  /\ (forall widget,
        widget ∈ widgetList s ->
        exists r c t, owner s r c = Some t /\ tile_widget t = Some widget).
Proof.
  intros HR HC Hreach.
  destruct (reachable_registry R C s HR HC Hreach)
    as ((Hwf & Hgrid & Hlen & Hndw & Hndt & Hbound) & Hlink & Hfb).
  unfold widgetList. split_and!; try done.
  - intros r c t Ho Hf. unfold owner in Ho.
    destruct (cell s r c) as [tile|] eqn:Hc; [|done]. simpl in Ho.
    pose proof (Hfb r c tile t Hc Ho Hf) as Hin.
    apply list_elem_of_lookup_1 in Hin as [index Hidx].
    destruct (lookup_lt_is_Some_2 (couple_widget s) index) as [widget Hw].
    { apply lookup_lt_Some in Hidx. lia. }
    destruct (Hlink index widget tile Hw Hidx) as (t' & Ht' & _ & Hw').
    assert (t' = t) as -> by congruence.
    exists widget. split; [done|]. by eapply list_elem_of_lookup_2.
  - intros widget [index Hw]%list_elem_of_lookup_1.
    destruct (lookup_lt_is_Some_2 (couple_tile s) index) as [tile Hidx].
    { apply lookup_lt_Some in Hw. lia. }
    destruct (Hlink index widget tile Hw Hidx) as (t & Ht & _ & Hw').
    destruct (Hbound tile) as (t' & r & c & Ht' & _ & Hc).
    { by eapply list_elem_of_lookup_2. }
    exists r, c, t. split; [|done]. unfold owner. rewrite Hc. done.
Qed.

Lemma registry_matches_tiles_witness :
  let s := run (exec (OpRemove 7%nat))
             (run (exec (OpResize east 0 1 5))
                (run (exec (OpAdd 8%nat 1 3 1 1))
                   (run (exec (OpAdd 7%nat 0 1 2 1)) (fresh 2 4)))) in
  NoDup (widgetList s)
  /\ length (widgetList s) = length (couple_tile s)
  /\ (forall index widget tile,
        widgetList s !! index = Some widget -> couple_tile s !! index = Some tile ->
        exists t, tiles s !! tile = Some t /\ isFilled t = true
                  /\ tile_widget t = Some widget)
  /\ (forall r c t,
        owner s r c = Some t -> isFilled t = true ->
        exists widget, tile_widget t = Some widget /\ widget ∈ widgetList s)
  /\ (forall widget,
        widget ∈ widgetList s ->
        exists r c t, owner s r c = Some t /\ tile_widget t = Some widget).
Proof.
  intros s. apply (registry_matches_tiles 2 4); [lia|lia|].
  repeat (apply reachable_step; [|apply (bool_decide_unpack _); vm_compute; reflexivity]).
  apply reachable_fresh. reflexivity.
Defined.

(** ** Resizing, owner by owner *)

Lemma bound_anchor_of_anchored s from_row from_column tile t :
  filled_bound s -> anchored_at s from_row from_column tile t -> isFilled t = true ->
  bound_anchor s from_row from_column.
Proof.
  intros Hfb (Hcell & Ht & Hr & Hc) Hf. unfold bound_anchor. rewrite Hcell, Ht.
  split; [|done]. by apply (Hfb from_row from_column tile t).
Qed.

Lemma resizeTile_grow_owner s direction from_row from_column tile_number tile t :
  Inv s -> is_direction direction ->
  anchored_at s from_row from_column tile t -> tile ∈ couple_tile s ->
  tile_number * (fst direction + snd direction) > 0 ->
  let k := free_strips s direction from_row from_column t
             (Z.min (Z.abs tile_number) (boundary_room s direction from_row from_column t)) in
  let T := resized direction from_row from_column ((fst direction + snd direction) * k) t in
  exists s' index widget,
    py_list_index tile (couple_tile s) = inr index
    /\ couple_widget s !! index = Some widget
    /\ resizeTile direction from_row from_column tile_number s = (s', inr tt) /\ Inv s'
    /\ 0 <= k /\ 1 <= getRowSpan t /\ 1 <= getColumnSpan t
    /\ (forall r c,
          covers T r c <->
          covers t r c
          \/ exists i, 0 <= i < k /\ (r, c) ∈ growth_strip direction from_row from_column t i)
    /\ (forall r c, covers t r c -> owner s r c = Some t)
    /\ (forall r c, covers T r c -> ~ covers t r c -> owner s r c = Some (Tile_new r c 1 1))
    /\ anchored_at s' (getFromRow T) (getFromColumn T) tile T
    /\ (forall r c, owner s' r c = if decide (covers T r c) then Some T else owner s r c)
    /\ couple_widget s' = couple_widget s /\ couple_tile s' = couple_tile s
    /\ length (tiles s') = length (tiles s)
    /\ tileResized s'
       = tileResized s ++ (if decide (k = 0) then [] else [resize_event widget T]).
Proof.
  intros HInv Hdir (Hcell & Ht & Hr & Hc) Hin Hgrow k T.
  assert (bound_anchor s from_row from_column) as Hb.
  { unfold bound_anchor. by rewrite Hcell, Ht. }
  destruct (resizeTile_grow_effect s direction from_row from_column tile_number
              HInv Hdir Hb Hgrow)
    as (s' & tile' & t' & index & widget & cells & Hcell' & Ht' & _ & _ & Hf & Hrect & Hidx & Hw
        & Hrun & HInv' & Hk & Hcells & Hunf & HT & Htiles & Hcs & _ & _ & Hcw & Hct & Hev).
  assert (tile' = tile) as -> by congruence. assert (t' = t) as -> by congruence.
  fold k in Hk, Hcells, HT, Htiles, Hev. fold T in HT, Htiles, Hev.
  destruct HInv as (Hwf & Hgrid & _).
  pose proof (grid_inv_cells s _ _ tile t Hgrid Hcell Ht) as Hall.
  pose proof (lookup_lt_Some _ _ _ Ht) as Hlt.
  pose proof Hrect as (?&?&?&?&?&?).
  assert (tiles s' !! tile = Some T) as HtT by (rewrite Htiles; by apply list_lookup_insert_eq).
  assert (forall r c, covers T r c -> cell s' r c = Some tile) as Hin'.
  { intros r c [Hcov|Hrc]%HT; rewrite Hcs; destruct (decide ((r, c) ∈ cells)); try done.
    by apply Hall. }
  exists s', index, widget. split_and!; try done.
  - intros r c. rewrite HT. by setoid_rewrite Hcells.
  - intros r c Hcov. unfold owner. by rewrite (proj2 (Hall r c) Hcov).
  - intros r c [Hcov|Hrc]%HT Hn; [done|].
    apply Hunf, unfilled_at_true in Hrc as (id & ti & Hci & Hti & Hfi).
    destruct (Hgrid r c id Hci) as (ti' & Hti' & _ & _ & Hunit).
    assert (ti' = ti) as -> by congruence.
    unfold owner. rewrite Hci. simpl. rewrite Hti. f_equal. by apply Hunit.
  - unfold anchored_at. split_and!; [|done..].
    apply Hin'. unfold covers, T, resized. simpl.
    destruct Hdir as [-> | [-> | [-> | ->]]]; simpl; lia.
  - intros r c. unfold owner. destruct (decide (covers T r c)) as [Hcov|Hn].
    + by rewrite (Hin' r c Hcov).
    + rewrite Hcs. rewrite decide_False by (intros Hrc; apply Hn, HT; by right).
      destruct (cell s r c) as [id|] eqn:Hci; [|done]. simpl.
      rewrite Htiles. apply list_lookup_insert_ne. intros <-.
      apply Hn, HT. left. by apply Hall.
  - by rewrite Htiles, length_insert.
Qed.

Lemma resizeTile_shrink_owner s direction from_row from_column tile_number tile t :
  Inv s -> is_direction direction ->
  anchored_at s from_row from_column tile t -> tile ∈ couple_tile s ->
  tile_number * (fst direction + snd direction) <= 0 ->
  exists s' index widget granted,
    py_list_index tile (couple_tile s) = inr index
    /\ couple_widget s !! index = Some widget
    /\ resizeTile direction from_row from_column tile_number s = (s', inr tt) /\ Inv s'
    /\ granted * (fst direction + snd direction) <= 0
    /\ Z.abs granted = Z.min (Z.abs tile_number) (axis_span direction t - 1)
    /\ let T := resized direction from_row from_column granted t in
       (forall r c, covers T r c -> covers t r c)
       /\ anchored_at s' (getFromRow T) (getFromColumn T) tile T
       /\ (forall r c,
             owner s' r c = if decide (covers T r c) then Some T
                            else if decide (covers t r c) then Some (Tile_new r c 1 1)
                            else owner s r c)
       /\ couple_widget s' = couple_widget s /\ couple_tile s' = couple_tile s
       /\ tileResized s'
          = tileResized s ++ (if decide (granted = 0) then [] else [resize_event widget T]).
Proof.
  intros HInv Hdir (Hcell & Ht & Hr & Hc) Hin Hshrink.
  assert (bound_anchor s from_row from_column) as Hb.
  { unfold bound_anchor. by rewrite Hcell, Ht. }
  destruct (resizeTile_shrink_effect s direction from_row from_column tile_number
              HInv Hdir Hb Hshrink)
    as (s' & tile' & t' & index & widget & granted & cells & Hcell' & Ht' & _ & _ & Hf & Hrect
        & Hidx & Hw & _ & Hsign & Habs & Hrun & HInv' & Hsub & Horigin & HX & Htiles & Hout
        & Hnew & _ & _ & Hcw & Hct & Hev).
  assert (tile' = tile) as -> by congruence. assert (t' = t) as -> by congruence.
  destruct HInv as (Hwf & Hgrid & _).
  pose proof (grid_inv_cells s _ _ tile t Hgrid Hcell Ht) as Hall.
  pose proof (lookup_lt_Some _ _ _ Ht) as Hlt.
  exists s', index, widget, granted. split_and!; try done.
  intros T. fold T in Hsub, Horigin, HX, Htiles, Hev.
  assert (tiles s' !! tile = Some T) as HtT.
  { rewrite Htiles. apply list_lookup_insert_eq. rewrite length_app. lia. }
  assert (forall r c, covers T r c -> cell s' r c = Some tile) as Hin'.
  { intros r c Hcov. rewrite Hout; [by apply Hall, Hsub|]. rewrite HX. by intros [_ ?]. }
  split_and!; try done.
  - split_and!; [by apply Hin'|done..].
  - intros r c. unfold owner. destruct (decide (covers T r c)) as [Hcov|Hn].
    { by rewrite (Hin' r c Hcov). }
    destruct (decide (covers t r c)) as [Hcovt|Hnt].
    { destruct (Hnew r c) as (new & -> & _ & Hlk); [by apply HX|]. done. }
    rewrite Hout by (rewrite HX; by intros [? _]).
    destruct (cell s r c) as [id|] eqn:Hci; [|done]. simpl.
    destruct (cell_Some_in_grid s r c id Hwf Hci) as [_ Hlt'].
    rewrite Htiles, list_lookup_insert_ne, lookup_app_l; [done..|].
    intros <-. by apply Hnt, Hall.
Qed.

Lemma reachable_bound R C s from_row from_column tile t widget :
  0 <= R -> 0 <= C -> reachable valid_op R C s ->
  anchored_at s from_row from_column tile t ->
  isFilled t = true -> tile_widget t = Some widget ->
  Inv s /\ tile ∈ couple_tile s
  /\ forall index widget',
       py_list_index tile (couple_tile s) = inr index ->
       couple_widget s !! index = Some widget' -> widget' = widget.
Proof.
  intros HR HC Hreach Hanch Hf Hw.
  destruct (reachable_registry R C s HR HC Hreach) as (HInv & Hlink & Hfb).
  pose proof Hanch as (Hcell & Ht & _).
  split; [done|]. split; [by apply (Hfb from_row from_column tile t)|].
  intros index widget' Hidx Hw'.
  destruct (Hlink index widget' tile Hw' (py_list_index_lookup _ _ _ Hidx)) as (t' & Ht' & _ & ?).
  congruence.
Qed.

(** X13. Growth of a filled tile, addressed at its origin, in a
    layout reached by valid operations.  The request returns; with [k]
    the number of free strips granted, the rectangle of the tile is the
    old one extended by the first [k] strips beyond its far edge, every
    cell of the new rectangle is owned by the resized tile and every
    other cell as before.  One signal is emitted when [k] is not zero,
    carrying the item of the tile and the new geometry, and none
    otherwise; [widgetList] is unchanged and no tile object is
    created. *)
Theorem resizeTile_grow_takes_free_strips R C s direction from_row from_column tile_number
    tile t widget :
  0 <= R -> 0 <= C -> reachable valid_op R C s ->
  is_direction direction ->
  anchored_at s from_row from_column tile t ->
  isFilled t = true -> tile_widget t = Some widget ->
  tile_number * (fst direction + snd direction) > 0 ->
  let k := free_strips s direction from_row from_column t
             (Z.min (Z.abs tile_number) (boundary_room s direction from_row from_column t)) in
  let T := resized direction from_row from_column ((fst direction + snd direction) * k) t in
  exists s',
    resizeTile direction from_row from_column tile_number s = (s', inr tt)
    /\ (forall r c,
          covers T r c <->
          covers t r c
          \/ exists i, 0 <= i < k /\ (r, c) ∈ growth_strip direction from_row from_column t i)
    /\ (forall r c, owner s' r c = if decide (covers T r c) then Some T else owner s r c)
    /\ tileResized s'
       = tileResized s ++ (if decide (k = 0) then [] else [resize_event widget T])
    /\ widgetList s' = widgetList s
    /\ length (tiles s') = length (tiles s).
Proof.
  intros HR HC Hreach Hdir Hanch Hf Hw Hgrow k T.
  destruct (reachable_bound R C s _ _ tile t widget HR HC Hreach Hanch Hf Hw)
    as (HInv & Hin & Hwidget).
  destruct (resizeTile_grow_owner s direction from_row from_column tile_number tile t
              HInv Hdir Hanch Hin Hgrow)
    as (s' & index & widget' & Hidx & Hw' & Hrun & _ & _ & _ & _ & HT & _ & _ & _ & Hown
        & Hcw & _ & Hlen & Hev).
  rewrite (Hwidget index widget' Hidx Hw') in Hev.
  exists s'. by split_and!.
Qed.

Lemma resizeTile_grow_takes_free_strips_witness :
  let s := run (exec (OpAdd 8%nat 0 3 1 1)) (run (exec (OpAdd 7%nat 0 0 1 1)) (fresh 1 5)) in
  let t := mkTile 0 0 1 1 true (Some 7%nat) in
  let k := free_strips s east 0 0 t (Z.min (Z.abs 4) (boundary_room s east 0 0 t)) in
  let T := resized east 0 0 ((fst east + snd east) * k) t in
  exists s',
    resizeTile east 0 0 4 s = (s', inr tt)
    /\ (forall r c,
          covers T r c <->
          covers t r c \/ exists i, 0 <= i < k /\ (r, c) ∈ growth_strip east 0 0 t i)
    /\ (forall r c, owner s' r c = if decide (covers T r c) then Some T else owner s r c)
    /\ tileResized s'
       = tileResized s ++ (if decide (k = 0) then [] else [resize_event 7%nat T])
    /\ widgetList s' = widgetList s
    /\ length (tiles s') = length (tiles s).
Proof.
  intros s t.
  apply (resizeTile_grow_takes_free_strips 1 5 s east 0 0 4 0%nat t 7%nat); [lia|lia|..].
  - repeat (apply reachable_step; [|apply (bool_decide_unpack _); vm_compute; reflexivity]).
    apply reachable_fresh. reflexivity.
  - apply (bool_decide_unpack _). vm_compute. reflexivity.
  - apply (bool_decide_unpack _). vm_compute. reflexivity.
  - reflexivity.
  - reflexivity.
  - vm_compute. reflexivity.
Defined.

(** X14. Shrinking of a filled tile, addressed at its origin, in a
    layout reached by valid operations.  The request returns, having
    granted as many units as requested up to the span of the tile along
    the direction minus one.  The rectangle of the resized tile lies
    within the old one and its cells are owned by the resized tile;
    each cell shed is owned by a new unfilled unit tile at that cell;
    every other cell is owned as before.  One signal is emitted when a
    unit is granted, carrying the item of the tile and the new
    geometry, and none otherwise; [widgetList] is unchanged. *)
Theorem resizeTile_shrink_sheds_unit_tiles R C s direction from_row from_column tile_number
    tile t widget :
  0 <= R -> 0 <= C -> reachable valid_op R C s ->
  is_direction direction ->
  anchored_at s from_row from_column tile t ->
  isFilled t = true -> tile_widget t = Some widget ->
  tile_number * (fst direction + snd direction) <= 0 ->
  exists s' granted,
    resizeTile direction from_row from_column tile_number s = (s', inr tt)
    /\ granted * (fst direction + snd direction) <= 0
    /\ Z.abs granted = Z.min (Z.abs tile_number) (axis_span direction t - 1)
    /\ let T := resized direction from_row from_column granted t in
       (forall r c, covers T r c -> covers t r c)
       /\ (forall r c,
             owner s' r c = if decide (covers T r c) then Some T
                            else if decide (covers t r c) then Some (Tile_new r c 1 1)
                            else owner s r c)
       /\ tileResized s'
          = tileResized s ++ (if decide (granted = 0) then [] else [resize_event widget T])
       /\ widgetList s' = widgetList s.
Proof.
  intros HR HC Hreach Hdir Hanch Hf Hw Hshrink.
  destruct (reachable_bound R C s _ _ tile t widget HR HC Hreach Hanch Hf Hw)
    as (HInv & Hin & Hwidget).
  destruct (resizeTile_shrink_owner s direction from_row from_column tile_number tile t
              HInv Hdir Hanch Hin Hshrink)
    as (s' & index & widget' & granted & Hidx & Hw' & Hrun & _ & Hsign & Habs & Hsub & _ & Hown
        & Hcw & _ & Hev).
  rewrite (Hwidget index widget' Hidx Hw') in Hev.
  exists s', granted. by split_and!.
Qed.

Lemma resizeTile_shrink_sheds_unit_tiles_witness :
  let s := run (exec (OpAdd 7%nat 0 1 3 1)) (fresh 3 2) in
  let t := mkTile 0 1 3 1 true (Some 7%nat) in
  exists s' granted,
    resizeTile north 0 1 5 s = (s', inr tt)
    /\ granted * (fst north + snd north) <= 0
    /\ Z.abs granted = Z.min (Z.abs 5) (axis_span north t - 1)
    /\ let T := resized north 0 1 granted t in
       (forall r c, covers T r c -> covers t r c)
       /\ (forall r c,
             owner s' r c = if decide (covers T r c) then Some T
                            else if decide (covers t r c) then Some (Tile_new r c 1 1)
                            else owner s r c)
       /\ tileResized s'
          = tileResized s ++ (if decide (granted = 0) then [] else [resize_event 7%nat T])
       /\ widgetList s' = widgetList s.
Proof.
  intros s t.
  apply (resizeTile_shrink_sheds_unit_tiles 3 2 s north 0 1 5 1%nat t 7%nat); [lia|lia|..].
  - repeat (apply reachable_step; [|apply (bool_decide_unpack _); vm_compute; reflexivity]).
    apply reachable_fresh. reflexivity.
  - apply (bool_decide_unpack _). vm_compute. reflexivity.
  - apply (bool_decide_unpack _). vm_compute. reflexivity.
  - reflexivity.
  - reflexivity.
  - vm_compute. discriminate.
Defined.

Lemma resized_back direction from_row from_column t k granted :
  is_direction direction ->
  getFromRow t = from_row -> getFromColumn t = from_column ->
  0 <= k -> 1 <= getRowSpan t -> 1 <= getColumnSpan t ->
  let T := resized direction from_row from_column ((fst direction + snd direction) * k) t in
  granted * (fst direction + snd direction) <= 0 ->
  Z.abs granted = Z.min (Z.abs (- (fst direction + snd direction) * k))
                        (axis_span direction T - 1) ->
  resized direction (getFromRow T) (getFromColumn T) granted T = t.
Proof.
  intros Hdir <- <- Hk Hrs Hcs. destruct t as [fr fc rs cs f w]. simpl in *.
  destruct Hdir as [-> | [-> | [-> | ->]]]; unfold resized, Tile_updateSize, axis_span;
    simpl; intros Hsign Habs; f_equal; lia.
Qed.

(** X15. In a layout reached from a fresh grid by valid operations,
    growing a filled tile, addressed at its origin, and then shrinking
    it in the same direction, at its new origin, by the number of
    strips the growth was granted, gives back the layout before the
    growth: both requests return, and every cell is owned by a tile
    object with the same geometry, fill flag and item as before;
    [widgetList] is the same. *)
Theorem resizeTile_grow_shrink_round_trip R C s direction from_row from_column tile_number
    tile t :
  0 <= R -> 0 <= C -> reachable valid_op R C s ->
  is_direction direction ->
  anchored_at s from_row from_column tile t -> isFilled t = true ->
  tile_number * (fst direction + snd direction) > 0 ->
  let k := free_strips s direction from_row from_column t
             (Z.min (Z.abs tile_number) (boundary_room s direction from_row from_column t)) in
  let T := resized direction from_row from_column ((fst direction + snd direction) * k) t in
  exists s1 s2,
    resizeTile direction from_row from_column tile_number s = (s1, inr tt)
    /\ resizeTile direction (getFromRow T) (getFromColumn T)
                  (- (fst direction + snd direction) * k) s1 = (s2, inr tt)
    /\ (forall r c, owner s2 r c = owner s r c)
    /\ widgetList s2 = widgetList s.
Proof.
  intros HR HC Hreach Hdir Hanch Hf Hgrow k T.
  destruct (reachable_registry R C s HR HC Hreach) as (HInv & _ & Hfb).
  pose proof Hanch as (Hcell & Ht & Hr & Hc).
  pose proof (Hfb _ _ tile t Hcell Ht Hf) as Hin.
  destruct (resizeTile_grow_owner s direction from_row from_column tile_number tile t
              HInv Hdir Hanch Hin Hgrow)
    as (s1 & index & widget & _ & _ & Hrun1 & HInv1 & Hk & Hrs & Hcs & HT & Hold & Hnew
        & Hanch1 & Hown1 & Hcw1 & Hct1 & _ & _).
  fold k in Hk, HT, Hnew, Hanch1, Hown1. fold T in HT, Hnew, Hanch1, Hown1.
  assert ((- (fst direction + snd direction) * k) * (fst direction + snd direction) <= 0)
    as Hshrink.
  { destruct Hdir as [-> | [-> | [-> | ->]]]; simpl; lia. }
  destruct (resizeTile_shrink_owner s1 direction (getFromRow T) (getFromColumn T)
              (- (fst direction + snd direction) * k) tile T HInv1 Hdir Hanch1)
    as (s2 & index2 & widget2 & granted & _ & _ & Hrun2 & _ & Hsign & Habs & _ & _ & Hown2
        & Hcw2 & _ & _); [by rewrite Hct1|done|].
  assert (resized direction (getFromRow T) (getFromColumn T) granted T = t) as Hback.
  { by apply (resized_back direction from_row from_column t k granted). }
  rewrite Hback in Hown2.
  exists s1, s2. split_and!; try done.
  - intros r c. rewrite Hown2. destruct (decide (covers t r c)) as [Hcov|Hn].
    { by rewrite Hold. }
    destruct (decide (covers T r c)) as [HcT|HnT].
    { by rewrite Hnew. }
    by rewrite Hown1, decide_False.
  - unfold widgetList. by rewrite Hcw2, Hcw1.
Qed.

Lemma resizeTile_grow_shrink_round_trip_witness :
  let s := run (exec (OpAdd 8%nat 0 0 1 1)) (run (exec (OpAdd 7%nat 0 3 1 1)) (fresh 1 5)) in
  let t := mkTile 0 3 1 1 true (Some 7%nat) in
  let k := free_strips s west 0 3 t (Z.min (Z.abs (-4)) (boundary_room s west 0 3 t)) in
  let T := resized west 0 3 ((fst west + snd west) * k) t in
  exists s1 s2,
    resizeTile west 0 3 (-4) s = (s1, inr tt)
    /\ resizeTile west (getFromRow T) (getFromColumn T) (- (fst west + snd west) * k) s1
       = (s2, inr tt)
    /\ (forall r c, owner s2 r c = owner s r c)
    /\ widgetList s2 = widgetList s.
Proof.
  intros s t.
  apply (resizeTile_grow_shrink_round_trip 1 5 s west 0 3 (-4) 3%nat t); [lia|lia|..].
  - repeat (apply reachable_step; [|apply (bool_decide_unpack _); vm_compute; reflexivity]).
    apply reachable_fresh. reflexivity.
  - apply (bool_decide_unpack _). vm_compute. reflexivity.
  - apply (bool_decide_unpack _). vm_compute. reflexivity.
  - reflexivity.
  - vm_compute. reflexivity.
Defined.

(** ** What no method changes *)

Create HintDb preserves.

Lemma stable_refl s : stable s s.
Proof. unfold stable. by split_and!. Qed.

Lemma stable_trans s1 s2 s3 : stable s1 s2 -> stable s2 s3 -> stable s1 s3.
Proof.
  unfold stable. intros (?&?&?&?&?) (?&?&?&?&?).
  split_and!; [congruence..|lia|by etrans].
Qed.

Lemma preserves_ret {A : Type} (a : A) : preserves (ret a).
Proof. intros s s' r [= <- _]. apply stable_refl. Qed.

Lemma preserves_raise {A : Type} (e : exn) : preserves (@raise A e).
Proof. intros s s' r [= <- _]. apply stable_refl. Qed.

Lemma preserves_read {A : Type} (f : TileLayout -> Res A) : preserves (read f).
Proof. intros s s' r [= <- _]. apply stable_refl. Qed.

Lemma preserves_py_assert b : preserves (py_assert b).
Proof. destruct b; [apply preserves_ret|apply preserves_raise]. Qed.

Lemma preserves_qt_call args : preserves (qt_call args).
Proof. unfold qt_call. case_bool_decide; [apply preserves_ret|apply preserves_raise]. Qed.

Lemma preserves_bind {A B : Type} (m : M A) (k : A -> M B) :
  preserves m -> (forall a, preserves (k a)) -> preserves (bind m k).
Proof.
  intros Hm Hk s s' r. unfold bind. destruct (m s) as [s1 [e|a]] eqn:Hms.
  - intros [= <- _]. by apply (Hm s s1 (inl e)).
  - intros Hka. eapply stable_trans; [by apply (Hm s s1 (inr a))|by apply (Hk a s1 s' r)].
Qed.

Lemma preserves_for_each {A : Type} (l : list A) (body : A -> M unit) :
  (forall x, preserves (body x)) -> preserves (for_each l body).
Proof.
  intros Hbody. induction l as [|x l IH]; simpl; [apply preserves_ret|].
  apply preserves_bind; [apply Hbody|done].
Qed.

Lemma preserves_state {A : Type} (f : TileLayout -> M A) :
  (forall s0, preserves (f s0)) -> preserves (fun s => f s s).
Proof. intros Hf s s' r H. by apply (Hf s s s' r). Qed.

Lemma preserves_set_cell row column tile : preserves (set_cell row column tile).
Proof.
  intros s s' r. unfold set_cell.
  destruct (py_index (tile_map s) row) as [i|]; [|intros [= <- _]; apply stable_refl].
  destruct (tile_map s !! i) as [x|] eqn:Hi; [|intros [= <- _]; apply stable_refl].
  unfold py_setitem. destruct (py_index x column) as [j|]; simpl;
    [|intros [= <- _]; apply stable_refl].
  intros [= <- _]. unfold stable, shape. simpl. split_and!; try done.
  rewrite list_fmap_insert, length_insert. apply list_insert_id.
  by rewrite list_lookup_fmap, Hi.
Qed.

Lemma preserves_update_tile tile f : preserves (update_tile tile f).
Proof.
  intros s s' r. unfold update_tile.
  destruct (tiles s !! tile) as [t|]; [|intros [= <- _]; apply stable_refl].
  intros [= <- _]. unfold stable, shape. simpl. split_and!; try done.
  by rewrite length_insert.
Qed.

Lemma preserves_createTile from_row from_column row_span column_span update_tile_map :
  preserves (__createTile from_row from_column row_span column_span update_tile_map).
Proof.
  intros s s' r. unfold __createTile. intros Hrun.
  eapply stable_trans; [|eapply preserves_bind; [| |exact Hrun]].
  - unfold stable, shape. simpl. split_and!; try done. rewrite length_app. lia.
  - apply preserves_qt_call.
  - intros ?. apply preserves_bind; [|intros ?; apply preserves_ret].
    destruct update_tile_map; [|apply preserves_ret].
    apply preserves_for_each. intros [row column]. apply preserves_set_cell.
Qed.

Lemma preserves_set_couple (f g : TileLayout -> list nat) :
  preserves (modify (fun s => set_couple (f s) (g s) s)).
Proof. intros s s' r [= <- _]. unfold stable, shape. simpl. by split_and!. Qed.

Lemma preserves_emit (e : TileLayout -> Event) :
  preserves (modify (fun s => set_tileResized (tileResized s ++ [e s]) s)).
Proof.
  intros s s' r [= <- _]. unfold stable, shape. simpl. split_and!; try done.
  by apply prefix_app_r.
Qed.

#[local] Hint Resolve preserves_ret preserves_raise preserves_read preserves_py_assert
  preserves_qt_call preserves_bind preserves_set_cell preserves_update_tile preserves_createTile preserves_set_couple
  : preserves.

Lemma preserves_mergeTiles tile from_row from_column row_span column_span tiles_to_merge :
  preserves (__mergeTiles tile from_row from_column row_span column_span tiles_to_merge).
Proof.
  unfold __mergeTiles. apply preserves_bind; [|auto with preserves].
  apply preserves_for_each. intros [row column].
  apply preserves_bind; auto with preserves.
Qed.

Lemma preserves_splitTiles tile from_row from_column row_span column_span tiles_to_split :
  preserves (__splitTiles tile from_row from_column row_span column_span tiles_to_split).
Proof.
  unfold __splitTiles. apply preserves_bind; [|auto with preserves].
  apply preserves_for_each. intros [row column].
  apply preserves_bind; auto with preserves.
Qed.

Lemma preserves_hardSplitTiles from_row from_column tiles_to_split :
  preserves (hardSplitTiles from_row from_column tiles_to_split).
Proof.
  unfold hardSplitTiles. apply preserves_bind; [auto with preserves|]. intros _.
  apply preserves_bind; [|auto with preserves].
  apply preserves_for_each. intros [row column].
  apply preserves_bind; [auto with preserves|]. intros _.
  apply preserves_bind; auto with preserves.
Qed.

Lemma preserves_changeTilesColor : preserves changeTilesColor.
Proof.
  unfold changeTilesColor.
  apply (preserves_state (fun s0 =>
    for_each (py_range (row_number s0)) (fun row =>
      for_each (py_range (column_number s0)) (fun column =>
        let* _ := read (fun s => filled_at s row column) in ret tt)))).
  intros s0. apply preserves_for_each. intros row. apply preserves_for_each. intros column.
  apply preserves_bind; auto with preserves.
Qed.

Lemma preserves_addWidget widget from_row from_column row_span column_span :
  preserves (addWidget widget from_row from_column row_span column_span).
Proof.
  unfold addWidget. apply preserves_bind.
  { apply (preserves_state (fun s0 => py_assert (negb (py_in widget (couple_widget s0))))).
    auto with preserves. }
  intros _. apply preserves_bind; [auto with preserves|]. intros ok.
  apply preserves_bind; [auto with preserves|]. intros _.
  apply preserves_bind; [auto with preserves|]. intros tile.
  apply preserves_bind.
  { apply (preserves_set_couple (fun s => couple_widget s ++ [widget])
                                (fun s => couple_tile s ++ [tile])). }
  intros _. apply preserves_bind; [|auto with preserves].
  destruct (_ || _); [apply preserves_mergeTiles|auto with preserves].
Qed.

Lemma preserves_removeWidget widget : preserves (removeWidget widget).
Proof.
  unfold removeWidget. apply preserves_bind.
  { apply (preserves_state (fun s0 => py_assert (py_in widget (couple_widget s0)))).
    auto with preserves. }
  intros _. apply preserves_bind; [auto with preserves|]. intros index.
  apply preserves_bind; [auto with preserves|]. intros tile.
  apply preserves_bind; [auto with preserves|]. intros t.
  apply preserves_bind; [apply preserves_hardSplitTiles|]. intros _.
  apply preserves_bind; [|intros _; apply preserves_changeTilesColor].
  apply (preserves_set_couple (fun s => py_pop index (couple_widget s))
                              (fun s => py_pop index (couple_tile s))).
Qed.

Lemma preserves_resizeTile direction from_row from_column tile_number :
  preserves (resizeTile direction from_row from_column tile_number).
Proof.
  unfold resizeTile. apply preserves_bind; [auto with preserves|]. intros tile.
  apply preserves_bind; [auto with preserves|]. intros t.
  destruct direction as [dir_x dir_y].
  apply preserves_bind; [auto with preserves|]. intros [granted [|cell0 cells]];
    [auto with preserves|].
  apply preserves_bind.
  { destruct (_ >? _); [apply preserves_mergeTiles|apply preserves_splitTiles]. }
  intros _. apply preserves_bind; [auto with preserves|]. intros index.
  apply preserves_bind; [auto with preserves|]. intros widget.
  apply (preserves_emit (fun _ => (widget, _))).
Qed.

(** X16. Whatever the layout and the arguments, and whether the call
    returns or raises, none of [addWidget], [removeWidget],
    [resizeTile] and [hardSplitTiles] changes [rowCount] or
    [columnCount], adds or removes a row of the grid or a cell of a
    row, drops a tile object, or takes back a signal already
    emitted. *)
Theorem operations_keep_dimensions op s :
  let s' := run (exec op) s in
  rowCount s' = rowCount s /\ columnCount s' = columnCount s
  /\ shape s' = shape s
  /\ (length (tiles s) <= length (tiles s'))%nat
  /\ tileResized s `prefix_of` tileResized s'.
Proof.
  unfold run. destruct (exec op s) as [s' r] eqn:Hrun. simpl.
  assert (preserves (exec op)) as Hp.
  { destruct op; simpl.
    - apply preserves_addWidget.
    - apply preserves_removeWidget.
    - apply preserves_resizeTile.
    - apply preserves_bind; [apply preserves_hardSplitTiles|auto with preserves]. }
  exact (Hp s s' r Hrun).
Qed.

(** ** What the grid operations leave alone *)

Section Keeps.

Context {B : Type} (f : TileLayout -> B).
Hypothesis f_tile_map : forall m s, f (set_tile_map m s) = f s.
Hypothesis f_tiles : forall h s, f (set_tiles h s) = f s.

Lemma keeps_ret {A : Type} (a : A) : keeps f (ret a).
Proof. by intros s s' r [= <- _]. Qed.

Lemma keeps_raise {A : Type} (e : exn) : keeps f (@raise A e).
Proof. by intros s s' r [= <- _]. Qed.

Lemma keeps_read {A : Type} (g : TileLayout -> Res A) : keeps f (read g).
Proof. by intros s s' r [= <- _]. Qed.

Lemma keeps_py_assert b : keeps f (py_assert b).
Proof. destruct b; [apply keeps_ret|apply keeps_raise]. Qed.

Lemma keeps_qt_call args : keeps f (qt_call args).
Proof. unfold qt_call. case_bool_decide; [apply keeps_ret|apply keeps_raise]. Qed.

Lemma keeps_bind {A A' : Type} (m : M A) (k : A -> M A') :
  keeps f m -> (forall a, keeps f (k a)) -> keeps f (bind m k).
Proof.
  intros Hm Hk s s' r. unfold bind. destruct (m s) as [s1 [e|a]] eqn:Hms.
  - intros [= <- _]. by apply (Hm s s1 (inl e)).
  - intros Hka. rewrite (Hk a s1 s' r Hka). by apply (Hm s s1 (inr a)).
Qed.

Lemma keeps_for_each {A : Type} (l : list A) (body : A -> M unit) :
  (forall x, keeps f (body x)) -> keeps f (for_each l body).
Proof.
  intros Hbody. induction l as [|x l IH]; simpl; [apply keeps_ret|].
  apply keeps_bind; [apply Hbody|done].
Qed.

Lemma keeps_state {A : Type} (g : TileLayout -> M A) :
  (forall s0, keeps f (g s0)) -> keeps f (fun s => g s s).
Proof. intros Hg s s' r H. by apply (Hg s s s' r). Qed.

Lemma keeps_set_cell row column tile : keeps f (set_cell row column tile).
Proof.
  intros s s' r. unfold set_cell.
  destruct (py_index (tile_map s) row) as [i|]; [|by intros [= <- _]].
  destruct (tile_map s !! i) as [x|]; [|by intros [= <- _]].
  destruct (py_setitem x column tile); intros [= <- _]; [done|apply f_tile_map].
Qed.

Lemma keeps_update_tile tile g : keeps f (update_tile tile g).
Proof.
  intros s s' r. unfold update_tile.
  destruct (tiles s !! tile) as [t|]; intros [= <- _]; [apply f_tiles|done].
Qed.

Lemma keeps_createTile from_row from_column row_span column_span update_tile_map :
  keeps f (__createTile from_row from_column row_span column_span update_tile_map).
Proof.
  intros s s' r. unfold __createTile. intros Hrun.
  rewrite <- (f_tiles (tiles s ++ [Tile_new from_row from_column row_span column_span]) s).
  revert Hrun. apply keeps_bind; [apply keeps_qt_call|intros _].
  apply keeps_bind; [|intros a; apply keeps_ret].
  destruct update_tile_map; [|apply keeps_ret].
  apply keeps_for_each. intros [row column]. apply keeps_set_cell.
Qed.

Lemma keeps_mergeTiles tile from_row from_column row_span column_span tiles_to_merge :
  keeps f (__mergeTiles tile from_row from_column row_span column_span tiles_to_merge).
Proof.
  unfold __mergeTiles. apply keeps_bind.
  - apply keeps_for_each. intros [row column].
    apply keeps_bind; [apply keeps_read|intros _; apply keeps_set_cell].
  - intros _. apply keeps_bind; [apply keeps_qt_call|intros _; apply keeps_update_tile].
Qed.

Lemma keeps_splitTiles tile from_row from_column row_span column_span tiles_to_split :
  keeps f (__splitTiles tile from_row from_column row_span column_span tiles_to_split).
Proof.
  unfold __splitTiles. apply keeps_bind.
  - apply keeps_for_each. intros [row column].
    apply keeps_bind; [apply keeps_createTile|intros _; apply keeps_ret].
  - intros _. apply keeps_bind; [apply keeps_qt_call|intros _; apply keeps_update_tile].
Qed.

Lemma keeps_hardSplitTiles from_row from_column tiles_to_split :
  keeps f (hardSplitTiles from_row from_column tiles_to_split).
Proof.
  unfold hardSplitTiles. apply keeps_bind; [apply keeps_py_assert|]. intros _.
  apply keeps_bind.
  - apply keeps_for_each. intros [row column].
    apply keeps_bind; [apply keeps_read|]. intros _.
    apply keeps_bind; [apply keeps_createTile|intros _; apply keeps_ret].
  - intros _. apply keeps_bind; [apply keeps_read|]. intros tile.
    apply keeps_bind; [apply keeps_qt_call|intros _; apply keeps_ret].
Qed.

Lemma keeps_changeTilesColor : keeps f changeTilesColor.
Proof.
  unfold changeTilesColor.
  apply (keeps_state (fun s0 =>
    for_each (py_range (row_number s0)) (fun row =>
      for_each (py_range (column_number s0)) (fun column =>
        let* _ := read (fun s => filled_at s row column) in ret tt)))).
  intros s0. apply keeps_for_each. intros row. apply keeps_for_each. intros column.
  apply keeps_bind; [apply keeps_read|intros _; apply keeps_ret].
Qed.

End Keeps.

Lemma keeps_addWidget_signals widget from_row from_column row_span column_span :
  keeps tileResized (addWidget widget from_row from_column row_span column_span).
Proof.
  unfold addWidget. apply keeps_bind.
  { apply (keeps_state tileResized
             (fun s0 => py_assert (negb (py_in widget (couple_widget s0))))).
    intros s0. apply keeps_py_assert. }
  intros _. apply keeps_bind; [apply keeps_read|]. intros ok.
  apply keeps_bind; [apply keeps_py_assert|]. intros _.
  apply keeps_bind; [apply keeps_read|]. intros tile.
  apply keeps_bind; [by intros s s' r [= <- _]|]. intros _.
  apply keeps_bind; [|intros _; by apply keeps_update_tile].
  destruct (_ || _); [by apply keeps_mergeTiles|apply keeps_ret].
Qed.

Lemma keeps_removeWidget_signals widget : keeps tileResized (removeWidget widget).
Proof.
  unfold removeWidget. apply keeps_bind.
  { apply (keeps_state tileResized (fun s0 => py_assert (py_in widget (couple_widget s0)))).
    intros s0. apply keeps_py_assert. }
  intros _. apply keeps_bind; [apply keeps_read|]. intros index.
  apply keeps_bind; [apply keeps_read|]. intros tile.
  apply keeps_bind; [apply keeps_read|]. intros t.
  apply keeps_bind; [by apply keeps_hardSplitTiles|]. intros _.
  apply keeps_bind; [by intros s s' r [= <- _]|]. intros _.
  apply keeps_changeTilesColor.
Qed.

Lemma keeps_resizeTile_registry direction from_row from_column tile_number :
  keeps registry (resizeTile direction from_row from_column tile_number).
Proof.
  unfold resizeTile. apply keeps_bind; [apply keeps_read|]. intros tile.
  apply keeps_bind; [apply keeps_read|]. intros t.
  destruct direction as [dir_x dir_y].
  apply keeps_bind; [apply keeps_read|]. intros [granted [|cell0 cells]];
    [apply keeps_ret|].
  apply keeps_bind.
  { destruct (_ >? _); [by apply keeps_mergeTiles|by apply keeps_splitTiles]. }
  intros _. apply keeps_bind; [apply keeps_read|]. intros index.
  apply keeps_bind; [apply keeps_read|]. intros widget.
  by intros s s' r [= <- _].
Qed.

(** X17. Signals come from [resizeTile] only: whatever the layout and
    the arguments, and whether the call returns or raises, [addWidget],
    [removeWidget] and [hardSplitTiles] emit no [tileResized]
    signal. *)
Theorem only_resizeTile_emits s :
  (forall widget from_row from_column row_span column_span,
     tileResized (run (addWidget widget from_row from_column row_span column_span) s)
     = tileResized s)
  /\ (forall widget, tileResized (run (removeWidget widget) s) = tileResized s)
  /\ (forall from_row from_column tiles_to_split,
        tileResized (run (hardSplitTiles from_row from_column tiles_to_split) s)
        = tileResized s).
Proof.
  split_and!.
  - intros widget from_row from_column row_span column_span. unfold run.
    destruct (addWidget _ _ _ _ _ s) as [s' r] eqn:Hrun.
    exact (keeps_addWidget_signals _ _ _ _ _ s s' r Hrun).
  - intros widget. unfold run. destruct (removeWidget _ s) as [s' r] eqn:Hrun.
    exact (keeps_removeWidget_signals _ s s' r Hrun).
  - intros from_row from_column tiles_to_split. unfold run.
    destruct (hardSplitTiles _ _ _ s) as [s' r] eqn:Hrun.
    by apply (keeps_hardSplitTiles tileResized) in Hrun.
Qed.

(** X18. The registry changes through [addWidget] and [removeWidget]
    only: whatever the layout and the arguments, and whether the call
    returns or raises, [resizeTile] and [hardSplitTiles] leave
    [widgetList] and the list of registered tiles as they were.  A
    hard split of the cells of a registered tile therefore leaves its
    item registered. *)
Theorem grid_operations_keep_registry s :
  (forall direction from_row from_column tile_number,
     let s' := run (resizeTile direction from_row from_column tile_number) s in
     widgetList s' = widgetList s /\ couple_tile s' = couple_tile s)
  /\ (forall from_row from_column tiles_to_split,
        let s' := run (hardSplitTiles from_row from_column tiles_to_split) s in
        widgetList s' = widgetList s /\ couple_tile s' = couple_tile s).
Proof.
  split.
  - intros direction from_row from_column tile_number. unfold run.
    destruct (resizeTile _ _ _ _ s) as [s' r] eqn:Hrun. simpl.
    pose proof (keeps_resizeTile_registry _ _ _ _ s s' r Hrun) as [= Hw Ht].
    by split.
  - intros from_row from_column tiles_to_split. unfold run.
    destruct (hardSplitTiles _ _ _ s) as [s' r] eqn:Hrun. simpl.
    assert (registry s' = registry s) as [= Hw Ht].
    { by apply (keeps_hardSplitTiles registry) in Hrun. }
    by split.
Qed.

(** ** The order of the cells a growth scan returns *)

Lemma flattenList_concat {A : Type} (to_flatten : list (list A)) :
  flattenList to_flatten = concat to_flatten.
Proof.
  unfold flattenList. induction to_flatten as [|a_list l IH]; [done|].
  rewrite bind_cons, IH. simpl. f_equal.
  induction a_list as [|item a_list IHa]; [done|].
  rewrite bind_cons, IHa. done.
Qed.

Lemma take_fmap_seqZ {A : Type} (f : Z -> A) (n : nat) (len : Z) :
  Z.of_nat n <= len -> take n (f <$> seqZ 0 len) = f <$> seqZ 0 (Z.of_nat n).
Proof.
  intros Hn. unfold seqZ. rewrite <- !fmap_take, take_seq, Nat2Z.id.
  by replace (n `min` Z.to_nat len)%nat with n by lia.
Qed.

Lemma length_concat_fmap {A B : Type} (f : A -> list B) (l : list A) (c : nat) :
  (forall x, length (f x) = c) -> length (concat (f <$> l)) = (length l * c)%nat.
Proof.
  intros Hf. induction l as [|x l IH]; [done|].
  rewrite fmap_cons. change (concat (f x :: (f <$> l))) with (f x ++ concat (f <$> l)).
  by rewrite length_app, Hf, IH.
Qed.

Lemma length_growth_strip direction from_row from_column t i :
  is_direction direction ->
  length (growth_strip direction from_row from_column t i)
  = Z.to_nat (if fst direction =? 0 then getColumnSpan t else getRowSpan t).
Proof.
  intros Hdir. unfold growth_strip.
  destruct Hdir as [-> | [-> | [-> | ->]]]; simpl;
    repeat (destruct (decide _) as [?|?]; try done);
    by rewrite length_fmap, length_seqZ.
Qed.

(** X19. [flattenList] concatenates the lists it is given, in order.
    The cells a growth scan returns are therefore the cells of the
    strips granted, strip after strip from the far edge of the tile
    outwards and, within a strip, in the order of the scan; when [k]
    strips are granted the list has [k] times as many cells as the
    tile is wide across the direction. *)
Theorem getTilesToMerge_flattens_strips s direction from_row from_column tile_number tile t :
  wf s -> is_direction direction ->
  cell s from_row from_column = Some tile -> tiles s !! tile = Some t ->
  rect_in_grid s from_row from_column t ->
  tile_number * (fst direction + snd direction) > 0 ->
  let k := free_strips s direction from_row from_column t
             (Z.min (Z.abs tile_number) (boundary_room s direction from_row from_column t)) in
  let cells := flattenList (growth_strip direction from_row from_column t <$> seqZ 0 k) in
  (forall (to_flatten : list (list (Z * Z))), flattenList to_flatten = concat to_flatten)
  /\ __getTilesToMerge s direction from_row from_column tile_number
     = inr ((fst direction + snd direction) * k, cells)
  /\ Z.of_nat (length cells)
     = k * (if fst direction =? 0 then getColumnSpan t else getRowSpan t).
Proof.
  intros Hwf Hdir Hcell Ht Hrect Hgrow k cells.
  split; [apply flattenList_concat|].
  pose proof (getTilesToMerge_grow s direction from_row from_column tile_number tile t
                Hwf Hdir Hcell Ht Hrect Hgrow) as Hscan.
  simpl in Hscan. unfold cells, k, free_strips.
  set (len := Z.min _ _) in *.
  set (n := leading_free s _) in *.
  assert (Z.of_nat n <= len) as Hn.
  { pose proof (leading_free_le s (growth_strip direction from_row from_column t <$> seqZ 0 len))
      as Hle.
    rewrite length_fmap, length_seqZ in Hle. fold n in Hle.
    destruct Hrect as (?&?&?&?&?&?).
    assert (0 <= len); [|lia]. unfold len, boundary_room.
    repeat (destruct (decide _) as [?|?]); lia. }
  rewrite flattenList_concat. split.
  - rewrite Hscan. by rewrite take_fmap_seqZ.
  - rewrite (length_concat_fmap _ _ _ (fun i => length_growth_strip direction _ _ t i Hdir)).
    rewrite length_seqZ, Nat2Z.id. destruct Hrect as (?&?&?&?&?&?).
    destruct (fst direction =? 0); lia.
Qed.

Lemma getTilesToMerge_flattens_strips_witness :
  let s := run (addWidget 8%nat 0 3 2 1) (run (addWidget 7%nat 0 0 2 1) (fresh 2 5)) in
  __getTilesToMerge s east 0 0 4 = inr (2, [(0, 1); (1, 1); (0, 2); (1, 2)]).
Proof.
  intros s.
  assert (wf s) as Hwf by (apply (bool_decide_unpack _); vm_compute; reflexivity).
  destruct (getTilesToMerge_flattens_strips s east 0 0 4 0%nat (mkTile 0 0 2 1 true (Some 7%nat))
              Hwf) as (_ & Hscan & _).
  - apply (bool_decide_unpack _). vm_compute. reflexivity.
  - vm_compute. reflexivity.
  - vm_compute. reflexivity.
  - apply (bool_decide_unpack _). vm_compute. reflexivity.
  - vm_compute. reflexivity.
  - rewrite Hscan. vm_compute. reflexivity.
Defined.

(** ** Layouts without cells *)

Lemma createTileMap_empty_rows (l : list Z) C s :
  C <= 0 ->
  for_each l
    (fun i_row =>
       let* _ := append_row in
       for_each (py_range C) (fun i_column =>
         let* tile := __createTile i_row i_column 1 1 false in append_to_last_row tile)) s
  = (set_tile_map (tile_map s ++ replicate (length l) []) s, inr tt).
Proof.
  intros HC. unfold py_range. rewrite seqZ_nil by done. simpl.
  revert s. induction l as [|i_row l IH]; intros s; simpl.
  - rewrite app_nil_r. by destruct s.
  - rewrite (bind_inr _ _ s (set_tile_map (tile_map s ++ [[]]) s) tt) by done.
    rewrite IH. simpl. by rewrite <- app_assoc.
Qed.

(** X20. [__createTileMap] on a layout whose number of rows or of
    columns is zero or negative raises nothing and creates no tile
    object: it appends one empty row per row asked for, none when that
    number is negative, and changes nothing else. *)
Theorem createTileMap_without_cells s :
  row_number s <= 0 \/ column_number s <= 0 ->
  __createTileMap s
  = (set_tile_map (tile_map s ++ replicate (Z.to_nat (row_number s)) []) s, inr tt).
Proof.
  intros Hdim. unfold __createTileMap.
  destruct (decide (column_number s <= 0)) as [HC|HC].
  - rewrite createTileMap_empty_rows by done. unfold py_range. by rewrite length_seqZ.
  - assert (row_number s <= 0) as HR by lia. unfold py_range at 1.
    rewrite seqZ_nil by done. simpl.
    replace (Z.to_nat (row_number s)) with 0%nat by lia. simpl.
    rewrite app_nil_r. by destruct s.
Qed.

Lemma createTileMap_without_cells_witness :
  __createTileMap (mkLayout 2 0 [] [] [] [] [])
  = (mkLayout 2 0 [] [[]; []] [] [] [], inr tt).
Proof. apply (createTileMap_without_cells (mkLayout 2 0 [] [] [] [] [])). right. simpl. lia. Defined.

(** ** Negative indices *)

Lemma py_index_wrap {A : Type} (l : list A) i :
  - Z.of_nat (length l) <= i < Z.of_nat (length l) ->
  py_index l i = py_index l (py_wrap (Z.of_nat (length l)) i)
  /\ 0 <= py_wrap (Z.of_nat (length l)) i < Z.of_nat (length l).
Proof.
  intros Hi. unfold py_wrap, py_index. destruct (decide (i < 0)) as [Hneg|Hnn].
  - split; [|lia]. rewrite decide_False, decide_True by lia.
    by rewrite (decide_True (P := 0 <= _ + i < _)) by lia.
  - split; [done|lia].
Qed.

Lemma set_cell_wrap s row column tile :
  wf s -> addressable s row column ->
  set_cell row column tile s
  = set_cell (py_wrap (row_number s) row) (py_wrap (column_number s) column) tile s
  /\ in_grid s (py_wrap (row_number s) row) (py_wrap (column_number s) column).
Proof.
  intros Hwf [Hr Hc]. pose proof (wf_rows s Hwf) as HR.
  destruct (py_index_wrap (tile_map s) row) as [Hir Hwr]; [lia|]. rewrite HR in Hir, Hwr.
  split; [|split; [done|]].
  - unfold set_cell. rewrite <- Hir.
    destruct (py_index (tile_map s) row) as [i|]; [|done].
    destruct (tile_map s !! i) as [x|] eqn:Hx; [|done].
    pose proof (wf_cols s x Hwf (list_elem_of_lookup_2 _ _ _ Hx)) as HC.
    destruct (py_index_wrap x column) as [Hic _]; [lia|]. rewrite HC in Hic.
    unfold py_setitem. by rewrite <- Hic.
  - unfold py_wrap. destruct (decide (column < 0)); lia.
Qed.

Lemma tile_at_wrap s row column :
  wf s -> addressable s row column ->
  tile_at s row column
  = tile_at s (py_wrap (row_number s) row) (py_wrap (column_number s) column).
Proof.
  intros Hwf [Hr Hc]. pose proof (wf_rows s Hwf) as HR.
  destruct (py_index_wrap (tile_map s) row) as [Hir _]; [lia|]. rewrite HR in Hir.
  unfold tile_at, py_getitem at 1 3. rewrite <- Hir.
  destruct (py_index (tile_map s) row) as [i|]; [|done].
  destruct (tile_map s !! i) as [x|] eqn:Hx; [|done]. simpl.
  pose proof (wf_cols s x Hwf (list_elem_of_lookup_2 _ _ _ Hx)) as HC.
  destruct (py_index_wrap x column) as [Hic _]; [lia|]. rewrite HC in Hic.
  unfold py_getitem. by rewrite <- Hic.
Qed.

(** X21. [hardSplitTiles] takes negative indices the way Python lists
    do.  For a pair of indices the grid can address, the hard split of
    that one cell returns; the new tile is stored in the cell the
    indices denote, counting a negative index from the end, while its
    recorded origin is the pair as given: for a negative index the new
    tile does not cover the cell it is stored in. *)
Theorem hardSplitTiles_negative_index s row column :
  wf s -> addressable s row column ->
  let r := py_wrap (rowCount s) row in
  let c := py_wrap (columnCount s) column in
  exists s' tile,
    hardSplitTiles row column [(row, column)] s = (s', inr tile)
    /\ in_grid s r c
    /\ (forall r' c',
          owner s' r' c' = if decide (r' = r /\ c' = c) then Some (Tile_new row column 1 1)
                           else owner s r' c')
    /\ (row < 0 \/ column < 0 -> ~ covers (Tile_new row column 1 1) r c).
Proof.
  intros Hwf Haddr r c. unfold rowCount, columnCount in r, c.
  destruct (tile_at_addressable s row column Hwf Haddr) as [old Hold].
  set (new := length (tiles s)).
  set (s1 := set_tiles (tiles s ++ [Tile_new row column 1 1]) s).
  assert (wf s1) as Hwf1 by (apply wf_mono_tiles; [done|rewrite length_app; lia]).
  destruct (set_cell_wrap s1 row column new Hwf1 Haddr) as [Hset Hgrid].
  destruct (set_cell_in_grid s1 r c new Hwf1 Hgrid) as (s' & Hrun & Htiles & Hf & Hcells & Hwf').
  assert (c_int row /\ c_int column) as [Hrfit Hcfit].
  { destruct (wf_c_int s Hwf), Haddr. unfold c_int. lia. }
  assert (hardSplitTiles row column [(row, column)] s = (s', inr new)) as Hsplit.
  { unfold hardSplitTiles.
    rewrite (bind_inr _ _ s s tt).
    2:{ unfold py_in. rewrite bool_decide_eq_true_2; [done|]. by apply list_elem_of_singleton. }
    rewrite (bind_inr _ _ s s' tt).
    2:{ simpl. rewrite (bind_inr _ _ s s' tt); [done|].
        rewrite (bind_inr _ _ s s old) by (unfold read; by rewrite Hold).
        rewrite (bind_inr _ _ s s' new); [done|].
        unfold __createTile. fold s1. fold new. rewrite rect_cells_unit. simpl.
        rewrite (bind_inr _ _ s1 s1 tt) by (apply qt_call_ok; solve_c_int).
        rewrite (bind_inr _ _ s1 s' tt); [done|].
        rewrite (bind_inr _ _ s1 s' tt); [done|]. by rewrite Hset. }
    rewrite (bind_inr _ _ s' s' new).
    2:{ unfold read. f_equal.
        rewrite (tile_at_wrap s' row column).
        - destruct Hf as (-> & -> & _). apply tile_at_cell. rewrite Hcells.
          by rewrite decide_True.
        - apply Hwf'. unfold s1, new. simpl. rewrite length_app. simpl. lia.
        - by apply (addressable_frame s1 s'). }
    rewrite (bind_inr _ _ s' s' tt); [done|]. apply qt_call_ok. solve_c_int. }
  exists s', new. split_and!; try done.
  - intros r' c'. unfold owner. rewrite Hcells, Htiles.
    destruct (decide _) as [_|_]; simpl.
    + unfold s1, new. simpl. by apply list_lookup_middle.
    + change (cell s1 r' c') with (cell s r' c').
      destruct (cell s r' c') as [id|] eqn:Hc; [|done]. simpl.
      destruct (cell_Some_in_grid s r' c' id Hwf Hc) as [_ Hlt].
      unfold s1. simpl. by apply lookup_app_l.
  - intros Hneg. rewrite covers_Tile_new. unfold r, c, py_wrap.
    destruct Haddr as [? ?].
    destruct (decide (row < 0)), (decide (column < 0)); lia.
Qed.

Lemma hardSplitTiles_negative_index_witness :
  let s := fresh 2 3 in
  exists s' tile,
    hardSplitTiles (-1) 0 [(-1, 0)] s = (s', inr tile)
    /\ in_grid s (py_wrap (rowCount s) (-1)) (py_wrap (columnCount s) 0)
    /\ (forall r' c',
          owner s' r' c'
          = if decide (r' = py_wrap (rowCount s) (-1) /\ c' = py_wrap (columnCount s) 0)
            then Some (Tile_new (-1) 0 1 1) else owner s r' c')
    /\ (-1 < 0 \/ 0 < 0 ->
        ~ covers (Tile_new (-1) 0 1 1) (py_wrap (rowCount s) (-1)) (py_wrap (columnCount s) 0)).
Proof.
  intros s. apply (hardSplitTiles_negative_index s (-1) 0).
  - apply (bool_decide_unpack _). vm_compute. reflexivity.
  - apply (bool_decide_unpack _). vm_compute. reflexivity.
Defined.

(** ** Invariants of the layouts reached by valid operations *)

Lemma owner_Some s r c t :
  owner s r c = Some t <-> exists tile, cell s r c = Some tile /\ tiles s !! tile = Some t.
Proof.
  unfold owner. destruct (cell s r c) as [tile|]; simpl.
  - split; [by exists tile|]. by intros (tile' & [= <-] & ?).
  - split; [done|]. by intros (tile' & ? & _).
Qed.

Lemma tile_eta t :
  t = mkTile (getFromRow t) (getFromColumn t) (getRowSpan t) (getColumnSpan t)
             (isFilled t) (tile_widget t).
Proof. by destruct t. Qed.

(** X22. In a layout reached by valid operations, removing a bound
    widget and placing it back over the rectangle its tile had gives
    back the grid: both calls return and every cell is owned by a tile
    with the same geometry, fill flag and item as before the removal.
    The registry is not the same: the widget now stands last in
    [widgetList]. *)
Theorem removeWidget_addWidget_round_trip R C s widget :
  0 <= R -> 0 <= C -> reachable valid_op R C s ->
  widget ∈ widgetList s ->
  exists s1 s2 index tile t,
    bound_at s widget index tile /\ tiles s !! tile = Some t
    /\ removeWidget widget s = (s1, inr tt)
    /\ addWidget widget (getFromRow t) (getFromColumn t) (getRowSpan t) (getColumnSpan t) s1
       = (s2, inr tt)
    /\ (forall r c, owner s2 r c = owner s r c)
    /\ widgetList s2 = delete index (widgetList s) ++ [widget].
Proof.
  intros HR HC Hreach Hw.
  destruct (reachable_registry R C s HR HC Hreach) as (HInv & Hlink & _).
  destruct (removeWidget_effect s widget HInv Hw)
    as (s1 & index & tile & t & Hb & Ht & Hf & Htg & Hcov & Hrun & HInv1 & HRs & HCs
        & Hcw & _ & _ & _ & _ & Hown).
  pose proof HInv as (Hwf & _ & _ & Hnd & _). pose proof HInv1 as (Hwf1 & _).
  pose proof Hb as [Hidx Htile].
  assert (tile_widget t = Some widget) as Hwt.
  { destruct (Hlink index widget tile (py_list_index_lookup _ _ _ Hidx) Htile)
      as (t' & Ht' & _ & ?). congruence. }
  assert (widget ∉ couple_widget s1) as Hnew.
  { rewrite Hcw. eapply NoDup_delete_lookup; [done|]. by apply py_list_index_lookup. }
  assert (isAreaEmpty s1 (getFromRow t) (getFromColumn t) (getRowSpan t) (getColumnSpan t)
          = inr true) as He.
  { destruct (isAreaEmpty_cases s1 (getFromRow t) (getFromColumn t) (getRowSpan t)
                (getColumnSpan t) Hwf1) as [_ Hin].
    rewrite HRs, HCs in Hin. unfold tile_in_grid in Htg.
    destruct Hin as (b & -> & Hiff); [lia|]. f_equal. apply Hiff, area_unfilled_owner.
    intros r c Hin. exists (Tile_new r c 1 1). by rewrite Hown, decide_True. }
  destruct (addWidget_effect_owner s1 widget (getFromRow t) (getFromColumn t) (getRowSpan t)
              (getColumnSpan t) HInv1)
    as (s2 & Hrun2 & _ & Hown2 & _ & _ & Hcw2 & _ & _).
  { unfold tile_in_grid in Htg. simpl. split_and!; [done|done|lia|lia]. }
  exists s1, s2, index, tile, t. split_and!; try done.
  - intros r c. rewrite Hown2. unfold in_rect. fold (covers t r c).
    destruct (decide (covers t r c)) as [Hc|Hc].
    + symmetry. apply owner_Some. exists tile. split; [by apply Hcov|].
      rewrite Ht. f_equal. rewrite (tile_eta t) at 1. by rewrite Hf, Hwt.
    + by rewrite Hown, decide_False.
  - unfold widgetList. by rewrite Hcw2, Hcw.
Qed.

Lemma removeWidget_addWidget_round_trip_witness :
  let s := run (exec (OpAdd 8%nat 1 0 1 1)) (run (exec (OpAdd 7%nat 0 1 2 2)) (fresh 2 3)) in
  exists s1 s2 index tile t,
    bound_at s 7%nat index tile /\ tiles s !! tile = Some t
    /\ removeWidget 7%nat s = (s1, inr tt)
    /\ addWidget 7%nat (getFromRow t) (getFromColumn t) (getRowSpan t) (getColumnSpan t) s1
       = (s2, inr tt)
    /\ (forall r c, owner s2 r c = owner s r c)
    /\ widgetList s2 = delete index (widgetList s) ++ [7%nat].
Proof.
  intros s. apply (removeWidget_addWidget_round_trip 2 3 s 7%nat); [lia|lia| |].
  - repeat (apply reachable_step; [|apply (bool_decide_unpack _); vm_compute; reflexivity]).
    apply reachable_fresh. reflexivity.
  - apply (bool_decide_unpack _). vm_compute. reflexivity.
Defined.

Lemma reachable_dimensions R C s :
  0 <= R -> 0 <= C -> reachable valid_op R C s -> row_number s = R /\ column_number s = C.
Proof.
  intros HR HC Hreach. induction Hreach as [Hinit|s op Hreach [IHR IHC] Hvalid].
  - destruct (init_returns R C HR HC Hinit).
    destruct (fresh_spec R C) as (s & Hrun & _ & ? & ? & _); [lia..|].
    by rewrite (fresh_eq _ _ _ Hrun).
  - assert (preserves (exec op)) as Hp.
    { destruct op; simpl.
      - apply preserves_addWidget.
      - apply preserves_removeWidget.
      - apply preserves_resizeTile.
      - apply preserves_bind; [apply preserves_hardSplitTiles|auto with preserves]. }
    unfold run. destruct (exec op s) as [s' r] eqn:Hrun. simpl.
    destruct (Hp s s' r Hrun) as (? & ? & _). split; congruence.
Qed.

(** X23. In every layout reached from a fresh grid of [R] rows and
    [C] columns by valid operations, the dimensions are still [R] and
    [C], every cell of the grid is owned, an unfilled tile that owns a
    cell is the tile of one row and one column at that cell, and a tile
    that spans more than one cell is filled and holds a widget of
    [widgetList]. *)
Theorem unfilled_tiles_are_unit R C s :
  0 <= R -> 0 <= C -> reachable valid_op R C s ->
  rowCount s = R /\ columnCount s = C
  /\ (forall r c, 0 <= r < R -> 0 <= c < C -> exists t, owner s r c = Some t)
  /\ (forall r c t, owner s r c = Some t -> isFilled t = false -> t = Tile_new r c 1 1)
  /\ (forall r c t,
        owner s r c = Some t -> 1 < getRowSpan t \/ 1 < getColumnSpan t ->
        isFilled t = true
        /\ exists widget, tile_widget t = Some widget /\ widget ∈ widgetList s).
Proof.
  intros HR HC Hreach.
  destruct (reachable_registry R C s HR HC Hreach)
    as ((Hwf & Hgrid & Hlen & _) & Hlink & Hfb).
  destruct (reachable_dimensions R C s HR HC Hreach) as [HRs HCs].
  assert (forall r c t, owner s r c = Some t -> isFilled t = false -> t = Tile_new r c 1 1)
    as Hunit.
  { intros r c t (tile & Hc & Ht)%owner_Some Hf.
    destruct (Hgrid r c tile Hc) as (t' & Ht' & _ & _ & Hu).
    assert (t' = t) as -> by congruence. by apply Hu. }
  split_and!; try done.
  - intros r c Hr Hc. destruct (filled_at_in_grid s r c Hwf) as (tile & t & Hcell & Ht & _).
    { unfold in_grid. lia. }
    exists t. apply owner_Some. by exists tile.
  - intros r c t Ho Hspan.
    assert (isFilled t = true) as Hf.
    { destruct (isFilled t) eqn:Hf; [done|]. rewrite (Hunit r c t Ho Hf) in Hspan.
      simpl in Hspan. lia. }
    split; [done|]. apply owner_Some in Ho as (tile & Hc & Ht).
    pose proof (Hfb r c tile t Hc Ht Hf) as [index Hidx]%list_elem_of_lookup_1.
    destruct (lookup_lt_is_Some_2 (couple_widget s) index) as [widget Hw].
    { apply lookup_lt_Some in Hidx. lia. }
    destruct (Hlink index widget tile Hw Hidx) as (t' & Ht' & _ & Hw').
    assert (t' = t) as -> by congruence.
    exists widget. split; [done|]. by eapply list_elem_of_lookup_2.
Qed.

Lemma unfilled_tiles_are_unit_witness :
  let s := run (exec (OpResize south 0 1 (-1)))
             (run (exec (OpResize east 0 1 5))
                (run (exec (OpAdd 7%nat 0 1 2 1)) (fresh 2 4))) in
  rowCount s = 2 /\ columnCount s = 4
  /\ (forall r c, 0 <= r < 2 -> 0 <= c < 4 -> exists t, owner s r c = Some t)
  /\ (forall r c t, owner s r c = Some t -> isFilled t = false -> t = Tile_new r c 1 1)
  /\ (forall r c t,
        owner s r c = Some t -> 1 < getRowSpan t \/ 1 < getColumnSpan t ->
        isFilled t = true
        /\ exists widget, tile_widget t = Some widget /\ widget ∈ widgetList s).
Proof.
  intros s. apply (unfilled_tiles_are_unit 2 4); [lia|lia|].
  repeat (apply reachable_step; [|apply (bool_decide_unpack _); vm_compute; reflexivity]).
  apply reachable_fresh. reflexivity.
Defined.

(** X24. What [isAreaEmpty] means in a layout reached by valid
    operations: for a rectangle with a non-negative origin that does
    not leave the grid it answers [True] exactly when the rectangle
    shares no cell with the rectangle of any registered tile, that is,
    of any widget placed in the layout. *)
Theorem isAreaEmpty_iff_no_overlap R C s from_row from_column row_span column_span :
  0 <= R -> 0 <= C -> reachable valid_op R C s ->
  0 <= from_row -> 0 <= from_column ->
  from_row + row_span <= R -> from_column + column_span <= C ->
  isAreaEmpty s from_row from_column row_span column_span = inr true
  <-> forall tile t,
        tile ∈ couple_tile s -> tiles s !! tile = Some t ->
        forall r c, in_rect from_row from_column row_span column_span r c -> ~ covers t r c.
Proof.
  intros HR HC Hreach Hr0 Hc0 Hr1 Hc1.
  destruct (reachable_registry R C s HR HC Hreach)
    as ((Hwf & Hgrid & _ & _ & _ & Hbound) & _ & Hfb).
  destruct (reachable_dimensions R C s HR HC Hreach) as [HRs HCs].
  destruct (isAreaEmpty_cases s from_row from_column row_span column_span Hwf) as [_ Hin].
  destruct Hin as (b & -> & Hiff); [lia|].
  split.
  - intros [= ->]. destruct Hiff as [Harea _]. specialize (Harea eq_refl).
    intros tile t Htile Ht r c [Hr Hc] Hcov.
    destruct (Hbound tile Htile) as (t' & r0 & c0 & Ht' & Hf & Hc0').
    assert (t' = t) as -> by congruence.
    destruct (Harea r c Hr Hc) as (tile2 & t2 & Hc2 & Ht2 & Hf2).
    pose proof (proj2 (grid_inv_cells s r0 c0 tile t Hgrid Hc0' Ht r c) Hcov) as Hc3.
    congruence.
  - intros Hno. f_equal. apply Hiff. intros r c Hr Hc.
    destruct (filled_at_in_grid s r c Hwf) as (tile & t & Hcell & Ht & _).
    { unfold in_grid. lia. }
    exists tile, t. split_and!; [done..|].
    destruct (isFilled t) eqn:Hf; [|done]. exfalso.
    apply (Hno tile t (Hfb r c tile t Hcell Ht Hf) Ht r c); [by split|].
    by apply (grid_inv_cells s r c tile t Hgrid Hcell Ht).
Qed.

Lemma isAreaEmpty_iff_no_overlap_witness :
  let s := run (exec (OpAdd 7%nat 0 1 2 1)) (fresh 2 4) in
  isAreaEmpty s 0 2 2 2 = inr true
  <-> forall tile t,
        tile ∈ couple_tile s -> tiles s !! tile = Some t ->
        forall r c, in_rect 0 2 2 2 r c -> ~ covers t r c.
Proof.
  intros s. apply (isAreaEmpty_iff_no_overlap 2 4 s 0 2 2 2); [lia|lia| |lia..].
  repeat (apply reachable_step; [|apply (bool_decide_unpack _); vm_compute; reflexivity]).
  apply reachable_fresh. reflexivity.
Defined.

(** X25. When a layout reached from a fresh grid by valid operations
    has an empty [widgetList], its grid cannot be told from the fresh
    one: every cell is owned by an unfilled tile of one row and one
    column at that cell, whatever was placed, resized and removed in
    between. *)
Theorem empty_widgetList_is_fresh_grid R C s :
  0 <= R -> 0 <= C -> reachable valid_op R C s ->
  widgetList s = [] ->
  forall r c, owner s r c = owner (fresh R C) r c.
Proof.
  intros HR HC Hreach Hempty r c.
  destruct (reachable_registry R C s HR HC Hreach)
    as ((Hwf & Hgrid & Hlen & _) & _ & Hfb).
  destruct (reachable_dimensions R C s HR HC Hreach) as [HRs HCs].
  destruct (reachable_init valid_op R C s HR HC Hreach) as [HRfit HCfit].
  destruct (fresh_spec R C HRfit HCfit) as (s0 & Hrun & _ & _ & _ & _ & _ & _ & Hown).
  rewrite (fresh_eq _ _ _ Hrun), Hown.
  unfold widgetList in Hempty. rewrite Hempty in Hlen.
  destruct (decide _) as [Hin|Hout].
  - destruct (filled_at_in_grid s r c Hwf) as (tile & t & Hcell & Ht & _).
    { unfold in_grid. lia. }
    apply owner_Some. exists tile. split; [done|]. rewrite Ht. f_equal.
    destruct (Hgrid r c tile Hcell) as (t' & Ht' & _ & _ & Hunit).
    assert (t' = t) as -> by congruence. apply Hunit.
    destruct (isFilled t) eqn:Hf; [|done].
    pose proof (Hfb r c tile t Hcell Ht Hf) as Hreg.
    destruct (couple_tile s); [by apply elem_of_nil in Hreg|done].
  - destruct (owner s r c) as [t|] eqn:Ho; [|done].
    apply owner_Some in Ho as (tile & Hcell & _).
    destruct (cell_Some_in_grid s r c tile Hwf Hcell) as [[? ?] _]. lia.
Qed.

Lemma empty_widgetList_is_fresh_grid_witness :
  let s := run (exec (OpRemove 7%nat))
             (run (exec (OpResize south 0 1 (-1)))
                (run (exec (OpResize east 0 1 5))
                   (run (exec (OpAdd 7%nat 0 1 2 1)) (fresh 2 4)))) in
  owner s 0 1 = owner (fresh 2 4) 0 1 /\ owner s 1 2 = owner (fresh 2 4) 1 2.
Proof.
  intros s.
  assert (forall r c, owner s r c = owner (fresh 2 4) r c) as Hsame; [|by split].
  apply (empty_widgetList_is_fresh_grid 2 4 s); [lia|lia| |].
  - repeat (apply reachable_step; [|apply (bool_decide_unpack _); vm_compute; reflexivity]).
    apply reachable_fresh. reflexivity.
  - vm_compute. reflexivity.
Defined.

(** ** The signals of one resize request *)

Lemma emits_ret : emits_at_most_once (ret tt).
Proof. intros s s' r [= <- _]. by left. Qed.

Lemma emits_bind {A : Type} (m : M A) (k : A -> M unit) :
  keeps tileResized m -> (forall a, emits_at_most_once (k a)) ->
  emits_at_most_once (bind m k).
Proof.
  intros Hm Hk s s' r. unfold bind. destruct (m s) as [s1 [e|a]] eqn:Hms.
  - intros [= <- _]. left. by apply (Hm s s1 (inl e)).
  - intros Hka. rewrite <- (Hm s s1 (inr a) Hms). by apply (Hk a).
Qed.

Lemma emits_resizeTile direction from_row from_column tile_number :
  emits_at_most_once (resizeTile direction from_row from_column tile_number).
Proof.
  unfold resizeTile. apply emits_bind; [apply keeps_read|]. intros tile.
  apply emits_bind; [apply keeps_read|]. intros t.
  destruct direction as [dir_x dir_y].
  apply emits_bind; [apply keeps_read|]. intros [granted [|cell0 cells]];
    [apply emits_ret|].
  apply emits_bind.
  { destruct (_ >? _); [by apply keeps_mergeTiles|by apply keeps_splitTiles]. }
  intros _. apply emits_bind; [apply keeps_read|]. intros index.
  apply emits_bind; [apply keeps_read|]. intros widget.
  intros s s' r [= <- <-]. right. split; [done|]. by eexists.
Qed.

(** X26. One call of [resizeTile] emits at most one [tileResized]
    signal, and only when it returns: whatever the layout and the
    arguments, a call that raises has emitted nothing, and a call that
    returns has emitted nothing or has appended exactly one signal. *)
Theorem resizeTile_emits_at_most_once s direction from_row from_column tile_number :
  let m := resizeTile direction from_row from_column tile_number in
  tileResized (run m s) = tileResized s
  \/ (result m s = inr tt
      /\ exists widget geometry,
           tileResized (run m s) = tileResized s ++ [(widget, geometry)]).
Proof.
  intros m. unfold run, result.
  destruct (m s) as [s' r] eqn:Hrun. simpl.
  destruct (emits_resizeTile direction from_row from_column tile_number s s' r Hrun)
    as [Hsame|[-> [[widget geometry] Hev]]]; [by left|].
  right. split; [done|]. by exists widget, geometry.
Qed.
